(** * Vehicle behaviour of the traffic simulation (src/vehicle.py)

    A shallow embedding of the per-vehicle update of the simulator:
    [Vehicle.update] (kinematics and emergency speed change),
    [HumanVehicle.update] (velocity cap, safe distance, lane change,
    acceleration), [HumanVehicle.calc_acceleration] and
    [AutomaticCar.calc_acceleration], [prob_left], [prob_right] and
    [_enough_room].

    Conventions of the embedding.
    - Python floats are modelled as exact rationals [Q]: every arithmetic
      operation is the exact one, rounding is not modelled.
    - [None] is [option]; reading a number out of [None] raises [TypeError].
    - A method that mutates [self] takes the vehicle and returns the new one.
    - Exceptions are values of [result]; the state of a vehicle whose update
      raised is not observed.
    - The road container, the random draw and the wall clock are inputs. *)

From Stdlib Require Import Reals Qreals Lra.
From Stdlib Require Import QArith Qabs Qminmax Qround Lqa Lia ZArith List String Bool.
Import ListNotations.
Local Open Scope Q_scope.

(** ** Exceptions *)

Inductive exn : Type :=
| ZeroDivisionError
| TypeError
| AttributeError
| UnboundLocalError.

Inductive result (A : Type) : Type :=
| Ok (a : A)
| Raise (e : exn).
Arguments Ok {A} a.
Arguments Raise {A} e.

Definition bind {A B : Type} (c : result A) (k : A -> result B) : result B :=
  match c with
  | Ok a => k a
  | Raise e => Raise e
  end.

Notation "x <- c ;; k" := (bind c (fun x => k))
  (at level 61, c at next level, right associativity).
Notation "' p <- c ;; k" := (bind c (fun x => let p := x in k))
  (at level 61, p pattern, c at next level, right associativity).

(** Python's [a and b] and [a or b] on conditions that may raise: the right
    operand is looked at only when the left one does not decide. *)
Definition andM (a b : result bool) : result bool :=
  match a with
  | Ok true => b
  | _ => a
  end.

Definition orM (a b : result bool) : result bool :=
  match a with
  | Ok false => b
  | _ => a
  end.

Infix "&&&" := andM (at level 40, left associativity).
Infix "|||" := orM (at level 50, left associativity).

(** ** Numbers *)

Definition Qlt_bool (x y : Q) : bool := negb (Qle_bool y x).

(** [x / y] of Python. *)
Definition pydiv (x y : Q) : result Q :=
  if Qeq_bool y 0 then Raise ZeroDivisionError else Ok (x / y).

(** An operand that must be a number. *)
Definition need (o : option Q) : result Q :=
  match o with
  | Some q => Ok q
  | None => Raise TypeError
  end.

(** Truth value of a float-or-None: [None] and [0.0] are false. *)
Definition truthy (o : option Q) : bool :=
  match o with
  | Some q => negb (Qeq_bool q 0)
  | None => false
  end.

Definition is_None {A : Type} (o : option A) : bool :=
  match o with
  | Some _ => false
  | None => true
  end.

(** [round(x, 1)]: the nearest multiple of one tenth, ties to the even one. *)
Definition round1 (x : Q) : Q :=
  let y := x * 10 in
  let n := Qfloor y in
  let r := y - inject_Z n in
  let m := if Qlt_bool r 0.5 then n
           else if Qlt_bool 0.5 r then (n + 1)%Z
           else if Z.even n then n else (n + 1)%Z in
  inject_Z m / 10.

(** The value of [x ** (3/4)], kept symbolic: [Pow34 x] stands for the real
    number [x] to the power three quarters, [Num q] for the number [q]. *)
Inductive pyval : Type :=
| Num (q : Q)
| Pow34 (base : Q).

(** [p < v].  A negative base makes [x ** 0.75] a complex number, which
    cannot be ordered.  Otherwise [p < x ** (3/4)] is decided exactly:
    for [p >= 0] it is [p^4 < x^3]. *)
Definition lt_pyval (p : Q) (v : pyval) : result bool :=
  match v with
  | Num q => Ok (Qlt_bool p q)
  | Pow34 x =>
      if Qlt_bool x 0 then Raise TypeError
      else Ok (Qlt_bool p 0 || Qlt_bool (p * p * p * p) (x * x * x))
  end.

(** ** Data model *)

Inductive vclass : Type := Car | Truck | AutomaticCar.

(** The attributes written by the constructors only. *)
Record Profile : Type := mkProfile {
  cls : vclass;
  vtype : string;
  HV_K : Q;
  HV_K1 : Q;
  HV_K2 : Q;
  HV_K3 : option Q;
  HV_A0 : Q;
  HV_L : Q;
  HV_L2 : option Q;
  HV_AMAX : Q;
  HV_BRAKING : Q;
  length : Q;
  extremely_safe_distance : Q;
  desired_velocity : Q;
  safe_time : Q;
  epsilon : Q
}.

Record Vehicle : Type := mkVehicle {
  prof :> Profile;
  lane : Z;
  position : Q;
  velocity : Q;
  acceleration : Q;
  emergency : Z;
  safe_distance : Q;
  animlane : Q;
  last_lane_change : Q
}.

Definition set_lane (x : Z) (s : Vehicle) : Vehicle :=
  mkVehicle s x (position s) (velocity s) (acceleration s) (emergency s)
    (safe_distance s) (animlane s) (last_lane_change s).
Definition set_position (x : Q) (s : Vehicle) : Vehicle :=
  mkVehicle s (lane s) x (velocity s) (acceleration s) (emergency s)
    (safe_distance s) (animlane s) (last_lane_change s).
Definition set_velocity (x : Q) (s : Vehicle) : Vehicle :=
  mkVehicle s (lane s) (position s) x (acceleration s) (emergency s)
    (safe_distance s) (animlane s) (last_lane_change s).
Definition set_acceleration (x : Q) (s : Vehicle) : Vehicle :=
  mkVehicle s (lane s) (position s) (velocity s) x (emergency s)
    (safe_distance s) (animlane s) (last_lane_change s).
Definition set_emergency (x : Z) (s : Vehicle) : Vehicle :=
  mkVehicle s (lane s) (position s) (velocity s) (acceleration s) x
    (safe_distance s) (animlane s) (last_lane_change s).
Definition set_safe_distance (x : Q) (s : Vehicle) : Vehicle :=
  mkVehicle s (lane s) (position s) (velocity s) (acceleration s) (emergency s)
    x (animlane s) (last_lane_change s).
Definition set_animlane (x : Q) (s : Vehicle) : Vehicle :=
  mkVehicle s (lane s) (position s) (velocity s) (acceleration s) (emergency s)
    (safe_distance s) x (last_lane_change s).
Definition set_last_lane_change (x : Q) (s : Vehicle) : Vehicle :=
  mkVehicle s (lane s) (position s) (velocity s) (acceleration s) (emergency s)
    (safe_distance s) (animlane s) x.

(** The configuration object [conf]. *)
Record Conf : Type := mkConf {
  nb_lanes : Z;
  fps : Z;
  speedup : Q;
  sound : bool
}.

(** The road container: its six neighbour queries, each answered for the
    vehicle as it is when asked. *)
Record Container : Type := mkContainer {
  front : Vehicle -> option Vehicle;
  back : Vehicle -> option Vehicle;
  left_front : Vehicle -> option Vehicle;
  left_back : Vehicle -> option Vehicle;
  right_front : Vehicle -> option Vehicle;
  right_back : Vehicle -> option Vehicle
}.

(** A container whose answers do not depend on the asking vehicle's state. *)
Definition snapshot (f b lf lb rf rb : option Vehicle) : Container :=
  mkContainer (fun _ => f) (fun _ => b) (fun _ => lf) (fun _ => lb)
    (fun _ => rf) (fun _ => rb).

(** What an update does besides changing the vehicle. *)
Inductive event : Type :=
| Warning (c : vclass)
| Scream
| NotifyLaneChange (previous_lane : Z).

(** ** Constructors *)

Definition Vehicle_init (p : Profile) (lane0 : Z) (position0 : Q) (now : Q) : Vehicle :=
  mkVehicle p lane0 position0 0 0 0%Z (extremely_safe_distance p)
    (inject_Z lane0) now.

(** [Car(lane, position)]; [l], [amax], [esd], [dv], [eps] are the five
    uniform draws, [ty] the drawn sprite and [now] the clock. *)
Definition Car_init (lane0 : Z) (position0 : Q) (l amax esd dv eps : Q)
    (ty : string) (now : Q) : Vehicle :=
  Vehicle_init
    (mkProfile Car ty 1.4 3.0 1.8 None 1.0 l None amax 9.0 4.0 esd dv 0.9 eps)
    lane0 position0 now.

Definition Truck_init (lane0 : Z) (position0 : Q) (amax esd dv eps : Q)
    (now : Q) : Vehicle :=
  Vehicle_init
    (mkProfile Truck "long_truck" 2.0 2.6 2.2 None 1.0 1.0 None amax 5.0 15.0
       esd dv 2.2 eps)
    lane0 position0 now.

(** The base constructor runs after ['tesla'] is stored, so the sprite of an
    automatic car is the drawn one. *)
Definition AutomaticCar_init (lane0 : Z) (position0 : Q) (amax dv eps : Q)
    (ty : string) (now : Q) : Vehicle :=
  Vehicle_init
    (mkProfile AutomaticCar ty 1.4 3.0 1.8 (Some 1.1) 1.0 10 (Some 50) amax 9.0
       4.0 4.0 dv 0.9 eps)
    lane0 position0 now.

(** ** Vehicle.update *)

(** The two locals computed first. *)
Definition new_position (dt : Q) (self : Vehicle) : Q :=
  position self + dt * velocity self + 0.5 * dt * dt * acceleration self.

Definition new_velocity (dt : Q) (self : Vehicle) : Q :=
  Qmax 0 (velocity self + acceleration self * dt).

Definition Vehicle_update (conf : Conf) (container : Container) (dt : Q)
    (self : Vehicle) : Vehicle * list event :=
  let keep :=
    (set_emergency (Z.max 0 (emergency self - 1))
       (set_velocity (new_velocity dt self)
          (set_position (new_position dt self) self)), []) in
  match front container self with
  | Some f =>
      if Qlt_bool (Qabs (position f - new_position dt self))
           (0.99 * extremely_safe_distance self)
      then
        (set_emergency (fps conf)
           (set_position (position f - extremely_safe_distance self)
              (set_acceleration (acceleration f)
                 (set_velocity (velocity f) self))),
         Warning (cls self) :: (if sound conf then [Scream] else []))
      else keep
  | None => keep
  end.

(** [Vehicle.__lt__]. *)
Definition __lt__ (self other : Vehicle) : bool :=
  Qlt_bool (position self) (position other).

(** ** HumanVehicle *)

Definition need_vehicle (o : option Vehicle) : result Vehicle :=
  match o with
  | Some v => Ok v
  | None => Raise AttributeError
  end.

(** [_enough_room(container, location)].  [d] starts at [0] and [v] unbound:
    a location that is none of the four leaves [v] unbound at its use. *)
Definition _enough_room (self : Vehicle) (container : Container)
    (location : string * string) : result bool :=
  let room (v : option Vehicle) (d : option Q) : result bool :=
    match d with
    | None => Ok true
    | Some d' =>
        v' <- need_vehicle v ;;
        Ok (Qlt_bool (Qmax (length v') (HV_K self * safe_distance v')) d')
    end in
  if ((snd location =? "front") && (fst location =? "left"))%string then
    let v := left_front container self in
    room v (option_map (fun v' => position v' - position self) v)
  else if ((snd location =? "front") && (fst location =? "right"))%string then
    let v := right_front container self in
    room v (option_map (fun v' => position v' - position self) v)
  else if ((snd location =? "back") && (fst location =? "left"))%string then
    let v := left_back container self in
    room v (option_map (fun v' => position self - position v') v)
  else if ((snd location =? "back") && (fst location =? "right"))%string then
    let v := right_back container self in
    room v (option_map (fun v' => position self - position v') v)
  else Raise UnboundLocalError.

Definition prob_left (self : Vehicle) (container : Container) (conf : Conf)
    (af vf df dlf vlf dlb vlb : option Q) : result pyval :=
  c <- Ok (truthy df)
       &&& (d <- need df ;; Ok (Qlt_bool d (HV_K1 self * safe_distance self)))
       &&& (Ok (Qlt_bool (epsilon self) (desired_velocity self - velocity self))
            ||| (v <- need vf ;;
                 Ok (Qlt_bool (epsilon self) (desired_velocity self - v))))
       &&& _enough_room self container ("left", "front")%string
       &&& _enough_room self container ("left", "back")%string
       &&& (Ok (is_None vlf)
            ||| ((v <- need vlf ;; Ok (Qle_bool (velocity self) v))
                 ||| (d <- need dlf ;;
                      Ok (Qle_bool (HV_K1 self * safe_distance self) d))))
       &&& (Ok (is_None vlb)
            ||| ((v <- need vlb ;; Ok (Qle_bool v (velocity self)))
                 ||| (d <- need dlb ;;
                      Ok (Qle_bool (HV_K1 self * safe_distance self) d)))) ;;
  if c then
    d <- need df ;;
    q <- pydiv (safe_distance self) d ;;
    Ok (Pow34 q)
  else Ok (Num 0).

Definition prob_right (self : Vehicle) (container : Container) (conf : Conf)
    (df vf db vrf drf vrb drb : option Q) : result Q :=
  c <- (Ok (is_None vrf)
        ||| ((v <- need vrf ;; Ok (Qlt_bool (velocity self - v) (epsilon self)))
             ||| (d <- need drf ;;
                  Ok (Qlt_bool (HV_K self * safe_distance self) d))))
       &&& _enough_room self container ("right", "front")%string
       &&& _enough_room self container ("right", "back")%string ;;
  Ok (if c then 0.9 else 0).

(** The three-way rule shared by the acceleration zone and the slower branch
    of the adaptive zone; [num] and [den] are the numerator and denominator
    of the last case. *)
Definition reach_desired (self : Vehicle) (num den : Q) : result Q :=
  if Qeq_bool (desired_velocity self - velocity self) 0 then Ok 0
  else if Qlt_bool (desired_velocity self - velocity self) (epsilon self)
  then Ok (HV_A0 self)
  else
    q <- pydiv num den ;;
    Ok (Qmin (HV_AMAX self) (q * HV_L self * HV_AMAX self)).

(** The braking zone, the last [else] of both controllers. *)
Definition braking_zone (self : Vehicle) (af vf : option Q) (df : Q) : result Q :=
  if Qlt_bool df (HV_K self * safe_distance self)
     && (truthy af
         && match af with
            | Some a => Qlt_bool a (acceleration self)
            | None => false
            end)
  then Ok (- HV_BRAKING self)
  else
    v <- need vf ;;
    if Qlt_bool v (velocity self) then
      q <- pydiv (HV_BRAKING self) (safe_distance self) ;;
      Ok (Qmax (- HV_BRAKING self) (- (q * df - HV_BRAKING self)))
    else Ok (- 0.1).

(** The adaptive zone. *)
Definition adaptive_zone (self : Vehicle) (vf : option Q) : result Q :=
  v <- need vf ;;
  if Qlt_bool v (velocity self) then
    q <- pydiv (v - velocity self) (v + 0.01) ;;
    Ok (Qmax (- HV_BRAKING self) (q * HV_L self * HV_BRAKING self))
  else reach_desired self (v - velocity self) (v + 0.01).

Definition acceleration_zone (self : Vehicle) : result Q :=
  reach_desired self (desired_velocity self - velocity self)
    (velocity self + 0.01).

Definition HumanVehicle_calc_acceleration (self : Vehicle) (conf : Conf)
    (af vf df : option Q) : result (Q * Vehicle) :=
  match df with
  | None => a <- acceleration_zone self ;; Ok (a, self)
  | Some d =>
      if Qle_bool (HV_K1 self * safe_distance self) d then
        a <- acceleration_zone self ;; Ok (a, self)
      else if Qlt_bool d (HV_K1 self * safe_distance self)
              && Qlt_bool (HV_K2 self * safe_distance self) d then
        a <- adaptive_zone self vf ;; Ok (a, self)
      else
        a <- braking_zone self af vf d ;; Ok (a, self)
  end.

Definition need_attr (o : option Q) : result Q :=
  match o with
  | Some q => Ok q
  | None => Raise AttributeError
  end.

(** [np.absolute] of a boolean is that boolean. *)
Definition np_absolute_bool (b : bool) : bool := b.

(** The lock-in branch of the automatic car; it writes [velocity] and
    [safe_distance] of [self]. *)
Definition lock_in (self : Vehicle) (v : Q) : result (Q * Vehicle) :=
  if np_absolute_bool (Qlt_bool (velocity self - v) 1) then
    let s1 := set_velocity v self in
    let s2 := if Qlt_bool 2 (safe_distance s1)
              then set_safe_distance (safe_distance s1 - 1) s1
              else s1 in
    Ok (0, s2)
  else
    q <- pydiv (v - velocity self) (velocity self + 0.001) ;;
    l2 <- need_attr (HV_L2 self) ;;
    Ok (Qmin (HV_AMAX self) (q * l2 * HV_AMAX self), self).

Definition AutomaticCar_calc_acceleration (self : Vehicle) (conf : Conf)
    (af vf df : option Q) : result (Q * Vehicle) :=
  match df with
  | None => a <- acceleration_zone self ;; Ok (a, self)
  | Some d =>
      if Qle_bool (HV_K1 self * safe_distance self) d then
        a <- acceleration_zone self ;; Ok (a, self)
      else if Qlt_bool d (HV_K1 self * safe_distance self)
              && Qlt_bool (HV_K2 self * safe_distance self) d then
        a <- adaptive_zone self vf ;; Ok (a, self)
      else
        c <- Ok (Qlt_bool d (HV_K2 self * safe_distance self))
             &&& (k3 <- need_attr (HV_K3 self) ;;
                  Ok (Qlt_bool (k3 * safe_distance self) d))
             &&& (v <- need vf ;;
                  Ok (Qlt_bool (Qabs (v - desired_velocity self)) 2)) ;;
        if c then v <- need vf ;; lock_in self v
        else a <- braking_zone self af vf d ;; Ok (a, self)
  end.

(** Method dispatch on the class of [self]. *)
Definition calc_acceleration (self : Vehicle) (conf : Conf)
    (af vf df : option Q) : result (Q * Vehicle) :=
  match cls self with
  | AutomaticCar => AutomaticCar_calc_acceleration self conf af vf df
  | _ => HumanVehicle_calc_acceleration self conf af vf df
  end.

(** The lane-change block of [HumanVehicle.update].  [p] is the draw of
    [np.random.rand()], [now] the clock read by the guard and [now'] the
    clock read when a change is recorded. *)
Definition lane_change (self : Vehicle) (conf : Conf) (p : Q) (now now' : Q)
    (p_right : Q) (p_left : pyval) (veh_lb veh_rb : option Vehicle)
    (dlf dlb drf drb : option Q) : result (Vehicle * list event) :=
  lim <- pydiv 5.0 (speedup conf) ;;
  if Qlt_bool lim (now - last_lane_change self) && Qlt_bool 3 (velocity self)
  then
    r <- Ok (Qlt_bool p p_right)
         &&& Ok (lane self + 1 <? nb_lanes conf)%Z
         &&& Ok (Qlt_bool (3 * safe_distance self) (position self))
         &&& (Ok (is_None drf)
              ||| (d <- need drf ;; Ok (Qlt_bool (safe_distance self) d)))
         &&& (Ok (is_None drb)
              ||| (d <- need drb ;; v <- need_vehicle veh_rb ;;
                   Ok (Qlt_bool (safe_distance v) d))) ;;
    if r then
      let s1 := set_lane (lane self + 1) self in
      Ok (set_last_lane_change now' s1, [NotifyLaneChange (lane s1 - 1)])
    else
      l <- lt_pyval p p_left
           &&& Ok (0 <? lane self)%Z
           &&& Ok (Qlt_bool (3 * safe_distance self) (position self))
           &&& (Ok (is_None dlf)
                ||| (d <- need dlf ;; Ok (Qlt_bool (safe_distance self) d)))
           &&& (Ok (is_None dlb)
                ||| (d <- need dlb ;; v <- need_vehicle veh_lb ;;
                     Ok (Qlt_bool (safe_distance v) d))) ;;
      if l then
        let s1 := set_lane (lane self - 1) self in
        Ok (set_last_lane_change now' s1, [NotifyLaneChange (lane s1 + 1)])
      else Ok (self, [])
  else Ok (self, []).

(** The lane animation block of [HumanVehicle.update]. *)
Definition animate (self : Vehicle) : Vehicle :=
  if Qlt_bool 0.1 (Qabs (animlane self - inject_Z (lane self))) then
    if Qlt_bool (animlane self) (inject_Z (lane self))
    then set_animlane (round1 (animlane self + 0.1)) self
    else set_animlane (round1 (animlane self - 0.1)) self
  else set_animlane (inject_Z (lane self)) self.

(** The vehicle after the first three steps of [HumanVehicle.update]: the
    base update, the velocity cap and the new safe distance. *)
Definition capped (conf : Conf) (container : Container) (dt : Q)
    (self : Vehicle) : Vehicle :=
  let s1 := fst (Vehicle_update conf container dt self) in
  let s2 := set_velocity (Qmin (desired_velocity s1) (velocity s1)) s1 in
  set_safe_distance
    (Qmax (extremely_safe_distance s2) (velocity s2 * safe_time s2)) s2.

Definition HumanVehicle_update (conf : Conf) (container : Container) (dt : Q)
    (p now now' : Q) (self : Vehicle) : result (Vehicle * list event) :=
  let ev1 := snd (Vehicle_update conf container dt self) in
  let self := capped conf container dt self in
  let veh_f := front container self in
  let af := option_map acceleration veh_f in
  let vf := option_map velocity veh_f in
  let df := option_map (fun v => position v - position self) veh_f in
  let veh_b := back container self in
  let db := option_map (fun v => position self - position v) veh_b in
  let veh_lf := left_front container self in
  let vlf := option_map velocity veh_lf in
  let dlf := option_map (fun v => position v - position self) veh_lf in
  let veh_lb := left_back container self in
  let vlb := option_map velocity veh_lb in
  let dlb := option_map (fun v => position self - position v) veh_lb in
  let veh_rf := right_front container self in
  let vrf := option_map velocity veh_rf in
  let drf := option_map (fun v => position v - position self) veh_rf in
  let veh_rb := right_back container self in
  let drb := option_map (fun v => position self - position v) veh_rb in
  let vrb := option_map velocity veh_rb in
  p_right <- prob_right self container conf df vf db vrf drf vrb drb ;;
  p_left <- prob_left self container conf af vf df dlf vlf dlb vlb ;;
  ' (self, ev2) <-
    lane_change self conf p now now' p_right p_left veh_lb veh_rb
      dlf dlb drf drb ;;
  let self := animate self in
  ' (acc, self) <- calc_acceleration self conf af vf df ;;
  Ok (set_acceleration (Qmin (HV_AMAX self) acc) self, ev1 ++ ev2).

(** [Car.update], [Truck.update] and [AutomaticCar.update] only call the
    inherited one. *)
Definition update := HumanVehicle_update.

(** ** Vehicles as the constructors make them *)

Definition between (lo x hi : Q) : Prop := lo <= x /\ x <= hi.

(** The constants and the ranges of the draws of each class. *)
Definition wf_profile (p : Profile) : Prop :=
  match cls p with
  | Car =>
      HV_K p == 1.4 /\ HV_K1 p == 3.0 /\ HV_K2 p == 1.8 /\ HV_A0 p == 1.0 /\
      between 1 (HV_L p) 20 /\ between 2.5 (HV_AMAX p) 4 /\
      HV_BRAKING p == 9.0 /\ length p == 4.0 /\
      between 2.5 (extremely_safe_distance p) 4 /\
      between 30.0 (desired_velocity p) 35.0 /\ safe_time p == 0.9 /\
      between 2.0 (epsilon p) 10.0
  | Truck =>
      HV_K p == 2.0 /\ HV_K1 p == 2.6 /\ HV_K2 p == 2.2 /\ HV_A0 p == 1.0 /\
      HV_L p == 1.0 /\ between 1 (HV_AMAX p) 2 /\
      HV_BRAKING p == 5.0 /\ length p == 15.0 /\
      between 8 (extremely_safe_distance p) 9 /\
      between 18.0 (desired_velocity p) 22.0 /\ safe_time p == 2.2 /\
      between 1.0 (epsilon p) 3.0
  | AutomaticCar =>
      HV_K p == 1.4 /\ HV_K1 p == 3.0 /\ HV_K2 p == 1.8 /\ HV_A0 p == 1.0 /\
      HV_L p == 10 /\ between 2.5 (HV_AMAX p) 4 /\
      HV_BRAKING p == 9.0 /\ length p == 4.0 /\
      extremely_safe_distance p == 4.0 /\
      between 30.0 (desired_velocity p) 35.0 /\ safe_time p == 0.9 /\
      between 2.0 (epsilon p) 10.0 /\
      (exists k3, HV_K3 p = Some k3 /\ k3 == 1.1) /\
      (exists l2, HV_L2 p = Some l2 /\ l2 == 50)
  end.

(** * Event handlers (src/sim_event_handler.py)

    A handler is called by the simulation at six moments.  Each class
    overrides some of the methods of [SimEventHandler], whose own methods do
    nothing.  [enabled] is the class attribute, [True] unless it is set. *)

Inductive hook : Type :=
| BeforeTimeStep (dt sim_time : Q)
| AfterTimeStep (dt sim_time : Q)
| BeforeVehicleUpdate (dt : Q) (vehicle : Vehicle)
| AfterVehicleUpdate (dt : Q) (vehicle : Vehicle)
| AfterVehicleSpawn (vehicle : Vehicle) (sim_time : Q)
| BeforeVehicleDespawn (vehicle : Vehicle) (sim_time : Q).

Module SlowZoneEvHandler.

Record t : Type := mk {
  enabled : bool;
  _start : Q;
  _stop : Q;
  _max_velocity : Q;
  _acc : Q;
  simTimeList : list Q;
  enableList : list Z
}.

Definition __init__ (start stop max_velocity : Q) : t :=
  mk true start stop max_velocity (-3) [] [].

(** The method writes the vehicle, not the handler. *)
Definition after_vehicle_update (self : t) (dt : Q) (vehicle : Vehicle)
    : Vehicle :=
  if enabled self && Qlt_bool (_start self) (position vehicle)
     && Qlt_bool (position vehicle) (_stop self)
  then
    if Qlt_bool (_max_velocity self) (velocity vehicle)
       && Qlt_bool (_acc self) (acceleration vehicle)
    then set_acceleration (_acc self) vehicle
    else vehicle
  else vehicle.

Definition after_time_step (self : t) (dt sim_time : Q) : t :=
  mk (enabled self) (_start self) (_stop self) (_max_velocity self)
    (_acc self) (simTimeList self ++ [sim_time])
    (enableList self ++ [if enabled self then 1%Z else 0%Z]).

(** The handler after one call of the simulation. *)
Definition handle (self : t) (h : hook) : t :=
  match h with
  | AfterTimeStep dt sim_time => after_time_step self dt sim_time
  | _ => self
  end.

End SlowZoneEvHandler.

Module AverageSpeedHandler.

Record t : Type := mk {
  averageSpeed : Q;
  numberOfVehicles : Z;
  averageSpeedList : list Q;
  simTimeList : list Q;
  updatecount : Z
}.

Definition __init__ : t := mk 0 0 [] [] 0.

Definition after_vehicle_update (self : t) (dt : Q) (vehicle : Vehicle) : t :=
  mk (averageSpeed self + velocity vehicle) (numberOfVehicles self + 1)
    (averageSpeedList self) (simTimeList self) (updatecount self).

Definition after_time_step (self : t) (dt sim_time : Q) : result t :=
  let updatecount1 := (updatecount self + 1)%Z in
  if (1 <? updatecount1)%Z then
    if (0 <? numberOfVehicles self)%Z then
      q <- pydiv (averageSpeed self) (inject_Z (numberOfVehicles self)) ;;
      Ok (mk 0 0 (averageSpeedList self ++ [q])
            (simTimeList self ++ [sim_time]) 0)
    else
      Ok (mk (averageSpeed self) (numberOfVehicles self)
            (averageSpeedList self) (simTimeList self) 0)
  else
    Ok (mk (averageSpeed self) (numberOfVehicles self)
          (averageSpeedList self) (simTimeList self) updatecount1).

Definition handle (self : t) (h : hook) : result t :=
  match h with
  | AfterVehicleUpdate dt vehicle => Ok (after_vehicle_update self dt vehicle)
  | AfterTimeStep dt sim_time => after_time_step self dt sim_time
  | _ => Ok self
  end.

End AverageSpeedHandler.

Module ThroughPutHandler.

Record t : Type := mk {
  nb_vehicles : Z;
  nb_vehicles_list : list Z;
  interval : Q;
  max_time : Q
}.

Definition __init__ : t := mk 0 [] 15 0.

Definition before_vehicle_despawn (self : t) (vehicle : Vehicle)
    (sim_time : Q) : t :=
  mk (nb_vehicles self + 1) (nb_vehicles_list self) (interval self)
    (max_time self).

(** [sim_time // self.interval] is the floor of the quotient. *)
Definition after_time_step (self : t) (dt sim_time : Q) : result t :=
  q <- pydiv sim_time (interval self) ;;
  if (Z.of_nat (List.length (nb_vehicles_list self)) <? Qfloor q)%Z then
    Ok (mk 0 (nb_vehicles_list self ++ [nb_vehicles self]) (interval self)
          sim_time)
  else Ok self.

Definition handle (self : t) (h : hook) : result t :=
  match h with
  | BeforeVehicleDespawn vehicle sim_time =>
      Ok (before_vehicle_despawn self vehicle sim_time)
  | AfterTimeStep dt sim_time => after_time_step self dt sim_time
  | _ => Ok self
  end.

End ThroughPutHandler.

Module VehicleCountHandler.

Record t : Type := mk {
  count : Z;
  counts : list Z;
  max_time : Q
}.

Definition __init__ : t := mk 0 [] 0.

Definition before_vehicle_update (self : t) (dt : Q) (vehicle : Vehicle) : t :=
  mk (count self + 1) (counts self) (max_time self).

Definition after_time_step (self : t) (dt sim_time : Q) : t :=
  mk 0 (counts self ++ [count self]) sim_time.

Definition handle (self : t) (h : hook) : t :=
  match h with
  | BeforeVehicleUpdate dt vehicle => before_vehicle_update self dt vehicle
  | AfterTimeStep dt sim_time => after_time_step self dt sim_time
  | _ => self
  end.

End VehicleCountHandler.

Module TravelTimeHandler.

(** [self.dict] maps a vehicle to the pair (spawn time, travel time).  The
    class [Vehicle] defines neither [__eq__] nor [__hash__], so the key is
    the identity of the vehicle object, here a number.  A Python dict keeps
    its keys in the order of their first insertion, which is the order the
    loop of [plot] visits them in: the dict is a list of entries. *)
Definition t : Type := list (nat * (Q * Q)).

(** [self.dict[vehicle]]; [None] stands for the [KeyError]. *)
Fixpoint getitem (d : t) (vehicle : nat) : option (Q * Q) :=
  match d with
  | [] => None
  | (k, p) :: d' => if Nat.eqb vehicle k then Some p else getitem d' vehicle
  end.

(** [self.dict[vehicle] = p]: a known key keeps its place. *)
Fixpoint setitem (d : t) (vehicle : nat) (p : Q * Q) : t :=
  match d with
  | [] => [(vehicle, p)]
  | (k, p') :: d' =>
      if Nat.eqb vehicle k then (k, p) :: d'
      else (k, p') :: setitem d' vehicle p
  end.

(** What a method call leaves: the handler, or a [KeyError]. *)
Inductive outcome : Type :=
| Done (self : t)
| KeyError.

Definition __init__ : t := [].

Definition after_vehicle_spawn (self : t) (vehicle : nat) (sim_time : Q) : t :=
  setitem self vehicle (sim_time, 0).

Definition before_vehicle_despawn (self : t) (vehicle : nat) (sim_time : Q)
    : outcome :=
  match getitem self vehicle with
  | None => KeyError
  | Some p => Done (setitem self vehicle (fst p, sim_time - fst p))
  end.

(** The loop of [plot] that fills [times] and [travel_times]. *)
Fixpoint plot_lists (self : t) : list Q * list Q :=
  match self with
  | [] => ([], [])
  | (k, p) :: d' =>
      let (times, travel_times) := plot_lists d' in
      if negb (Qeq_bool (snd p) 0)
      then (fst p :: times, snd p :: travel_times)
      else (times, travel_times)
  end.

(** The two calls the simulation makes on this handler. *)
Inductive call : Type :=
| Spawn (vehicle : nat) (sim_time : Q)
| Despawn (vehicle : nat) (sim_time : Q).

Definition vehicle_of (c : call) : nat :=
  match c with
  | Spawn vehicle _ => vehicle
  | Despawn vehicle _ => vehicle
  end.

Definition handle (self : t) (c : call) : outcome :=
  match c with
  | Spawn vehicle sim_time => Done (after_vehicle_spawn self vehicle sim_time)
  | Despawn vehicle sim_time => before_vehicle_despawn self vehicle sim_time
  end.

Fixpoint calls (self : t) (cs : list call) : outcome :=
  match cs with
  | [] => Done self
  | c :: cs' =>
      match handle self c with
      | Done self' => calls self' cs'
      | KeyError => KeyError
      end
  end.

End TravelTimeHandler.

(** A run of hooks through a handler whose methods may raise. *)
Fixpoint run {T : Type} (handle : T -> hook -> result T) (self : T)
    (hs : list hook) : result T :=
  match hs with
  | [] => Ok self
  | h :: hs' => s' <- handle self h ;; run handle s' hs'
  end.

(** * Notions used by the statements *)

(** ** Predicates and derived states *)

(** The computation [c] ends without raising. *)
Definition returns {A : Type} (c : result A) : Prop := exists a, c = Ok a.

(** [frame s s']: [s'] differs from [s] at most in [velocity] and
    [safe_distance]. *)
Definition frame (s s' : Vehicle) : Prop :=
  prof s' = prof s /\ lane s' = lane s /\ position s' = position s /\
  acceleration s' = acceleration s /\ emergency s' = emergency s /\
  animlane s' = animlane s /\ last_lane_change s' = last_lane_change s.

(** The state written by the emergency speed change. *)
Definition corrected (conf : Conf) (f self : Vehicle) : Vehicle :=
  set_emergency (fps conf)
    (set_position (position f - extremely_safe_distance self)
       (set_acceleration (acceleration f) (set_velocity (velocity f) self))).

(** The state written otherwise. *)
Definition integrated (dt : Q) (self : Vehicle) : Vehicle :=
  set_emergency (Z.max 0 (emergency self - 1))
    (set_velocity (new_velocity dt self)
       (set_position (new_position dt self) self)).

(** The guard of the emergency speed change. *)
Definition too_close (dt : Q) (f self : Vehicle) : Prop :=
  Qabs (position f - new_position dt self) < 0.99 * extremely_safe_distance self.

(** The state written by the first branch of the lock-in zone. *)
Definition snapped (self : Vehicle) (v : Q) : Vehicle :=
  let s1 := set_velocity v self in
  if Qlt_bool 2 (safe_distance s1)
  then set_safe_distance (safe_distance s1 - 1) s1
  else s1.

(** The condition of the lock-in zone, reached after the first two zones
    were refused. *)
Definition in_lock_in (self : Vehicle) (d v : Q) : Prop :=
  d < HV_K2 self * safe_distance self /\
  (exists k3, HV_K3 self = Some k3 /\ k3 * safe_distance self < d) /\
  Qabs (v - desired_velocity self) < 2.

(** Every vehicle a neighbour query can return drives forward or stands. *)
Definition neighbours_nonneg (container : Container) : Prop :=
  forall q n,
    front container q = Some n \/ back container q = Some n \/
    left_front container q = Some n \/ left_back container q = Some n \/
    right_front container q = Some n \/ right_back container q = Some n ->
    0 <= velocity n.

(** [relane l a t s]: [s] with lane, animation lane and time of the last
    lane change replaced. *)
Definition relane (l : Z) (a t : Q) (s : Vehicle) : Vehicle :=
  set_animlane a (set_last_lane_change t (set_lane l s)).

(** The update without its lane-change block: what a successful update
    writes into every field but [lane], [animlane] and
    [last_lane_change]. *)
Definition clockless (conf : Conf) (container : Container) (dt : Q)
    (s : Vehicle) : result Vehicle :=
  let c := capped conf container dt s in
  let veh_f := front container c in
  ' (acc, k) <- calc_acceleration c conf (option_map acceleration veh_f)
                  (option_map velocity veh_f)
                  (option_map (fun v => position v - position c) veh_f) ;;
  Ok (set_acceleration (Qmin (HV_AMAX k) acc) k).

(** The lane-change part of [HumanVehicle.update], run on the capped
    vehicle [c]: the two probabilities, then the lane-change block. *)
Definition lane_stage (conf : Conf) (container : Container) (p now now' : Q)
    (c : Vehicle) : result (Vehicle * list event) :=
  let veh_f := front container c in
  let af := option_map acceleration veh_f in
  let vf := option_map velocity veh_f in
  let df := option_map (fun v => position v - position c) veh_f in
  let veh_b := back container c in
  let db := option_map (fun v => position c - position v) veh_b in
  let veh_lf := left_front container c in
  let vlf := option_map velocity veh_lf in
  let dlf := option_map (fun v => position v - position c) veh_lf in
  let veh_lb := left_back container c in
  let vlb := option_map velocity veh_lb in
  let dlb := option_map (fun v => position c - position v) veh_lb in
  let veh_rf := right_front container c in
  let vrf := option_map velocity veh_rf in
  let drf := option_map (fun v => position v - position c) veh_rf in
  let veh_rb := right_back container c in
  let drb := option_map (fun v => position c - position v) veh_rb in
  let vrb := option_map velocity veh_rb in
  p_right <- prob_right c container conf df vf db vrf drf vrb drb ;;
  p_left <- prob_left c container conf af vf df dlf vlf dlb vlb ;;
  lane_change c conf p now now' p_right p_left veh_lb veh_rb dlf dlb drf drb.

(** The event is a lane-change notification. *)
Definition is_notify (e : event) : bool :=
  match e with
  | NotifyLaneChange _ => true
  | _ => false
  end.

(** The number of lane changes an update reports to the container. *)
Definition lane_changes (ev : list event) : nat :=
  List.length (filter is_notify ev).

(** The two guards of the left branch on the neighbours of the left lane. *)
Definition left_front_clear (self : Vehicle) (dlf : option Q) : Prop :=
  match dlf with
  | None => True
  | Some d => safe_distance self < d
  end.

Definition left_back_clear (veh_lb : option Vehicle) (dlb : option Q) : Prop :=
  match dlb, veh_lb with
  | None, _ => True
  | Some d, Some v => safe_distance v < d
  | Some _, None => False
  end.

(** ** Concrete vehicles *)

(** Three lanes, 30 ticks per second, real-time pace, no sound. *)
Definition conf30 : Conf := mkConf 3 30 1 false.

(** No neighbour at all. *)
Definition free_road : Container := snapshot None None None None None None.

(** A newly built car of the fast class with desired velocity 32 and
    epsilon 5; its safe distance is 4. *)
Definition car_sd4 : Vehicle := Car_init 0 0 1 2.5 4 32 5 "car" 0.

(** A car of the fast class standing at position 5. *)
Definition parked_at_5 : Vehicle := Car_init 0 5 1 2.5 4 32 5 "car" 0.

(** A car of the fast class at position 0 driving at 20 m/s. *)
Definition driving_20 : Vehicle :=
  set_velocity 20 (Car_init 0 0 1 2.5 4 32 5 "car" 0).

Definition behind_parked : Container :=
  snapshot (Some parked_at_5) None None None None None.

(** A car at position 0 driving at 30 m/s and the car ahead of it, one
    extremely safe distance away. *)
Definition fast_car : Vehicle :=
  set_velocity 30 (Car_init 0 0 1 2.5 (5 # 2) 32 5 "car" 0).

Definition car_ahead : Vehicle :=
  set_velocity 30 (Car_init 0 (5 # 2) 1 2.5 (5 # 2) 32 5 "car" 0).

Definition behind_car_ahead : Container :=
  snapshot (Some car_ahead) None None None None None.

(** An automatic car after the cap of its update, at 30 m/s with safe
    distance 27, and a front vehicle 40 m ahead at the same speed. *)
Definition platoon_car : Vehicle :=
  set_safe_distance 27
    (set_velocity 30 (AutomaticCar_init 0 0 3 30 5 "tesla" 0)).

(** A newly built automatic car and a car 5 m ahead of it driving at
    30 m/s, the automatic car's desired velocity. *)
Definition new_automatic : Vehicle := AutomaticCar_init 0 0 3 30 5 "tesla" 0.

Definition lead_30 : Vehicle :=
  set_velocity 30 (Car_init 0 5 1 2.5 4 30 5 "car" 0).

Definition behind_lead_30 : Container :=
  snapshot (Some lead_30) None None None None None.

(** A fast car alone on the road, in lane 0 at position 200, driving at
    30 m/s; its last lane change is stamped 0. *)
Definition cruising : Vehicle :=
  set_position 200 (set_velocity 30 (Car_init 0 0 1 2.5 4 32 5 "car" 0)).

(** A fast car 1 s after its last lane change, at 30 m/s. *)
Definition just_changed : Vehicle := set_last_lane_change 99 cruising.

(** A fast car in the rightmost of three lanes, at position 200, driving
    at 20 m/s. *)
Definition tailgater_before : Vehicle :=
  set_position 200 (set_velocity 20 (Car_init 2 0 1 2.5 4 32 5 "car" 0)).

(** That car as its update has it after the velocity cap, at position 202
    with safe distance 18, 10 m behind a car driving at the same speed;
    nobody in the lane to its left. *)
Definition tailgater : Vehicle :=
  set_safe_distance 18
    (set_position 202 (set_velocity 20 (Car_init 2 0 1 2.5 4 32 5 "car" 0))).

Definition slow_lead : Vehicle :=
  set_velocity 20 (Car_init 2 212 1 2.5 4 32 5 "car" 0).

Definition behind_slow_lead : Container :=
  snapshot (Some slow_lead) None None None None None.

(** An automatic car at 32 m/s, its desired velocity, with safe distance
    28.8, closing in on a front vehicle 40 m ahead that drives at 30.5. *)
Definition closing_platoon_car : Vehicle :=
  set_safe_distance 28.8
    (set_velocity 32 (AutomaticCar_init 0 0 3 32 5 "tesla" 0)).

(** A fast car at position 200 driving at its desired velocity 32. *)
Definition at_desired_velocity : Vehicle :=
  set_position 200 (set_velocity 32 (Car_init 0 0 1 2.5 4 32 5 "car" 0)).

(** The front vehicle is not slowing down harder than the vehicle: its
    acceleration is absent, zero, or at least the vehicle's. *)
Definition front_not_braking_harder (self : Vehicle) (af : option Q) : Prop :=
  forall a, af = Some a -> a == 0 \/ acceleration self <= a.

(** The simulated times of the [after_time_step] calls of a run. *)
Definition step_times (hs : list hook) : list Q :=
  flat_map (fun h => match h with
                     | AfterTimeStep _ sim_time => [sim_time]
                     | _ => []
                     end) hs.

(** The vehicles of the [before_vehicle_update] calls of a run. *)
Definition updates_begun (hs : list hook) : list Vehicle :=
  flat_map (fun h => match h with
                     | BeforeVehicleUpdate _ v => [v]
                     | _ => []
                     end) hs.

(** The vehicles of the [before_vehicle_despawn] calls of a run. *)
Definition despawned (hs : list hook) : list Vehicle :=
  flat_map (fun h => match h with
                     | BeforeVehicleDespawn v _ => [v]
                     | _ => []
                     end) hs.

(** The sum of a list of integers. *)
Definition Zsum (l : list Z) : Z := fold_right Z.add 0%Z l.

(** The sum of the velocities of a list of vehicles. *)
Definition velocity_sum (vs : list Vehicle) : Q :=
  fold_right (fun v acc => velocity v + acc) 0 vs.

(** * Properties *)

(** ** Comparisons, maximum, minimum *)

Lemma Qlt_bool_true (x y : Q) : Qlt_bool x y = true <-> x < y.
Proof.
  unfold Qlt_bool. rewrite negb_true_iff. split; intro H.
  - apply Qnot_le_lt. intro C. apply Qle_bool_iff in C. congruence.
  - destruct (Qle_bool y x) eqn:E; [|reflexivity].
    apply Qle_bool_iff in E. exfalso. apply (Qlt_not_le _ _ H E).
Qed.

Lemma Qlt_bool_false (x y : Q) : Qlt_bool x y = false <-> y <= x.
Proof.
  unfold Qlt_bool. rewrite negb_false_iff. apply Qle_bool_iff.
Qed.

Lemma Qle_bool_false (x y : Q) : Qle_bool x y = false <-> y < x.
Proof.
  rewrite <- Qlt_bool_true. unfold Qlt_bool.
  destruct (Qle_bool x y); simpl; split; congruence.
Qed.

Lemma Qeq_bool_false (x y : Q) : Qeq_bool x y = false <-> ~ x == y.
Proof.
  split.
  - apply Qeq_bool_neq.
  - intro H. destruct (Qeq_bool x y) eqn:E; [|reflexivity].
    apply Qeq_bool_iff in E. contradiction.
Qed.

Lemma Qmax_cases (x y : Q) :
  (x < y /\ Qmax x y = y) \/ (y <= x /\ Qmax x y = x).
Proof.
  unfold Qmax, GenericMinMax.gmax.
  destruct (Qcompare_spec x y) as [E|E|E]; [right|left|right]; split;
    try reflexivity; lra.
Qed.

Lemma Qmin_cases (x y : Q) :
  (y < x /\ Qmin x y = y) \/ (x <= y /\ Qmin x y = x).
Proof.
  unfold Qmin, GenericMinMax.gmin.
  destruct (Qcompare_spec x y) as [E|E|E]; [right|right|left]; split;
    try reflexivity; lra.
Qed.

Lemma Qabs_cases (x : Q) :
  (0 <= x /\ Qabs x == x) \/ (x < 0 /\ Qabs x == - x).
Proof.
  destruct (Qlt_le_dec x 0) as [H|H].
  - right. split; [assumption|]. apply Qabs_neg. lra.
  - left. split; [assumption|]. apply Qabs_pos. assumption.
Qed.

(** Moves a boolean comparison of the context into its proposition. *)
Ltac qbool :=
  repeat match goal with
  | H : Qlt_bool _ _ = true |- _ => apply Qlt_bool_true in H
  | H : Qlt_bool _ _ = false |- _ => apply Qlt_bool_false in H
  | H : Qle_bool _ _ = true |- _ => apply Qle_bool_iff in H
  | H : Qle_bool _ _ = false |- _ => apply Qle_bool_false in H
  | H : Qeq_bool _ _ = true |- _ => apply Qeq_bool_iff in H
  | H : Qeq_bool _ _ = false |- _ => apply Qeq_bool_false in H
  end.

(** ** The error monad *)

Lemma bind_Ok {A B : Type} (c : result A) (k : A -> result B) (b : B) :
  bind c k = Ok b -> exists a, c = Ok a /\ k a = Ok b.
Proof.
  destruct c as [a|e]; simpl; intro H; [eauto | discriminate].
Qed.

Lemma andM_true (a b : result bool) :
  a &&& b = Ok true -> a = Ok true /\ b = Ok true.
Proof.
  destruct a as [[|]|e]; simpl; intro H; auto; discriminate.
Qed.

Lemma orM_false (a b : result bool) :
  a ||| b = Ok false -> a = Ok false /\ b = Ok false.
Proof.
  destruct a as [[|]|e]; simpl; intro H; auto; discriminate.
Qed.

(** ** What each step leaves unchanged *)

Lemma frame_refl (s : Vehicle) : frame s s.
Proof. repeat split. Qed.

(** Splits a successful [bind] of the context. *)
Tactic Notation "inv_bind" hyp(H) "as" simple_intropattern(a) ident(Ha) :=
  apply bind_Ok in H; destruct H as (a & Ha & H); cbv beta iota in H.

Lemma HumanVehicle_calc_acceleration_self self conf af vf df a s' :
  HumanVehicle_calc_acceleration self conf af vf df = Ok (a, s') -> s' = self.
Proof.
  unfold HumanVehicle_calc_acceleration. intro H.
  destruct df as [d|].
  - destruct (Qle_bool _ d); [|destruct (_ && _)];
      inv_bind H as x Hx; congruence.
  - inv_bind H as x Hx. congruence.
Qed.

Lemma AutomaticCar_calc_acceleration_cases self conf af vf df a s' :
  AutomaticCar_calc_acceleration self conf af vf df = Ok (a, s') ->
  s' = self \/
  (exists d v, df = Some d /\ vf = Some v /\
     d < HV_K1 self * safe_distance self /\ in_lock_in self d v /\
     velocity self - v < 1 /\ a = 0 /\ s' = snapped self v).
Proof.
  unfold AutomaticCar_calc_acceleration. intro H.
  destruct df as [d|]; [|inv_bind H as x Hx; left; congruence].
  destruct (Qle_bool _ d) eqn:E1; [inv_bind H as x Hx; left; congruence|].
  destruct (_ && _) eqn:E2; [inv_bind H as x Hx; left; congruence|].
  inv_bind H as c Hc. destruct c; [|inv_bind H as x Hx; left; congruence].
  inv_bind H as v' Hv'. destruct vf as [v|]; [|discriminate].
  cbv [need] in Hv'. injection Hv' as <-.
  apply andM_true in Hc as [Hc Hv]. apply andM_true in Hc as [Hd Hk].
  cbv [need bind] in Hv. injection Hv as Hv. injection Hd as Hd.
  destruct (HV_K3 self) as [k3|] eqn:E3; [|discriminate].
  cbv [need_attr bind] in Hk. injection Hk as Hk.
  unfold lock_in, np_absolute_bool in H.
  destruct (Qlt_bool (velocity self - v) 1) eqn:E4.
  - right. exists d, v. injection H as <- <-. qbool.
    repeat split; try assumption; try reflexivity.
    exists k3. split; assumption.
  - left. inv_bind H as q Hq. inv_bind H as l2 Hl2. congruence.
Qed.

Lemma snapped_frame self v : frame self (snapped self v).
Proof.
  unfold snapped. destruct (Qlt_bool _ _); repeat split.
Qed.

Lemma calc_acceleration_frame self conf af vf df a s' :
  calc_acceleration self conf af vf df = Ok (a, s') -> frame self s'.
Proof.
  unfold calc_acceleration. intro H.
  destruct (cls self).
  - apply HumanVehicle_calc_acceleration_self in H. subst. apply frame_refl.
  - apply HumanVehicle_calc_acceleration_self in H. subst. apply frame_refl.
  - apply AutomaticCar_calc_acceleration_cases in H
      as [->|(d & v & _ & _ & _ & _ & _ & _ & ->)].
    + apply frame_refl.
    + apply snapped_frame.
Qed.

(** The lane-change block writes [lane] and [last_lane_change] only, and
    moves by at most one lane. *)
Lemma lane_change_cases self conf p now now' pr pl vlb vrb dlf dlb drf drb s' ev :
  lane_change self conf p now now' pr pl vlb vrb dlf dlb drf drb = Ok (s', ev) ->
  (s' = self /\ ev = []) \/
  (exists lim, pydiv 5.0 (speedup conf) = Ok lim /\
     lim < now - last_lane_change self /\ 3 < velocity self /\
     ((s' = set_last_lane_change now' (set_lane (lane self + 1) self) /\
       ev = [NotifyLaneChange (lane self)] /\
       p < pr /\ (lane self + 1 < nb_lanes conf)%Z) \/
      (s' = set_last_lane_change now' (set_lane (lane self - 1) self) /\
       ev = [NotifyLaneChange (lane self)] /\
       lt_pyval p pl = Ok true /\ (0 < lane self)%Z))).
Proof.
  unfold lane_change. intro H. inv_bind H as lim Hlim.
  destruct (_ && _) eqn:G; [|left; split; congruence].
  apply andb_true_iff in G as [G1 G2]. qbool.
  inv_bind H as r Hr. destruct r.
  - right. exists lim. repeat split; try assumption. left.
    injection H as <- <-.
    apply andM_true in Hr as [Hr _]. apply andM_true in Hr as [Hr _].
    apply andM_true in Hr as [Hr _]. apply andM_true in Hr as [Hp Hl].
    injection Hp as Hp. injection Hl as Hl. qbool. apply Z.ltb_lt in Hl.
    repeat split; try assumption. simpl. do 2 f_equal. lia.
  - inv_bind H as l Hl. destruct l.
    + right. exists lim. repeat split; try assumption. right.
      injection H as <- <-.
      apply andM_true in Hl as [Hl _]. apply andM_true in Hl as [Hl _].
      apply andM_true in Hl as [Hl _]. apply andM_true in Hl as [Hp Hl].
      injection Hl as Hl. apply Z.ltb_lt in Hl.
      repeat split; try assumption. simpl. do 2 f_equal. lia.
    + left. split; congruence.
Qed.

Lemma animate_frame (s : Vehicle) :
  prof (animate s) = prof s /\ lane (animate s) = lane s /\
  position (animate s) = position s /\ velocity (animate s) = velocity s /\
  acceleration (animate s) = acceleration s /\
  emergency (animate s) = emergency s /\
  safe_distance (animate s) = safe_distance s /\
  last_lane_change (animate s) = last_lane_change s.
Proof.
  unfold animate.
  destruct (Qlt_bool 0.1 _); [destruct (Qlt_bool (animlane s) _)|];
    repeat split.
Qed.

(** Reads a field out of a state written by the setters. *)
Ltac fields :=
  cbn [prof lane position velocity acceleration emergency safe_distance
       animlane last_lane_change set_lane set_position set_velocity
       set_acceleration set_emergency set_safe_distance set_animlane
       set_last_lane_change fst snd] in *.

Ltac goal_fields :=
  cbn [prof lane position velocity acceleration emergency safe_distance
       animlane last_lane_change set_lane set_position set_velocity
       set_acceleration set_emergency set_safe_distance set_animlane
       set_last_lane_change fst snd].

(** ** The two outcomes of [Vehicle.update] *)

Lemma Vehicle_update_cases conf container dt self :
  (exists f, front container self = Some f /\ too_close dt f self /\
     Vehicle_update conf container dt self =
       (corrected conf f self,
        Warning (cls self) :: (if sound conf then [Scream] else []))) \/
  ((forall f, front container self = Some f -> ~ too_close dt f self) /\
   Vehicle_update conf container dt self = (integrated dt self, [])).
Proof.
  unfold Vehicle_update, too_close.
  destruct (front container self) as [f|].
  - destruct (Qlt_bool _ _) eqn:E; qbool.
    + left. exists f. repeat split. assumption.
    + right. split; [|reflexivity].
      intros f' Hf. injection Hf as <-. lra.
  - right. split; [|reflexivity]. intros f Hf. discriminate.
Qed.

Lemma Vehicle_update_prof conf container dt self :
  prof (fst (Vehicle_update conf container dt self)) = prof self.
Proof.
  destruct (Vehicle_update_cases conf container dt self)
    as [(f & _ & _ & ->)|[_ ->]]; reflexivity.
Qed.

(** ** The parts of a successful [update] *)

Lemma update_inv conf container dt p now now' s s' ev :
  update conf container dt p now now' s = Ok (s', ev) ->
  let c := capped conf container dt s in
  let veh_f := front container c in
  exists pr pl vlb vrb dlf dlb drf drb s4 ev2 acc s6,
    lane_change c conf p now now' pr pl vlb vrb dlf dlb drf drb = Ok (s4, ev2) /\
    calc_acceleration (animate s4) conf (option_map acceleration veh_f)
      (option_map velocity veh_f)
      (option_map (fun v => position v - position c) veh_f) = Ok (acc, s6) /\
    s' = set_acceleration (Qmin (HV_AMAX s6) acc) s6 /\
    ev = snd (Vehicle_update conf container dt s) ++ ev2.
Proof.
  intros H c veh_f. unfold update, HumanVehicle_update in H.
  inv_bind H as pr Hpr. inv_bind H as pl Hpl.
  inv_bind H as [s4 ev2] Hlc. inv_bind H as [acc s6] Hca.
  injection H as <- <-.
  repeat eexists; eassumption.
Qed.

Lemma capped_frame conf container dt s :
  let s1 := fst (Vehicle_update conf container dt s) in
  let c := capped conf container dt s in
  prof c = prof s /\ lane c = lane s1 /\ position c = position s1 /\
  emergency c = emergency s1 /\
  velocity c = Qmin (desired_velocity s) (velocity s1) /\
  safe_distance c =
    Qmax (extremely_safe_distance s) (velocity c * safe_time s) /\
  last_lane_change c = last_lane_change s /\ lane s1 = lane s.
Proof.
  unfold capped.
  destruct (Vehicle_update_cases conf container dt s)
    as [(f & _ & _ & ->)|[_ ->]]; repeat split.
Qed.

(** A successful update keeps the profile, leaves the position and the
    emergency countdown as [Vehicle.update] wrote them, and moves by at most
    one lane. *)
Lemma update_frame conf container dt p now now' s s' ev :
  update conf container dt p now now' s = Ok (s', ev) ->
  let s1 := fst (Vehicle_update conf container dt s) in
  prof s' = prof s /\ position s' = position s1 /\
  emergency s' = emergency s1.
Proof.
  intros H s1.
  apply update_inv in H
    as (pr & pl & vlb & vrb & dlf & dlb & drf & drb & s4 & ev2 & acc & s6
        & Hlc & Hca & -> & _).
  apply calc_acceleration_frame in Hca
    as (Hp & _ & Hpos & _ & Hem & _ & _).
  destruct (animate_frame s4) as (Ap & _ & Apos & _ & _ & Aem & _ & _).
  destruct (capped_frame conf container dt s)
    as (Cp & _ & Cpos & Cem & _ & _ & _ & _).
  assert (L : prof s4 = prof (capped conf container dt s) /\
              position s4 = position (capped conf container dt s) /\
              emergency s4 = emergency (capped conf container dt s)).
  { apply lane_change_cases in Hlc
      as [[-> _]|(lim & _ & _ & _ & [(-> & _)|(-> & _)])];
      repeat split. }
  destruct L as (Lp & Lpos & Lem).
  subst s1. simpl. repeat split; congruence.
Qed.

(** ** The emergency speed change *)

(** What [Vehicle.update] alone writes when the front neighbour exists and
    [|front.position - new_position| < 0.99 * extremely_safe_distance]:
    velocity and acceleration equal to the front vehicle's, the position at
    [front.position - extremely_safe_distance] and the countdown at [fps];
    with the front standing at position 5 and the vehicle at position 0
    with extremely safe distance 4 this is position 1, velocity 0 and
    countdown [fps]. *)
Lemma Vehicle_update_emergency_correction conf container dt self f :
  front container self = Some f ->
  Qabs (position f - new_position dt self)
    < 0.99 * extremely_safe_distance self ->
  let s' := fst (Vehicle_update conf container dt self) in
  (velocity s' = velocity f /\ acceleration s' = acceleration f /\
   position s' = position f - extremely_safe_distance self /\
   emergency s' = fps conf) /\
  (position f == 5 -> velocity f == 0 -> position self == 0 ->
   extremely_safe_distance self == 4 ->
   position s' == 1.0 /\ velocity s' == 0 /\ emergency s' = fps conf).
Proof.
  intros Hf Hclose s'. subst s'.
  destruct (Vehicle_update_cases conf container dt self)
    as [(f' & Hf' & _ & ->)|[Hno _]].
  - rewrite Hf in Hf'. injection Hf' as <-. simpl.
    split; [repeat split|].
    intros Hp Hv _ He. repeat split; [lra | assumption].
  - exfalso. apply (Hno f Hf). exact Hclose.
Qed.

(** The subclass update keeps the corrected position and the countdown; the
    velocity is then capped and the acceleration computed anew. *)
Lemma update_after_correction conf container dt p now now' self f s' ev :
  front container self = Some f ->
  too_close dt f self ->
  update conf container dt p now now' self = Ok (s', ev) ->
  position s' = position f - extremely_safe_distance self /\
  emergency s' = fps conf.
Proof.
  intros Hf Hclose H.
  apply update_frame in H as (_ & -> & ->).
  destruct (Vehicle_update_cases conf container dt self)
    as [(f' & Hf' & _ & ->)|[Hno _]].
  - rewrite Hf in Hf'. injection Hf' as <-. split; reflexivity.
  - exfalso. apply (Hno f Hf). exact Hclose.
Qed.

(** ** The gap to the front vehicle *)

(** C1, as stated, fails: with a step of 0.2 s the car at 30 m/s is
    projected 3.5 m past the vehicle 2.5 m ahead; the distance 3.5 is not
    below [0.99 * 2.5], no correction is made, and the gap after the update
    is -3.5. *)
Lemma C1_counterexample :
  front behind_car_ahead fast_car = Some car_ahead /\
  exists s' ev,
    update conf30 behind_car_ahead 0.2 0.5 100 100 fast_car = Ok (s', ev) /\
    position car_ahead - position s' == - (7 # 2) /\
    ~ 0.99 * extremely_safe_distance s' <= position car_ahead - position s'.
Proof.
  split; [reflexivity|].
  eexists. eexists. split; [vm_compute; reflexivity|].
  split; [reflexivity|]. vm_compute. intro H. apply H. reflexivity.
Qed.

(** C1, amended: after an update that returns, the distance to the front
    vehicle, in absolute value, is at least [0.99 * extremely_safe_distance];
    the gap itself is when the projected position does not pass the front
    vehicle. *)
Theorem C1_gap_after_update conf container dt p now now' s f s' ev :
  front container s = Some f ->
  0 <= extremely_safe_distance s ->
  update conf container dt p now now' s = Ok (s', ev) ->
  0.99 * extremely_safe_distance s' <= Qabs (position f - position s') /\
  (new_position dt s <= position f ->
   0.99 * extremely_safe_distance s' <= position f - position s').
Proof.
  intros Hf He H.
  apply update_frame in H as (-> & -> & _).
  destruct (Vehicle_update_cases conf container dt s)
    as [(f' & Hf' & _ & ->)|[Hno ->]].
  - rewrite Hf in Hf'. injection Hf' as <-. unfold corrected. fields.
    destruct (Qabs_cases
                (position f - (position f - extremely_safe_distance s)))
      as [[B A]|[B A]]; split; intros; lra.
  - unfold integrated. fields. specialize (Hno f Hf). unfold too_close in Hno.
    destruct (Qabs_cases (position f - new_position dt s))
      as [[B A]|[B A]]; split; intros; lra.
Qed.

Lemma C1_gap_after_update_witness :
  front behind_parked driving_20 = Some parked_at_5 /\
  0 <= extremely_safe_distance driving_20 /\
  exists s' ev,
    update conf30 behind_parked 0.1 0.5 100 100 driving_20 = Ok (s', ev) /\
    0.99 * extremely_safe_distance s' <= position parked_at_5 - position s'.
Proof.
  split; [reflexivity|]. split; [vm_compute; discriminate|].
  eexists. eexists. split; [vm_compute; reflexivity|].
  eapply (C1_gap_after_update conf30 behind_parked 0.1 0.5 100 100 driving_20
            parked_at_5).
  - reflexivity.
  - vm_compute; discriminate.
  - vm_compute; reflexivity.
  - vm_compute; discriminate.
Defined.

(** ** Velocity *)

Lemma calc_acceleration_cases self conf af vf df a s' :
  calc_acceleration self conf af vf df = Ok (a, s') ->
  s' = self \/
  (cls self = AutomaticCar /\
   exists d v, df = Some d /\ vf = Some v /\
     d < HV_K1 self * safe_distance self /\ in_lock_in self d v /\
     velocity self - v < 1 /\ a = 0 /\ s' = snapped self v).
Proof.
  unfold calc_acceleration. intro H.
  destruct (cls self) eqn:C.
  - left. eapply HumanVehicle_calc_acceleration_self; eassumption.
  - left. eapply HumanVehicle_calc_acceleration_self; eassumption.
  - apply AutomaticCar_calc_acceleration_cases in H as [H|H];
      [left | right; split]; trivial.
Qed.

Lemma lane_change_frame self conf p now now' pr pl vlb vrb dlf dlb drf drb s' ev :
  lane_change self conf p now now' pr pl vlb vrb dlf dlb drf drb = Ok (s', ev) ->
  prof s' = prof self /\ position s' = position self /\
  velocity s' = velocity self /\ acceleration s' = acceleration self /\
  emergency s' = emergency self /\ safe_distance s' = safe_distance self /\
  animlane s' = animlane self.
Proof.
  intro H.
  apply lane_change_cases in H
    as [[-> _]|(lim & _ & _ & _ & [(-> & _)|(-> & _)])];
    repeat split.
Qed.

Lemma snapped_velocity self v : velocity (snapped self v) = v.
Proof.
  unfold snapped. destruct (Qlt_bool _ _); reflexivity.
Qed.

(** The velocity after a successful update: the capped one, or the front
    vehicle's when the automatic car locked in. *)
Lemma update_velocity conf container dt p now now' s s' ev :
  update conf container dt p now now' s = Ok (s', ev) ->
  let c := capped conf container dt s in
  velocity s' = velocity c \/
  (cls s = AutomaticCar /\
   exists f, front container c = Some f /\ velocity s' = velocity f).
Proof.
  intros H c.
  apply update_inv in H
    as (pr & pl & vlb & vrb & dlf & dlb & drf & drb & s4 & ev2 & acc & s6
        & Hlc & Hca & -> & _).
  fold c in Hlc, Hca.
  apply lane_change_frame in Hlc as (Lp & _ & Lv & _).
  destruct (animate_frame s4) as (Ap & _ & _ & Av & _).
  apply calc_acceleration_cases in Hca
    as [->|(Hc & d & v & _ & Hv & _ & _ & _ & _ & ->)]; fields.
  - left. congruence.
  - right. split.
    + rewrite Ap, Lp in Hc. unfold c in Hc.
      destruct (capped_frame conf container dt s) as (Cp & _).
      rewrite Cp in Hc. exact Hc.
    + destruct (front container c) as [f|]; [|discriminate].
      exists f. split; [reflexivity|].
      rewrite snapped_velocity. injection Hv as <-. reflexivity.
Qed.

Lemma wf_desired_velocity (p : Profile) :
  wf_profile p -> 18 <= desired_velocity p.
Proof.
  unfold wf_profile, between. intro H.
  destruct (cls p);
    destruct H as (_ & _ & _ & _ & _ & _ & _ & _ & _ & (H & _) & _); lra.
Qed.

Lemma Vehicle_update_velocity_nonneg conf container dt s :
  neighbours_nonneg container ->
  0 <= velocity (fst (Vehicle_update conf container dt s)).
Proof.
  intro N.
  destruct (Vehicle_update_cases conf container dt s)
    as [(f & Hf & _ & ->)|[_ ->]]; unfold corrected, integrated; fields.
  - apply (N s f). left. exact Hf.
  - unfold new_velocity.
    destruct (Qmax_cases 0 (velocity s + acceleration s * dt))
      as [[A ->]|[A ->]]; lra.
Qed.

(** C2: after an update that returns, the velocity of a vehicle built by one
    of the three constructors is not negative, provided no neighbour's
    velocity is. *)
Theorem C2_velocity_nonneg conf container dt p now now' (s s' : Vehicle) ev :
  wf_profile s ->
  neighbours_nonneg container ->
  update conf container dt p now now' s = Ok (s', ev) ->
  0 <= velocity s'.
Proof.
  intros W N H.
  apply update_velocity in H as [->|(_ & f & Hf & ->)].
  - destruct (capped_frame conf container dt s)
      as (_ & _ & _ & _ & -> & _).
    pose proof (wf_desired_velocity s W) as D.
    pose proof (Vehicle_update_velocity_nonneg conf container dt s N) as V.
    destruct (Qmin_cases (desired_velocity s)
                (velocity (fst (Vehicle_update conf container dt s))))
      as [[A ->]|[A ->]]; lra.
  - apply (N (capped conf container dt s) f). left. exact Hf.
Qed.

(** The constructors build vehicles with a well-formed profile. *)
Lemma Car_init_wf lane0 position0 l amax esd dv eps ty now :
  between 1 l 20 -> between 2.5 amax 4 -> between 2.5 esd 4 ->
  between 30.0 dv 35.0 -> between 2.0 eps 10.0 ->
  wf_profile (Car_init lane0 position0 l amax esd dv eps ty now).
Proof.
  intros. unfold wf_profile, between in *. cbn. intuition reflexivity.
Qed.

Lemma Truck_init_wf lane0 position0 amax esd dv eps now :
  between 1 amax 2 -> between 8 esd 9 -> between 18.0 dv 22.0 ->
  between 1.0 eps 3.0 ->
  wf_profile (Truck_init lane0 position0 amax esd dv eps now).
Proof.
  intros. unfold wf_profile, between in *. cbn. intuition reflexivity.
Qed.

Lemma AutomaticCar_init_wf lane0 position0 amax dv eps ty now :
  between 2.5 amax 4 -> between 30.0 dv 35.0 -> between 2.0 eps 10.0 ->
  wf_profile (AutomaticCar_init lane0 position0 amax dv eps ty now).
Proof.
  intros. unfold wf_profile, between in *. cbn.
  intuition (try reflexivity); eexists; split; reflexivity.
Qed.

Lemma update_wf conf container dt p now now' (s s' : Vehicle) ev :
  wf_profile s ->
  update conf container dt p now now' s = Ok (s', ev) ->
  wf_profile s'.
Proof.
  intros W H. apply update_frame in H as (-> & _). exact W.
Qed.

Lemma driving_20_wf : wf_profile driving_20.
Proof.
  apply Car_init_wf; split; vm_compute; discriminate.
Defined.

Lemma behind_parked_nonneg : neighbours_nonneg behind_parked.
Proof.
  intros q n [H|[H|[H|[H|[H|H]]]]]; try discriminate H.
  injection H as <-. vm_compute. discriminate.
Defined.

Lemma C2_velocity_nonneg_witness :
  wf_profile driving_20 /\ neighbours_nonneg behind_parked /\
  exists s' ev,
    update conf30 behind_parked 0.1 0.5 100 100 driving_20 = Ok (s', ev) /\
    0 <= velocity s'.
Proof.
  split; [exact driving_20_wf|]. split; [exact behind_parked_nonneg|].
  eexists. eexists. split; [vm_compute; reflexivity|].
  eapply (C2_velocity_nonneg conf30 behind_parked 0.1 0.5 100 100 driving_20).
  - exact driving_20_wf.
  - exact behind_parked_nonneg.
  - vm_compute; reflexivity.
Defined.

(** ** The lock-in zone of the automatic car *)

(** C3, as stated, fails: in the lock-in zone with both velocities equal
    the velocity is snapped and the acceleration is 0, but
    [extremely_safe_distance] stays at 4; it is [safe_distance] that goes
    from 27 to 26. *)
Lemma C3_counterexample :
  HV_K3 platoon_car = Some 1.1 /\
  1.1 * safe_distance platoon_car < 40 /\
  40 <= HV_K2 platoon_car * safe_distance platoon_car /\
  Qabs (30 - desired_velocity platoon_car) < 2 /\
  Qabs (velocity platoon_car - 30) < 1 /\
  2 < extremely_safe_distance platoon_car /\
  exists s',
    AutomaticCar_calc_acceleration platoon_car conf30 (Some 0) (Some 30)
      (Some 40) = Ok (0, s') /\
    velocity s' = 30 /\
    extremely_safe_distance s' = extremely_safe_distance platoon_car /\
    ~ extremely_safe_distance s' == extremely_safe_distance platoon_car - 1 /\
    safe_distance s' == safe_distance platoon_car - 1.
Proof.
  split; [reflexivity|].
  repeat (split; [vm_compute; reflexivity || discriminate|]).
  eexists. split; [vm_compute; reflexivity|].
  repeat split; vm_compute; discriminate.
Qed.

(** In the lock-in zone the test made before the snap is
    [velocity - vf < 1]. *)
Lemma lock_in_snap (self : Vehicle) conf af d v k3 :
  HV_K3 self = Some k3 ->
  k3 * safe_distance self < d ->
  d < HV_K2 self * safe_distance self ->
  d < HV_K1 self * safe_distance self ->
  Qabs (v - desired_velocity self) < 2 ->
  velocity self - v < 1 ->
  AutomaticCar_calc_acceleration self conf af (Some v) (Some d)
    = Ok (0, snapped self v).
Proof.
  intros K3 A B C D E. unfold AutomaticCar_calc_acceleration.
  assert (E1 : Qle_bool (HV_K1 self * safe_distance self) d = false)
    by (apply Qle_bool_false; exact C).
  assert (E2 : Qlt_bool (HV_K2 self * safe_distance self) d = false)
    by (apply Qlt_bool_false; lra).
  rewrite E1, E2, andb_false_r, K3.
  apply Qlt_bool_true in A, B, D, E.
  cbv [need need_attr bind andM]. rewrite B, A, D.
  unfold lock_in, np_absolute_bool. rewrite E. reflexivity.
Qed.

(** At [df = K2 * safe_distance] neither the adaptive nor the lock-in zone
    takes the vehicle: the braking zone answers. *)
Lemma lock_in_boundary (self : Vehicle) conf af vf d :
  d == HV_K2 self * safe_distance self ->
  d < HV_K1 self * safe_distance self ->
  AutomaticCar_calc_acceleration self conf af vf (Some d)
    = (a <- braking_zone self af vf d ;; Ok (a, self)).
Proof.
  intros A C. unfold AutomaticCar_calc_acceleration.
  assert (E1 : Qle_bool (HV_K1 self * safe_distance self) d = false)
    by (apply Qle_bool_false; exact C).
  assert (E2 : Qlt_bool (HV_K2 self * safe_distance self) d = false)
    by (apply Qlt_bool_false; lra).
  assert (E3 : Qlt_bool d (HV_K2 self * safe_distance self) = false)
    by (apply Qlt_bool_false; lra).
  rewrite E1, E2, andb_false_r, E3. reflexivity.
Qed.

(** C3, amended: for an automatic car with
    [K3 * safe_distance < df < K2 * safe_distance] and
    [|vf - desired_velocity| < 2], when [|velocity - vf| < 1] the controller
    returns 0 and snaps the velocity to [vf]; the acceleration stored by the
    update is then 0; [extremely_safe_distance] is unchanged and
    [safe_distance] decreases by 1 provided it exceeds 2. *)
Theorem C3_lock_in (self : Vehicle) conf af d v k3 :
  cls self = AutomaticCar ->
  wf_profile self ->
  HV_K3 self = Some k3 ->
  k3 * safe_distance self < d ->
  d < HV_K2 self * safe_distance self ->
  Qabs (v - desired_velocity self) < 2 ->
  Qabs (velocity self - v) < 1 ->
  exists s',
    calc_acceleration self conf af (Some v) (Some d) = Ok (0, s') /\
    velocity s' = v /\
    Qmin (HV_AMAX s') 0 = 0 /\
    extremely_safe_distance s' = extremely_safe_distance self /\
    (2 < safe_distance self -> safe_distance s' = safe_distance self - 1) /\
    (safe_distance self <= 2 -> safe_distance s' = safe_distance self).
Proof.
  intros C W K3 A B D E.
  exists (snapped self v).
  unfold wf_profile in W. rewrite C in W.
  destruct W as (_ & W1 & W2 & _ & _ & (Wa & _) & _ & _ & _ & _ & _ & _
                 & (k & Wk & Wk3) & _).
  rewrite K3 in Wk. injection Wk as <-.
  assert (S : 0 < safe_distance self) by nra.
  split.
  - unfold calc_acceleration. rewrite C.
    apply (lock_in_snap self conf af d v k3); try assumption.
    + nra.
    + apply Qabs_Qlt_condition in E. lra.
  - split; [apply snapped_velocity|].
    unfold snapped. fields.
    destruct (Qlt_bool 2 (safe_distance self)) eqn:T; qbool; fields;
      repeat split; intros; try reflexivity; try lra;
      destruct (Qmin_cases (HV_AMAX self) 0) as [[_ ->]|[M _]];
      try reflexivity; lra.
Qed.

Lemma platoon_car_wf : wf_profile platoon_car.
Proof.
  apply AutomaticCar_init_wf; split; vm_compute; discriminate.
Defined.

Lemma C3_lock_in_witness :
  exists s',
    calc_acceleration platoon_car conf30 (Some 0) (Some 30) (Some 40)
      = Ok (0, s') /\
    velocity s' = 30 /\
    Qmin (HV_AMAX s') 0 = 0 /\
    extremely_safe_distance s' = extremely_safe_distance platoon_car /\
    (2 < safe_distance platoon_car ->
     safe_distance s' = safe_distance platoon_car - 1) /\
    (safe_distance platoon_car <= 2 ->
     safe_distance s' = safe_distance platoon_car).
Proof.
  apply (C3_lock_in platoon_car conf30 (Some 0) 40 30 1.1).
  - reflexivity.
  - exact platoon_car_wf.
  - reflexivity.
  - vm_compute; reflexivity.
  - vm_compute; reflexivity.
  - vm_compute; reflexivity.
  - vm_compute; reflexivity.
Defined.

(** ** The boundary between the acceleration and the adaptive zone *)

(** C9: with the front gap equal to [K1 * safe_distance] both controllers
    answer with the rule of the acceleration zone, whatever the front
    vehicle's velocity and acceleration are. *)
Theorem C9_boundary_in_acceleration_zone (self : Vehicle) conf af vf d :
  d == HV_K1 self * safe_distance self ->
  HumanVehicle_calc_acceleration self conf af vf (Some d)
    = (a <- acceleration_zone self ;; Ok (a, self)) /\
  AutomaticCar_calc_acceleration self conf af vf (Some d)
    = (a <- acceleration_zone self ;; Ok (a, self)) /\
  calc_acceleration self conf af vf (Some d)
    = (a <- acceleration_zone self ;; Ok (a, self)).
Proof.
  intro E.
  assert (B : Qle_bool (HV_K1 self * safe_distance self) d = true)
    by (apply Qle_bool_iff; lra).
  unfold calc_acceleration, HumanVehicle_calc_acceleration,
    AutomaticCar_calc_acceleration.
  rewrite B. destruct (cls self); repeat split.
Qed.

Lemma C9_boundary_in_acceleration_zone_witness :
  12 == HV_K1 car_sd4 * safe_distance car_sd4 /\
  calc_acceleration car_sd4 conf30 (Some 0) (Some 0) (Some 12)
    = (a <- acceleration_zone car_sd4 ;; Ok (a, car_sd4)).
Proof.
  split; [reflexivity|].
  apply (C9_boundary_in_acceleration_zone car_sd4 conf30 (Some 0) (Some 0) 12).
  reflexivity.
Defined.

(** Just below the boundary the adaptive zone answers instead. *)
Lemma below_boundary_in_adaptive_zone (self : Vehicle) conf af vf d :
  d < HV_K1 self * safe_distance self ->
  HV_K2 self * safe_distance self < d ->
  calc_acceleration self conf af vf (Some d)
    = (a <- adaptive_zone self vf ;; Ok (a, self)).
Proof.
  intros A B.
  assert (E1 : Qle_bool (HV_K1 self * safe_distance self) d = false)
    by (apply Qle_bool_false; exact A).
  apply Qlt_bool_true in A, B.
  unfold calc_acceleration, HumanVehicle_calc_acceleration,
    AutomaticCar_calc_acceleration.
  rewrite E1, A, B. destruct (cls self); reflexivity.
Qed.

(** ** When an update returns *)

Lemma returns_Ok {A : Type} (a : A) : returns (Ok a).
Proof. exists a. reflexivity. Qed.

Lemma returns_andM (a b : result bool) :
  returns a -> returns b -> returns (a &&& b).
Proof.
  intros [[|] ->] [y ->]; cbn; eexists; reflexivity.
Qed.

Lemma returns_orM (a b : result bool) :
  returns a -> returns b -> returns (a ||| b).
Proof.
  intros [[|] ->] [y ->]; cbn; eexists; reflexivity.
Qed.

Lemma returns_bind {A B : Type} (c : result A) (k : A -> result B) :
  returns c -> (forall a, c = Ok a -> returns (k a)) -> returns (bind c k).
Proof.
  intros [a ->] K. cbn. apply K. reflexivity.
Qed.

Lemma returns_need (q : Q) : returns (need (Some q)).
Proof. apply returns_Ok. Qed.

Lemma returns_need_vehicle (v : Vehicle) : returns (need_vehicle (Some v)).
Proof. apply returns_Ok. Qed.

Create HintDb returns.
#[local] Hint Resolve returns_Ok returns_andM returns_orM returns_need
  returns_need_vehicle : returns.

Lemma enough_room_returns self container (a b : string) :
  a = "left"%string \/ a = "right"%string ->
  b = "front"%string \/ b = "back"%string ->
  returns (_enough_room self container (a, b)).
Proof.
  intros [-> | ->] [-> | ->]; unfold _enough_room; cbn [fst snd];
    cbn [String.eqb Ascii.eqb Bool.eqb andb];
    match goal with
    | |- context [option_map _ (?q container self)] =>
        destruct (q container self) as [n|]
    end;
    cbn [option_map need_vehicle bind]; apply returns_Ok.
Qed.

Lemma prob_right_returns self container conf df vf db vrb drb :
  returns
    (prob_right self container conf df vf db
       (option_map velocity (right_front container self))
       (option_map (fun v => position v - position self)
          (right_front container self))
       vrb drb).
Proof.
  unfold prob_right.
  apply returns_bind; [|intros; apply returns_Ok].
  repeat apply returns_andM;
    try (apply enough_room_returns; auto).
  destruct (right_front container self) as [n|];
    [cbn [option_map is_None need bind]
    |cbn [option_map is_None need bind orM]]; auto with returns.
Qed.

(** With the arguments [update] passes, [prob_left] returns [0] or
    [(safe_distance / df) ** (3/4)] for a front gap [df] that is not zero. *)
Lemma prob_left_returns self container conf :
  let veh_f := front container self in
  let veh_lf := left_front container self in
  let veh_lb := left_back container self in
  exists pl,
    prob_left self container conf (option_map acceleration veh_f)
      (option_map velocity veh_f)
      (option_map (fun v => position v - position self) veh_f)
      (option_map (fun v => position v - position self) veh_lf)
      (option_map velocity veh_lf)
      (option_map (fun v => position self - position v) veh_lb)
      (option_map velocity veh_lb) = Ok pl /\
    (pl = Num 0 \/
     exists f, veh_f = Some f /\
       ~ position f - position self == 0 /\
       pl = Pow34 (safe_distance self / (position f - position self))).
Proof.
  intros veh_f veh_lf veh_lb. unfold prob_left.
  destruct veh_f as [f|] eqn:F; cbn [option_map];
    [|cbn [truthy andM bind]; eexists; split; [reflexivity | left; reflexivity]].
  match goal with
  | |- exists pl, bind ?c _ = _ /\ _ =>
      assert (C : returns c); [|destruct C as [[|] C]; rewrite C; cbn [bind]]
  end.
  - repeat apply returns_andM; try (apply enough_room_returns; auto);
      cbn [need bind]; auto with returns.
    + destruct veh_lf as [lf|];
        [cbn [option_map is_None need bind]
        |cbn [option_map is_None need bind orM]]; auto with returns.
    + destruct veh_lb as [lb|];
        [cbn [option_map is_None need bind]
        |cbn [option_map is_None need bind orM]]; auto with returns.
  - do 6 (apply andM_true in C as [C _]).
    injection C as C. cbn [truthy] in C. apply negb_true_iff in C.
    cbn [need bind]. unfold pydiv. rewrite C. cbn [bind].
    eexists. split; [reflexivity|].
    right. exists f. repeat split. apply Qeq_bool_false. exact C.
  - eexists. split; [reflexivity | left; reflexivity].
Qed.

Lemma returns_pydiv (x y : Q) : ~ y == 0 -> returns (pydiv x y).
Proof.
  intro H. unfold pydiv. apply Qeq_bool_false in H. rewrite H.
  apply returns_Ok.
Qed.

Lemma returns_gap_guard (o : option Q) (f : Q -> bool) :
  returns (Ok (is_None o) ||| (d <- need o ;; Ok (f d))).
Proof.
  destruct o; cbn; apply returns_Ok.
Qed.

Lemma returns_back_guard (v : option Vehicle) (g : Vehicle -> Q)
    (f : Q -> Vehicle -> bool) :
  returns (Ok (is_None (option_map g v))
           ||| (d <- need (option_map g v) ;; v' <- need_vehicle v ;;
                Ok (f d v'))).
Proof.
  destruct v; cbn; apply returns_Ok.
Qed.

Lemma lane_change_returns self conf p now now' pr pl veh_lb veh_rb dlf drf
    (gl gr : Vehicle -> Q) :
  ~ speedup conf == 0 ->
  returns (lt_pyval p pl) ->
  returns (lane_change self conf p now now' pr pl veh_lb veh_rb dlf
             (option_map gl veh_lb) drf (option_map gr veh_rb)).
Proof.
  intros S L. unfold lane_change.
  apply returns_bind; [apply returns_pydiv; exact S|].
  intros lim _. destruct (_ && _); [|apply returns_Ok].
  apply returns_bind.
  - repeat apply returns_andM; auto with returns.
    + apply (returns_gap_guard drf (fun d => Qlt_bool (safe_distance self) d)).
    + apply (returns_back_guard veh_rb gr
               (fun d v => Qlt_bool (safe_distance v) d)).
  - intros [|] _; [apply returns_Ok|].
    apply returns_bind.
    + repeat apply returns_andM; auto with returns.
      * apply (returns_gap_guard dlf (fun d => Qlt_bool (safe_distance self) d)).
      * apply (returns_back_guard veh_lb gl
                 (fun d v => Qlt_bool (safe_distance v) d)).
    + intros [|] _; apply returns_Ok.
Qed.

Lemma reach_desired_returns self num den :
  ~ den == 0 -> returns (reach_desired self num den).
Proof.
  intro D. unfold reach_desired.
  destruct (Qeq_bool _ 0); [apply returns_Ok|].
  destruct (Qlt_bool _ _); [apply returns_Ok|].
  apply returns_bind; [apply returns_pydiv; exact D|].
  intros; apply returns_Ok.
Qed.

Lemma acceleration_zone_returns self :
  0 <= velocity self -> returns (acceleration_zone self).
Proof.
  intro V. apply reach_desired_returns. lra.
Qed.

Lemma adaptive_zone_returns self v :
  0 <= v -> returns (adaptive_zone self (Some v)).
Proof.
  intro V. unfold adaptive_zone. cbn [need bind].
  destruct (Qlt_bool v (velocity self)).
  - apply returns_bind; [apply returns_pydiv; lra|].
    intros; apply returns_Ok.
  - apply reach_desired_returns. lra.
Qed.

Lemma braking_zone_returns self af v d :
  0 < safe_distance self -> returns (braking_zone self af (Some v) d).
Proof.
  intro S. unfold braking_zone.
  destruct (_ && _); [apply returns_Ok|].
  cbn [need bind]. destruct (Qlt_bool v (velocity self)); [|apply returns_Ok].
  apply returns_bind; [apply returns_pydiv; lra|].
  intros; apply returns_Ok.
Qed.

Lemma returns_pair {A : Type} (c : result A) (s : Vehicle) :
  returns c -> returns (a <- c ;; Ok (a, s)).
Proof.
  intros [a ->]. apply returns_Ok.
Qed.

(** The controller returns when velocities are not negative, the safe
    distance is positive and a front gap comes with a front velocity. *)
Lemma calc_acceleration_returns (self : Vehicle) conf af vf df :
  0 <= velocity self ->
  0 < safe_distance self ->
  (forall v, vf = Some v -> 0 <= v) ->
  (df <> None -> vf <> None) ->
  (cls self = AutomaticCar -> HV_K3 self <> None /\ HV_L2 self <> None) ->
  returns (calc_acceleration self conf af vf df).
Proof.
  intros V S F D A.
  assert (Z1 : returns (a <- acceleration_zone self ;; Ok (a, self)))
    by (apply returns_pair, acceleration_zone_returns, V).
  unfold calc_acceleration, HumanVehicle_calc_acceleration,
    AutomaticCar_calc_acceleration.
  destruct df as [d|]; [|destruct (cls self); exact Z1].
  destruct vf as [v|]; [|exfalso; apply D; [discriminate | reflexivity]].
  specialize (F v eq_refl).
  assert (Z2 : returns (a <- adaptive_zone self (Some v) ;; Ok (a, self)))
    by (apply returns_pair, adaptive_zone_returns, F).
  assert (Z4 : returns (a <- braking_zone self af (Some v) d ;; Ok (a, self)))
    by (apply returns_pair, braking_zone_returns, S).
  destruct (Qle_bool _ d); [destruct (cls self); exact Z1|].
  destruct (_ && _); [destruct (cls self); exact Z2|].
  destruct (cls self) eqn:C; try exact Z4.
  destruct (A eq_refl) as [K3 L2].
  destruct (HV_K3 self) as [k3|]; [|contradiction].
  destruct (HV_L2 self) as [l2|] eqn:EL; [|contradiction].
  cbn [need need_attr bind].
  apply returns_bind; [auto with returns|].
  intros [|] _; [|exact Z4].
  unfold lock_in. destruct (np_absolute_bool _); [apply returns_Ok|].
  apply returns_bind; [apply returns_pydiv; lra|].
  intros q _. rewrite EL. apply returns_Ok.
Qed.

Lemma wf_esd (p : Profile) :
  wf_profile p -> 2.5 <= extremely_safe_distance p.
Proof.
  unfold wf_profile, between. intro H.
  destruct (cls p);
    destruct H as (_ & _ & _ & _ & _ & _ & _ & _ & H & _); lra.
Qed.

Lemma wf_attrs (p : Profile) :
  wf_profile p -> cls p = AutomaticCar ->
  HV_K3 p <> None /\ HV_L2 p <> None.
Proof.
  unfold wf_profile. intros H C. rewrite C in H.
  destruct H as (_ & _ & _ & _ & _ & _ & _ & _ & _ & _ & _ & _
                 & (k & -> & _) & (l & -> & _)).
  split; discriminate.
Qed.

Lemma capped_velocity_nonneg conf container dt (s : Vehicle) :
  wf_profile s -> neighbours_nonneg container ->
  0 <= velocity (capped conf container dt s).
Proof.
  intros W N.
  destruct (capped_frame conf container dt s) as (_ & _ & _ & _ & -> & _).
  pose proof (wf_desired_velocity s W) as D.
  pose proof (Vehicle_update_velocity_nonneg conf container dt s N) as V.
  destruct (Qmin_cases (desired_velocity s)
              (velocity (fst (Vehicle_update conf container dt s))))
    as [[A ->]|[A ->]]; lra.
Qed.

Lemma capped_safe_distance conf container dt (s : Vehicle) :
  extremely_safe_distance s <= safe_distance (capped conf container dt s).
Proof.
  destruct (capped_frame conf container dt s)
    as (_ & _ & _ & _ & _ & -> & _).
  destruct (Qmax_cases (extremely_safe_distance s)
              (velocity (capped conf container dt s) * safe_time s))
    as [[A ->]|[A ->]]; lra.
Qed.

Lemma Qdiv_pos (a b : Q) : 0 < a -> 0 < b -> 0 < a / b.
Proof.
  intros A B. unfold Qdiv.
  apply Qmult_lt_0_compat; [exact A | apply Qinv_lt_0_compat; exact B].
Qed.

(** An update returns for a vehicle built by a constructor when the clock
    scale is not zero, the capped velocity is not negative and the front
    vehicle, if any, neither drives backwards nor is behind the vehicle
    after the move. *)
Lemma update_returns_when conf container dt p now now' (s : Vehicle) :
  wf_profile s ->
  ~ speedup conf == 0 ->
  0 <= velocity (capped conf container dt s) ->
  (forall f, front container (capped conf container dt s) = Some f ->
     0 <= velocity f /\ position (capped conf container dt s) <= position f) ->
  returns (update conf container dt p now now' s).
Proof.
  intros W S Cv Fr. unfold update, HumanVehicle_update.
  set (c := capped conf container dt s) in *.
  assert (Cp : prof c = prof s)
    by (destruct (capped_frame conf container dt s) as (H & _); exact H).
  assert (Cs : 0 < safe_distance c).
  { pose proof (capped_safe_distance conf container dt s) as H.
    pose proof (wf_esd s W) as H'. fold c in H. lra. }
  apply returns_bind; [apply prob_right_returns|]. intros pr _.
  destruct (prob_left_returns c container conf) as (pl & -> & Hpl).
  cbn [bind].
  apply returns_bind.
  - apply lane_change_returns; [exact S|].
    destruct Hpl as [->|(f & Hf & Hz & ->)]; [apply returns_Ok|].
    unfold lt_pyval.
    assert (B : Qlt_bool (safe_distance c / (position f - position c)) 0
                = false).
    { apply Qlt_bool_false. apply Qlt_le_weak. apply Qdiv_pos; [exact Cs|].
      destruct (Fr f Hf) as [_ G]. lra. }
    rewrite B. apply returns_Ok.
  - intros [s4 ev2] Hlc.
    apply lane_change_frame in Hlc as (Lp & _ & Lv & _ & _ & Ls & _).
    destruct (animate_frame s4) as (Ap & _ & _ & Av & _ & _ & As & _).
    apply returns_bind.
    + apply calc_acceleration_returns.
      * rewrite Av, Lv. exact Cv.
      * rewrite As, Ls. exact Cs.
      * intros v Hv. destruct (front container c) as [f|] eqn:F;
          [|discriminate].
        injection Hv as <-. apply (Fr f). reflexivity.
      * destruct (front container c); cbn [option_map];
          [intros _; discriminate | intro H; exact H].
      * intro A. apply wf_attrs; [|exact A].
        rewrite Ap, Lp, Cp. exact W.
    + intros [acc s6] _. apply returns_Ok.
Qed.

Lemma update_returns conf container dt p now now' (s : Vehicle) :
  wf_profile s ->
  neighbours_nonneg container ->
  ~ speedup conf == 0 ->
  (forall f, front container (capped conf container dt s) = Some f ->
     position (capped conf container dt s) <= position f) ->
  returns (update conf container dt p now now' s).
Proof.
  intros W N S Fr. apply update_returns_when; try assumption.
  - apply capped_velocity_nonneg; assumption.
  - intros f Hf. split; [|apply Fr; exact Hf].
    apply (N (capped conf container dt s) f). left. exact Hf.
Qed.

(** ** Free flow *)

(** C5, as stated, fails: a newly built fast car with desired velocity 32
    and epsilon 5 on a free road has, after one tick of 0.1 s, velocity 0
    and acceleration [AMAX] (2.5 here), not [A0 = 1]. *)
Lemma C5_counterexample :
  desired_velocity car_sd4 == 32 /\ epsilon car_sd4 == 5 /\
  velocity car_sd4 == 0 /\ HV_A0 car_sd4 == 1.0 /\
  exists s' ev,
    update conf30 free_road 0.1 0.5 100 100 car_sd4 = Ok (s', ev) /\
    acceleration s' == 2.5 /\ ~ acceleration s' == HV_A0 s' /\
    velocity s' == 0.
Proof.
  repeat (split; [reflexivity|]).
  eexists. eexists. split; [vm_compute; reflexivity|].
  repeat split; vm_compute; discriminate.
Qed.

Lemma Qdiv_ge_1 (num den : Q) : 0 < den -> den <= num -> 1 <= num / den.
Proof.
  intros D N.
  assert (E : den * (num / den) == num) by (apply Qmult_div_r; lra).
  nra.
Qed.

(** The rule of the acceleration zone answers [AMAX] when the velocity is
    at most 15, the desired velocity at least 32 and [epsilon] at most 10. *)
Lemma acceleration_zone_full (self : Vehicle) :
  0 <= velocity self -> velocity self <= 15 ->
  32 <= desired_velocity self -> epsilon self <= 10 ->
  1 <= HV_L self -> 0 < HV_AMAX self ->
  exists a, acceleration_zone self = Ok a /\ a == HV_AMAX self.
Proof.
  intros V0 V1 D E L A. unfold acceleration_zone, reach_desired.
  assert (B1 : Qeq_bool (desired_velocity self - velocity self) 0 = false)
    by (apply Qeq_bool_false; lra).
  assert (B2 : Qlt_bool (desired_velocity self - velocity self)
                 (epsilon self) = false)
    by (apply Qlt_bool_false; lra).
  assert (B3 : Qeq_bool (velocity self + 0.01) 0 = false)
    by (apply Qeq_bool_false; lra).
  rewrite B1, B2. unfold pydiv. rewrite B3. cbn [bind].
  eexists. split; [reflexivity|].
  set (q := (desired_velocity self - velocity self) / (velocity self + 0.01)).
  assert (Q1 : 1 <= q) by (apply Qdiv_ge_1; lra).
  assert (Q2 : 1 <= q * HV_L self) by nra.
  assert (Q3 : HV_AMAX self <= q * HV_L self * HV_AMAX self) by nra.
  destruct (Qmin_cases (HV_AMAX self) (q * HV_L self * HV_AMAX self))
    as [[M ->]|[M ->]]; lra.
Qed.

(** C5, amended: a fast car with desired velocity 32, epsilon 5 and
    velocity 0, with no front neighbour and a tick of 0.1 s, has after one
    update the acceleration [AMAX] (at least 2.5, so not [A0 = 1]); its
    velocity is 0.1 times the acceleration it had before the tick, or 0 if
    that was not positive: 0 for a newly built car. *)
Theorem C5_free_flow conf container dt p now now' (s : Vehicle) :
  cls s = Car ->
  wf_profile s ->
  desired_velocity s == 32 -> epsilon s == 5 -> velocity s == 0 ->
  acceleration s <= 150 -> dt == 0.1 ->
  (forall q, front container q = None) ->
  ~ speedup conf == 0 ->
  exists s' ev,
    update conf container dt p now now' s = Ok (s', ev) /\
    acceleration s' == HV_AMAX s /\
    ~ acceleration s' == HV_A0 s /\
    (acceleration s <= 0 -> velocity s' == 0) /\
    (0 <= acceleration s -> velocity s' == 0.1 * acceleration s).
Proof.
  intros C W D E V A T F S.
  pose proof W as W'. unfold wf_profile, between in W'. rewrite C in W'.
  destruct W' as (_ & _ & _ & WA0 & (WL & _) & (WA & WA') & _).
  (* the capped state *)
  destruct (capped_frame conf container dt s)
    as (Cp & _ & _ & _ & Cv & _).
  assert (V1 : velocity (fst (Vehicle_update conf container dt s))
               = new_velocity dt s).
  { unfold Vehicle_update. rewrite F. reflexivity. }
  rewrite V1 in Cv. unfold new_velocity in Cv.
  set (c := capped conf container dt s) in *.
  assert (R : 0 <= velocity c /\ velocity c <= 15 /\
              (acceleration s <= 0 -> velocity c == 0) /\
              (0 <= acceleration s -> velocity c == 0.1 * acceleration s)).
  { rewrite Cv.
    destruct (Qmax_cases 0 (velocity s + acceleration s * dt))
      as [[M ->]|[M ->]];
      match goal with
      | |- context [Qmin ?a ?b] =>
          destruct (Qmin_cases a b) as [[N ->]|[N ->]]
      end; repeat split; intros; nra. }
  destruct R as (R0 & R1 & R2 & R3).
  (* the update returns *)
  destruct (update_returns_when conf container dt p now now' s W S)
    as [[s' ev] H].
  { exact R0. }
  { intros f Hf. rewrite F in Hf. discriminate. }
  exists s', ev. split; [exact H|].
  apply update_inv in H
    as (pr & pl & vlb & vrb & dlf & dlb & drf & drb & s4 & ev2 & acc & s6
        & Hlc & Hca & -> & _).
  fold c in Hlc, Hca. rewrite F in Hca. cbn [option_map] in Hca.
  apply lane_change_frame in Hlc as (Lp & _ & Lv & _).
  destruct (animate_frame s4) as (Ap & _ & _ & Av & _).
  assert (P : prof (animate s4) = prof s) by congruence.
  assert (Ve : velocity (animate s4) = velocity c) by congruence.
  destruct (acceleration_zone_full (animate s4)) as (a & Ha & Ea);
    try (rewrite Ve); try (rewrite P); try lra.
  unfold calc_acceleration, HumanVehicle_calc_acceleration in Hca.
  rewrite P, C, Ha in Hca. cbn [bind] in Hca. injection Hca as <- <-.
  fields. rewrite P in Ea. rewrite P, Ve.
  destruct (Qmin_cases (HV_AMAX s) a) as [[M ->]|[M ->]];
    repeat split; trivial; lra.
Qed.

Lemma car_sd4_wf : wf_profile car_sd4.
Proof.
  apply Car_init_wf; split; vm_compute; discriminate.
Defined.

Lemma C5_free_flow_witness :
  exists s' ev,
    update conf30 free_road 0.1 0.5 100 100 car_sd4 = Ok (s', ev) /\
    acceleration s' == HV_AMAX car_sd4 /\
    ~ acceleration s' == HV_A0 car_sd4 /\
    (acceleration car_sd4 <= 0 -> velocity s' == 0) /\
    (0 <= acceleration car_sd4 -> velocity s' == 0.1 * acceleration car_sd4).
Proof.
  apply (C5_free_flow conf30 free_road 0.1 0.5 100 100 car_sd4).
  - reflexivity.
  - exact car_sd4_wf.
  - reflexivity.
  - reflexivity.
  - reflexivity.
  - vm_compute; discriminate.
  - reflexivity.
  - reflexivity.
  - vm_compute; discriminate.
Defined.

(** ** Safe distance and extremely safe distance *)

(** C6: the safe distance is meant to stay at or above the extremely safe
    distance after every update; here an update leaves it below.  The
    standing automatic car is in the lock-in zone of the car ahead
    ([4.4 < 5 < 7.2]); the test before the snap is
    [np.absolute(velocity - vf < 1)], which holds for any velocity below
    [vf + 1]; the velocity is snapped from 0 to 30 and the safe distance
    goes from 4 to 3, below the extremely safe distance 4. *)
Theorem C6_safe_distance_below_extremely_safe :
  wf_profile new_automatic /\
  front behind_lead_30 new_automatic = Some lead_30 /\
  exists s' ev,
    update conf30 behind_lead_30 0.1 0.5 100 100 new_automatic = Ok (s', ev) /\
    safe_distance s' == 3 /\ extremely_safe_distance s' == 4 /\
    velocity s' == 30 /\
    ~ extremely_safe_distance s' <= safe_distance s'.
Proof.
  split; [apply AutomaticCar_init_wf; split; vm_compute; discriminate|].
  split; [reflexivity|].
  eexists. eexists. split; [vm_compute; reflexivity|].
  repeat split; vm_compute; try reflexivity. intro H. apply H. reflexivity.
Qed.

Lemma in_lock_in_ext (s t : Vehicle) d v :
  prof s = prof t -> safe_distance s = safe_distance t ->
  in_lock_in s d v -> in_lock_in t d v.
Proof.
  unfold in_lock_in. intros P S. rewrite P, S. trivial.
Qed.

(** The safe distance of a new vehicle is its extremely safe distance, and
    after an update that returns it is at least the extremely safe distance,
    except when the lock-in branch of an automatic car snapped the velocity:
    then it is one less than the maximum of the extremely safe distance and
    velocity times safe time. *)
Lemma safe_distance_after_update conf container dt p now now' (s s' : Vehicle) ev :
  wf_profile s ->
  update conf container dt p now now' s = Ok (s', ev) ->
  let c := capped conf container dt s in
  (forall pr lane0 position0 t,
     safe_distance (Vehicle_init pr lane0 position0 t)
     = extremely_safe_distance pr) /\
  (extremely_safe_distance s' <= safe_distance s' \/
   (cls s = AutomaticCar /\
    exists f, front container c = Some f /\
      in_lock_in c (position f - position c) (velocity f) /\
      velocity c - velocity f < 1 /\
      velocity s' = velocity f /\
      safe_distance s' ==
        Qmax (extremely_safe_distance s) (velocity c * safe_time s) - 1)).
Proof.
  intros W H c. split; [reflexivity|].
  apply update_inv in H
    as (pr & pl & vlb & vrb & dlf & dlb & drf & drb & s4 & ev2 & acc & s6
        & Hlc & Hca & -> & _).
  fold c in Hlc, Hca.
  apply lane_change_frame in Hlc as (Lp & _ & Lv & _ & _ & Ls & _).
  destruct (animate_frame s4) as (Ap & _ & _ & Av & _ & _ & As & _).
  destruct (capped_frame conf container dt s)
    as (Cp & _ & _ & _ & _ & Cs & _).
  fold c in Cp, Cs.
  pose proof (capped_safe_distance conf container dt s) as G. fold c in G.
  pose proof (wf_esd s W) as E.
  apply calc_acceleration_cases in Hca
    as [->|(Hc & d & v & Hd & Hv & _ & Hz & Hs & _ & ->)]; goal_fields.
  - left. rewrite Ap, Lp, Cp, As, Ls. exact G.
  - right. split; [congruence|].
    destruct (front container c) as [f|]; [|discriminate].
    unfold option_map in Hd, Hv. injection Hd as <-. injection Hv as <-.
    exists f. split; [reflexivity|].
    split;
      [apply (in_lock_in_ext (animate s4) c);
         [congruence | congruence | exact Hz]|].
    split; [rewrite <- Lv, <- Av; exact Hs|].
    split; [apply snapped_velocity|].
    unfold snapped. goal_fields. rewrite As, Ls.
    assert (T : Qlt_bool 2 (safe_distance c) = true)
      by (apply Qlt_bool_true; lra).
    rewrite T. goal_fields. rewrite Cs. reflexivity.
Qed.

(** A car, or a truck, keeps the safe distance at or above the extremely
    safe one in every update. *)
Lemma safe_distance_kept_by_human_classes conf container dt p now now'
    (s s' : Vehicle) ev :
  wf_profile s -> cls s <> AutomaticCar ->
  update conf container dt p now now' s = Ok (s', ev) ->
  extremely_safe_distance s' <= safe_distance s'.
Proof.
  intros W C H.
  destruct (safe_distance_after_update _ _ _ _ _ _ _ _ _ W H)
    as [_ [G|[G _]]]; [exact G | contradiction].
Qed.

(** Had the snap been taken only with the velocity within 1 of the front
    vehicle's, the safe distance would have stayed above the extremely safe
    one: the velocity is then above 27 and the safe distance above 24. *)
Lemma lock_in_within_1_keeps_safe_distance (c : Vehicle) d v :
  cls c = AutomaticCar -> wf_profile c ->
  safe_distance c
    = Qmax (extremely_safe_distance c) (velocity c * safe_time c) ->
  in_lock_in c d v ->
  Qabs (velocity c - v) < 1 ->
  extremely_safe_distance (snapped c v) <= safe_distance (snapped c v).
Proof.
  intros C W S (_ & _ & D) A.
  unfold wf_profile, between in W. rewrite C in W.
  destruct W as (_ & _ & _ & _ & _ & _ & _ & _ & We & (Wd & _) & Wt & _).
  apply Qabs_Qlt_condition in A, D.
  assert (G : 24 <= safe_distance c).
  { rewrite S.
    destruct (Qmax_cases (extremely_safe_distance c)
                (velocity c * safe_time c)) as [[M ->]|[M ->]]; nra. }
  unfold snapped. fields.
  assert (T : Qlt_bool 2 (safe_distance c) = true)
    by (apply Qlt_bool_true; lra).
  rewrite T. fields. lra.
Qed.

(** ** What the clock decides *)

Lemma relane_id (s : Vehicle) :
  relane (lane s) (animlane s) (last_lane_change s) s = s.
Proof. destruct s. reflexivity. Qed.

Lemma lock_in_relane l a t s v :
  lock_in (relane l a t s) v
  = (' (acc, k) <- lock_in s v ;; Ok (acc, relane l a t k)).
Proof.
  destruct s as [pf la po ve ac em sd an ll].
  unfold lock_in, relane. goal_fields.
  destruct (np_absolute_bool _).
  - cbn [bind]. destruct (Qlt_bool 2 sd); reflexivity.
  - destruct (pydiv _ _) as [q|e]; cbn [bind]; [|reflexivity].
    destruct (HV_L2 pf) as [l2|]; reflexivity.
Qed.

(** The controllers neither read nor write the three fields. *)
Lemma calc_acceleration_relane l a t s conf af vf df :
  calc_acceleration (relane l a t s) conf af vf df
  = (' (acc, k) <- calc_acceleration s conf af vf df ;;
     Ok (acc, relane l a t k)).
Proof.
  assert (Z1 : acceleration_zone (relane l a t s) = acceleration_zone s)
    by reflexivity.
  assert (Z2 : adaptive_zone (relane l a t s) vf = adaptive_zone s vf)
    by reflexivity.
  assert (Z4 : forall d, braking_zone (relane l a t s) af vf d
                         = braking_zone s af vf d)
    by reflexivity.
  unfold calc_acceleration.
  change (cls (relane l a t s)) with (cls s).
  unfold HumanVehicle_calc_acceleration, AutomaticCar_calc_acceleration.
  rewrite Z1, Z2.
  change (HV_K1 (relane l a t s)) with (HV_K1 s).
  change (HV_K2 (relane l a t s)) with (HV_K2 s).
  change (HV_K3 (relane l a t s)) with (HV_K3 s).
  change (safe_distance (relane l a t s)) with (safe_distance s).
  change (desired_velocity (relane l a t s)) with (desired_velocity s).
  destruct df as [d|].
  - rewrite Z4.
    destruct (cls s); destruct (Qle_bool _ d);
      try (destruct (acceleration_zone s); reflexivity);
      destruct (_ && _);
      try (destruct (adaptive_zone s vf); reflexivity);
      try (destruct (braking_zone s af vf d); reflexivity).
    match goal with
    | |- bind ?c _ = _ => destruct c as [[|]|e]
    end; cbn [bind]; try reflexivity.
    + destruct (need vf) as [v|e]; cbn [bind]; [|reflexivity].
      apply lock_in_relane.
    + destruct (braking_zone s af vf d); reflexivity.
  - destruct (cls s); destruct (acceleration_zone s); reflexivity.
Qed.

Lemma set_acceleration_relane x l a t k :
  set_acceleration x (relane l a t k) = relane l a t (set_acceleration x k).
Proof. reflexivity. Qed.

Lemma lane_change_relane self conf p now now' pr pl vlb vrb dlf dlb drf drb s4 ev :
  lane_change self conf p now now' pr pl vlb vrb dlf dlb drf drb = Ok (s4, ev) ->
  animate s4
  = relane (lane s4) (animlane (animate s4)) (last_lane_change s4) self.
Proof.
  intro H.
  assert (E : s4 = relane (lane s4) (animlane self) (last_lane_change s4) self).
  { apply lane_change_cases in H
      as [[-> _]|(lim & _ & _ & _ & [(-> & _)|(-> & _)])];
      destruct self; reflexivity. }
  transitivity (set_animlane (animlane (animate s4)) s4).
  - unfold animate.
    destruct (Qlt_bool 0.1 _); [destruct (Qlt_bool (animlane s4) _)|];
      reflexivity.
  - generalize (animlane (animate s4)). intro x. rewrite E. reflexivity.
Qed.

Lemma update_clockless conf container dt p now now' s s' ev :
  update conf container dt p now now' s = Ok (s', ev) ->
  exists k, clockless conf container dt s = Ok k /\
    s' = relane (lane s') (animlane s') (last_lane_change s') k.
Proof.
  intro H.
  apply update_inv in H
    as (pr & pl & vlb & vrb & dlf & dlb & drf & drb & s4 & ev2 & acc & s6
        & Hlc & Hca & -> & _).
  rewrite (lane_change_relane _ _ _ _ _ _ _ _ _ _ _ _ _ _ _ Hlc) in Hca.
  rewrite calc_acceleration_relane in Hca.
  inv_bind Hca as [acc' k] Hk. injection Hca as <- <-.
  unfold clockless. rewrite Hk. cbn [bind].
  eexists. split; [reflexivity|]. reflexivity.
Qed.

(** Position, velocity, acceleration, safe distance, countdown and profile
    after a successful update do not depend on the draw or on the clock. *)
Lemma update_clock_free conf container dt p1 p2 now1 now1' now2 now2' s s1 ev1 s2 ev2 :
  update conf container dt p1 now1 now1' s = Ok (s1, ev1) ->
  update conf container dt p2 now2 now2' s = Ok (s2, ev2) ->
  prof s1 = prof s2 /\ position s1 = position s2 /\
  velocity s1 = velocity s2 /\ acceleration s1 = acceleration s2 /\
  safe_distance s1 = safe_distance s2 /\ emergency s1 = emergency s2.
Proof.
  intros H1 H2.
  apply update_clockless in H1 as (k1 & K1 & ->).
  apply update_clockless in H2 as (k2 & K2 & ->).
  rewrite K1 in K2. injection K2 as <-.
  repeat split.
Qed.

Lemma update_lane_stage conf container dt p now now' s s' ev :
  update conf container dt p now now' s = Ok (s', ev) ->
  exists s4 ev2,
    lane_stage conf container p now now' (capped conf container dt s)
      = Ok (s4, ev2) /\
    lane s' = lane s4 /\ animlane s' = animlane (animate s4) /\
    last_lane_change s' = last_lane_change s4 /\
    ev = snd (Vehicle_update conf container dt s) ++ ev2.
Proof.
  intro H. unfold update, HumanVehicle_update in H.
  inv_bind H as pr Hpr. inv_bind H as pl Hpl.
  inv_bind H as [s4 ev2] Hlc. inv_bind H as [acc s6] Hca.
  injection H as <- <-.
  exists s4, ev2. unfold lane_stage. rewrite Hpr, Hpl. cbn [bind].
  split; [exact Hlc|].
  apply calc_acceleration_frame in Hca as (_ & Fl & _ & _ & _ & Fa & Ft).
  destruct (animate_frame s4) as (_ & Al & _ & _ & _ & _ & _ & At).
  goal_fields. repeat split; congruence.
Qed.

(** The clock of the guard matters only through the guard's truth, and the
    clock read at a change only through the stored time. *)
Lemma lane_change_clock self conf p now1 now1' now2 now2' pr pl vlb vrb
    dlf dlb drf drb s1 e1 s2 e2 :
  (5.0 / speedup conf < now1 - last_lane_change self <->
   5.0 / speedup conf < now2 - last_lane_change self) ->
  lane_change self conf p now1 now1' pr pl vlb vrb dlf dlb drf drb
    = Ok (s1, e1) ->
  lane_change self conf p now2 now2' pr pl vlb vrb dlf dlb drf drb
    = Ok (s2, e2) ->
  lane s1 = lane s2 /\ e1 = e2 /\ (now1' = now2' -> s1 = s2).
Proof.
  intros G H1 H2. unfold lane_change in H1, H2.
  inv_bind H1 as lim Hlim. rewrite Hlim in H2. cbn [bind] in H2.
  assert (L : lim = 5.0 / speedup conf).
  { unfold pydiv in Hlim. destruct (Qeq_bool _ 0); congruence. }
  assert (B : Qlt_bool lim (now1 - last_lane_change self)
              = Qlt_bool lim (now2 - last_lane_change self)).
  { clear H1 H2 Hlim. subst lim.
    destruct (Qlt_bool _ (now1 - _)) eqn:B1;
      destruct (Qlt_bool _ (now2 - _)) eqn:B2; trivial; qbool;
      [apply G in B1 | apply G in B2]; lra. }
  rewrite <- B in H2.
  destruct (_ && _).
  - match type of H1 with
    | bind ?c _ = _ => destruct c as [[|]|e]
    end; cbn [bind] in H1, H2; [| |discriminate].
    + injection H1 as <- <-. injection H2 as <- <-.
      repeat split. intros ->. reflexivity.
    + match type of H1 with
      | bind ?c _ = _ => destruct c as [[|]|e]
      end; cbn [bind] in H1, H2; [| |discriminate];
        injection H1 as <- <-; injection H2 as <- <-;
        repeat split; intros ->; reflexivity.
  - injection H1 as <- <-. injection H2 as <- <-. repeat split.
Qed.

Lemma lane_stage_clock conf container p now1 now1' now2 now2' c s1 e1 s2 e2 :
  (5.0 / speedup conf < now1 - last_lane_change c <->
   5.0 / speedup conf < now2 - last_lane_change c) ->
  lane_stage conf container p now1 now1' c = Ok (s1, e1) ->
  lane_stage conf container p now2 now2' c = Ok (s2, e2) ->
  lane s1 = lane s2 /\ e1 = e2 /\ (now1' = now2' -> s1 = s2).
Proof.
  intros G H1 H2. unfold lane_stage in H1, H2.
  inv_bind H1 as pr Hpr. rewrite Hpr in H2. cbn [bind] in H2.
  inv_bind H1 as pl Hpl. rewrite Hpl in H2. cbn [bind] in H2.
  eapply lane_change_clock; eassumption.
Qed.

(** ** Repeated runs *)

(** C7, as stated, fails: same vehicle, same draw 0.5, same neighbours; with
    the clock at 100 the cooldown of 5 s is over and the car moves to lane 1,
    with the clock at 3 it stays in lane 0. *)
Lemma C7_counterexample :
  exists s1 ev1 s2 ev2,
    update conf30 free_road 0.1 0.5 100 100 cruising = Ok (s1, ev1) /\
    update conf30 free_road 0.1 0.5 3 3 cruising = Ok (s2, ev2) /\
    lane s1 = 1%Z /\ lane s2 = 0%Z /\ lane s1 <> lane s2 /\
    last_lane_change s1 <> last_lane_change s2.
Proof.
  do 4 eexists. split; [vm_compute; reflexivity|].
  split; [vm_compute; reflexivity|].
  repeat split; vm_compute; discriminate.
Qed.

(** C7, amended: two runs of an update from the same vehicle, the same draw
    and the same neighbours that both return agree on position, velocity,
    acceleration, safe distance, countdown and profile; they agree on lane,
    animation lane and events when the two clock readings are on the same
    side of the cooldown limit, and on every field when moreover the clock
    read at a lane change is the same. *)
Theorem C7_determinism_up_to_clock conf container dt p now1 now1' now2 now2'
    s s1 ev1 s2 ev2 :
  update conf container dt p now1 now1' s = Ok (s1, ev1) ->
  update conf container dt p now2 now2' s = Ok (s2, ev2) ->
  (prof s1 = prof s2 /\ position s1 = position s2 /\
   velocity s1 = velocity s2 /\ acceleration s1 = acceleration s2 /\
   safe_distance s1 = safe_distance s2 /\ emergency s1 = emergency s2) /\
  ((5.0 / speedup conf < now1 - last_lane_change s <->
    5.0 / speedup conf < now2 - last_lane_change s) ->
   lane s1 = lane s2 /\ animlane s1 = animlane s2 /\ ev1 = ev2 /\
   (now1' = now2' -> s1 = s2)).
Proof.
  intros H1 H2.
  split; [eapply update_clock_free; eassumption|].
  intro G.
  destruct (capped_frame conf container dt s)
    as (_ & _ & _ & _ & _ & _ & Ct & _).
  rewrite <- Ct in G.
  pose proof (update_clockless _ _ _ _ _ _ _ _ _ H1) as (k1 & K1 & E1).
  pose proof (update_clockless _ _ _ _ _ _ _ _ _ H2) as (k2 & K2 & E2).
  rewrite K1 in K2. injection K2 as <-.
  apply update_lane_stage in H1 as (a1 & e1 & L1 & Hl1 & Ha1 & Ht1 & ->).
  apply update_lane_stage in H2 as (a2 & e2 & L2 & Hl2 & Ha2 & Ht2 & ->).
  destruct (lane_stage_clock _ _ _ _ _ _ _ _ _ _ _ _ G L1 L2)
    as (Hl & -> & Hs).
  repeat split.
  - congruence.
  - rewrite Ha1, Ha2. unfold lane_stage in L1, L2.
    inv_bind L1 as pr1 P1. inv_bind L1 as pl1 Q1.
    inv_bind L2 as pr2 P2. inv_bind L2 as pl2 Q2.
    apply lane_change_frame in L1 as (_ & _ & _ & _ & _ & _ & A1).
    apply lane_change_frame in L2 as (_ & _ & _ & _ & _ & _ & A2).
    unfold animate. rewrite A1, A2, Hl.
    destruct (Qlt_bool 0.1 _); [destruct (Qlt_bool _ (inject_Z _))|];
      reflexivity.
  - intro N. specialize (Hs N). subst a2.
    rewrite E1, E2. congruence.
Qed.

Lemma C7_determinism_up_to_clock_witness :
  exists s1 ev1 s2 ev2,
    update conf30 free_road 0.1 0.5 100 100 cruising = Ok (s1, ev1) /\
    update conf30 free_road 0.1 0.5 200 200 cruising = Ok (s2, ev2) /\
    position s1 = position s2 /\ velocity s1 = velocity s2 /\
    acceleration s1 = acceleration s2 /\ lane s1 = lane s2.
Proof.
  do 4 eexists. split; [vm_compute; reflexivity|].
  split; [vm_compute; reflexivity|].
  destruct (C7_determinism_up_to_clock conf30 free_road 0.1 0.5 100 100 200 200
              cruising _ _ _ _ eq_refl eq_refl)
    as [(_ & Hp & Hv & Ha & _) G].
  split; [exact Hp|]. split; [exact Hv|]. split; [exact Ha|].
  apply G. split; intros _; vm_compute; reflexivity.
Defined.

(** ** Lane changes *)

Lemma Vehicle_update_no_notify conf container dt s :
  lane_changes (snd (Vehicle_update conf container dt s)) = 0%nat.
Proof.
  destruct (Vehicle_update_cases conf container dt s)
    as [(f & _ & _ & ->)|[_ ->]]; [|reflexivity].
  cbn [snd]. destruct (sound conf); reflexivity.
Qed.

Lemma lane_changes_app (a b : list event) :
  lane_changes (a ++ b) = (lane_changes a + lane_changes b)%nat.
Proof.
  unfold lane_changes. rewrite filter_app. apply length_app.
Qed.

(** C8: an update that returns leaves the lane alone when the capped
    velocity is at most 3, and when the clock is within [5.0 / speedup] of
    the last lane change; it moves the vehicle by at most one lane and
    reports at most one lane change. *)
Theorem C8_lane_change_suppression conf container dt p now now' s s' ev :
  update conf container dt p now now' s = Ok (s', ev) ->
  (velocity (capped conf container dt s) <= 3 ->
   lane s' = lane s /\ lane_changes ev = 0%nat) /\
  (now - last_lane_change s <= 5.0 / speedup conf ->
   lane s' = lane s /\ lane_changes ev = 0%nat) /\
  (lane s' = lane s \/ lane s' = (lane s + 1)%Z \/ lane s' = (lane s - 1)%Z) /\
  (lane_changes ev <= 1)%nat.
Proof.
  intro H.
  apply update_lane_stage in H as (s4 & ev2 & L & -> & _ & _ & ->).
  rewrite lane_changes_app, Vehicle_update_no_notify.
  destruct (capped_frame conf container dt s)
    as (_ & Cl & _ & _ & _ & _ & Ct & Cl').
  rewrite <- Cl', <- Cl, <- Ct. clear Cl Cl' Ct.
  remember (capped conf container dt s) as c eqn:Ec. clear Ec.
  unfold lane_stage in L. inv_bind L as pr Hpr. inv_bind L as pl Hpl.
  apply lane_change_cases in L
    as [[-> ->]|(lim & Hlim & G1 & G2 & [(-> & -> & _)|(-> & -> & _)])].
  - repeat split; auto.
  - assert (E : lim = 5.0 / speedup conf).
    { unfold pydiv in Hlim. destruct (Qeq_bool _ 0); congruence. }
    subst lim. goal_fields. cbn.
    repeat split; intros; try lra; auto.
  - assert (E : lim = 5.0 / speedup conf).
    { unfold pydiv in Hlim. destruct (Qeq_bool _ 0); congruence. }
    subst lim. goal_fields. cbn.
    repeat split; intros; try lra; auto.
Qed.

Lemma C8_lane_change_suppression_witness :
  exists s' ev,
    update conf30 free_road 0.1 0.5 100 100 just_changed = Ok (s', ev) /\
    100 - last_lane_change just_changed <= 5.0 / speedup conf30 /\
    lane s' = lane just_changed /\ lane_changes ev = 0%nat.
Proof.
  do 2 eexists. split; [vm_compute; reflexivity|].
  split; [vm_compute; discriminate|].
  apply (C8_lane_change_suppression conf30 free_road 0.1 0.5 100 100
           just_changed _ _ eq_refl).
  vm_compute; discriminate.
Defined.

(** The time of the last lane change is the clock read at that change. *)
Lemma update_stamps_lane_change conf container dt p now now' s s' ev :
  update conf container dt p now now' s = Ok (s', ev) ->
  (lane s' = lane s /\ last_lane_change s' = last_lane_change s) \/
  (lane s' <> lane s /\ last_lane_change s' = now').
Proof.
  intro H.
  apply update_lane_stage in H as (s4 & ev2 & L & -> & _ & -> & _).
  destruct (capped_frame conf container dt s)
    as (_ & Cl & _ & _ & _ & _ & Ct & Cl').
  rewrite <- Cl', <- Cl, <- Ct. clear Cl Cl' Ct.
  remember (capped conf container dt s) as c eqn:Ec. clear Ec.
  unfold lane_stage in L. inv_bind L as pr Hpr. inv_bind L as pl Hpl.
  apply lane_change_cases in L
    as [[-> ->]|(lim & _ & _ & _ & [(-> & _)|(-> & _)])].
  - left. split; reflexivity.
  - right. goal_fields. split; [lia | reflexivity].
  - right. goal_fields. split; [lia | reflexivity].
Qed.

(** ** The probability of a move to the left *)

(** The comparison with [x ** (3/4)] decided on rationals is the comparison
    with the real power. *)
Lemma lt_pyval_real (p b : Q) :
  0 <= p -> 0 < b ->
  (Qlt_bool (p * p * p * p) (b * b * b) = true <->
   (Q2R p < Rpower (Q2R b) (3 / 4))%R).
Proof.
  intros P B.
  assert (Bp : (0 < Q2R b)%R) by (rewrite <- RMicromega.Q2R_0; apply Qlt_Rlt, B).
  assert (Pp : (0 <= Q2R p)%R) by (rewrite <- RMicromega.Q2R_0; apply Qle_Rle, P).
  set (y := Rpower (Q2R b) (3 / 4)).
  assert (Y : (0 < y)%R) by (apply exp_pos).
  assert (Y4 : (y * y * y * y = Q2R b * Q2R b * Q2R b)%R).
  { transitivity (Rpower y 4).
    - replace 4%R with (INR 4) by (simpl; Lra.lra).
      rewrite Rpower_pow by exact Y. simpl. ring.
    - unfold y. rewrite Rpower_mult.
      replace (3 / 4 * 4)%R with (INR 3) by (simpl; Lra.lra).
      rewrite Rpower_pow by exact Bp. simpl. ring. }
  rewrite Qlt_bool_true. split; intro H.
  - apply Qlt_Rlt in H. rewrite !Q2R_mult in H. rewrite <- Y4 in H.
    destruct (Rlt_le_dec (Q2R p) y) as [L|L]; [exact L|].
    exfalso.
    assert (M2 : (y * y <= Q2R p * Q2R p)%R) by Lra.nra.
    assert (N2 : (0 < y * y)%R) by Lra.nra.
    assert (M4 : (y * y * (y * y) <= Q2R p * Q2R p * (Q2R p * Q2R p))%R)
      by Lra.nra.
    Lra.lra.
  - apply Rlt_Qlt. rewrite !Q2R_mult. rewrite <- Y4.
    assert (M2 : (Q2R p * Q2R p < y * y)%R) by Lra.nra.
    assert (N2 : (0 <= Q2R p * Q2R p)%R) by Lra.nra.
    assert (M4 : (Q2R p * Q2R p * (Q2R p * Q2R p) < y * y * (y * y))%R)
      by Lra.nra.
    Lra.lra.
Qed.

Lemma Qdiv_gt_1 (a b : Q) : 0 < b -> b < a -> 1 < a / b.
Proof.
  intros B A. apply Qlt_shift_div_l; [exact B | lra].
Qed.

(** A draw below 1 is below [b ** (3/4)] when [b] is above 1. *)
Lemma lt_pyval_above_1 (b p : Q) :
  1 < b -> p < 1 -> lt_pyval p (Pow34 b) = Ok true.
Proof.
  intros B P. unfold lt_pyval.
  assert (Z : Qlt_bool b 0 = false) by (apply Qlt_bool_false; lra).
  rewrite Z. f_equal. apply orb_true_iff.
  destruct (Qlt_le_dec p 0) as [M|M]; [left | right];
    apply Qlt_bool_true; [exact M|].
  assert (B3 : 1 < b * b * b) by nra.
  assert (P2 : p * p < 1) by nra.
  assert (P2' : 0 <= p * p) by nra.
  assert (P4 : p * p * (p * p) < 1) by nra.
  lra.
Qed.

(** The lane-change block moves the vehicle to the left when its guard
    holds, the right branch is refused by the draw or by the lane bound, the
    draw is below [p_left] and the guards of the left branch hold. *)
Lemma left_branch_taken (self : Vehicle) conf p now now' pr pl veh_lb veh_rb
    dlf dlb drf drb :
  lt_pyval p pl = Ok true ->
  ~ speedup conf == 0 ->
  5.0 / speedup conf < now - last_lane_change self ->
  3 < velocity self ->
  (nb_lanes conf <= lane self + 1)%Z \/ pr <= p ->
  (0 < lane self)%Z ->
  3 * safe_distance self < position self ->
  left_front_clear self dlf -> left_back_clear veh_lb dlb ->
  lane_change self conf p now now' pr pl veh_lb veh_rb dlf dlb drf drb
  = Ok (set_last_lane_change now' (set_lane (lane self - 1) self),
        [NotifyLaneChange (lane self)]).
Proof.
  intros T S G1 G2 R L1 L2 L3 L4.
  unfold lane_change.
  assert (Z : pydiv 5.0 (speedup conf) = Ok (5.0 / speedup conf)).
  { unfold pydiv. apply Qeq_bool_false in S. rewrite S. reflexivity. }
  rewrite Z. cbn [bind].
  apply Qlt_bool_true in G1, G2. rewrite G1, G2. cbn [andb].
  assert (RF : Ok (Qlt_bool p pr) &&& Ok (lane self + 1 <? nb_lanes conf)%Z
               = Ok false).
  { destruct R as [R|R].
    - apply Z.ltb_ge in R. rewrite R.
      destruct (Qlt_bool p pr); reflexivity.
    - apply Qlt_bool_false in R. rewrite R. reflexivity. }
  rewrite RF. cbn [andM bind].
  rewrite T. apply Z.ltb_lt in L1. rewrite L1.
  apply Qlt_bool_true in L2. rewrite L2. cbn [andM].
  assert (F1 : Ok (is_None dlf)
               ||| (d0 <- need dlf ;; Ok (Qlt_bool (safe_distance self) d0))
               = Ok true).
  { destruct dlf as [x|]; cbn in *; [|reflexivity].
    apply Qlt_bool_true in L3. rewrite L3. reflexivity. }
  assert (F2 : Ok (is_None dlb)
               ||| (d0 <- need dlb ;; v <- need_vehicle veh_lb ;;
                    Ok (Qlt_bool (safe_distance v) d0))
               = Ok true).
  { destruct dlb as [x|]; cbn in *; [|reflexivity].
    destruct veh_lb as [v|]; [|contradiction]. cbn.
    apply Qlt_bool_true in L4. rewrite L4. reflexivity. }
  rewrite F1, F2. cbn [andM bind]. goal_fields.
  replace (lane self - 1 + 1)%Z with (lane self) by lia. reflexivity.
Qed.

(** C10: when the conditions of [prob_left] are met (its answer is not 0)
    with a front gap [0 < df < safe_distance], the answer is
    [(safe_distance / df) ** (3/4)], a number above 1; every draw below 1 is
    below it, and the lane-change block, once its guard on clock and
    velocity holds and the right branch is refused, moves the vehicle to the
    left whenever the guards on lane, position and left neighbours hold. *)
Theorem C10_prob_left_exceeds_1 (self : Vehicle) container conf af vf d
    dlf vlf dlb vlb pl :
  0 < d -> d < safe_distance self ->
  prob_left self container conf af vf (Some d) dlf vlf dlb vlb = Ok pl ->
  pl <> Num 0 ->
  pl = Pow34 (safe_distance self / d) /\
  1 < safe_distance self / d /\
  (1 < Rpower (Q2R (safe_distance self / d)) (3 / 4))%R /\
  (forall p, p < 1 -> lt_pyval p pl = Ok true) /\
  (forall p now now' pr veh_lb veh_rb dlf' dlb' drf drb,
     p < 1 ->
     ~ speedup conf == 0 ->
     5.0 / speedup conf < now - last_lane_change self ->
     3 < velocity self ->
     (nb_lanes conf <= lane self + 1)%Z \/ pr <= p ->
     (0 < lane self)%Z ->
     3 * safe_distance self < position self ->
     left_front_clear self dlf' -> left_back_clear veh_lb dlb' ->
     lane_change self conf p now now' pr pl veh_lb veh_rb dlf' dlb' drf drb
     = Ok (set_last_lane_change now' (set_lane (lane self - 1) self),
           [NotifyLaneChange (lane self)])).
Proof.
  intros D0 D1 H N.
  assert (B : 1 < safe_distance self / d) by (apply Qdiv_gt_1; assumption).
  assert (E : pl = Pow34 (safe_distance self / d)).
  { unfold prob_left in H. inv_bind H as c Hc. destruct c.
    - cbn [need bind] in H. unfold pydiv in H.
      assert (Z : Qeq_bool d 0 = false) by (apply Qeq_bool_false; lra).
      rewrite Z in H. cbn [bind] in H. congruence.
    - exfalso. apply N. congruence. }
  subst pl. set (b := safe_distance self / d) in *.
  split; [reflexivity|]. split; [exact B|].
  split.
  { rewrite <- RMicromega.Q2R_1.
    apply lt_pyval_real; [lra | lra |].
    apply Qlt_bool_true. nra. }
  split; [intros p P; apply lt_pyval_above_1; assumption|].
  intros p now now' pr veh_lb veh_rb dlf' dlb' drf drb
    P S G1 G2 R L1 L2 L3 L4.
  apply left_branch_taken; try assumption.
  apply lt_pyval_above_1; assumption.
Qed.

Lemma C10_prob_left_exceeds_1_witness :
  0 < 10 /\ 10 < safe_distance tailgater /\
  prob_left tailgater behind_slow_lead conf30 (Some 0) (Some 20) (Some 10)
    None None None None = Ok (Pow34 (safe_distance tailgater / 10)) /\
  Pow34 (safe_distance tailgater / 10) <> Num 0 /\
  (1 < Rpower (Q2R (safe_distance tailgater / 10)) (3 / 4))%R /\
  lane_change tailgater conf30 0.99 100 100 0.9
    (Pow34 (safe_distance tailgater / 10)) None None None None None None
  = Ok (set_last_lane_change 100 (set_lane 1 tailgater),
        [NotifyLaneChange 2]).
Proof.
  assert (A : 0 < 10) by reflexivity.
  assert (B : 10 < safe_distance tailgater) by reflexivity.
  assert (C : prob_left tailgater behind_slow_lead conf30 (Some 0) (Some 20)
                (Some 10) None None None None
              = Ok (Pow34 (safe_distance tailgater / 10)))
    by (vm_compute; reflexivity).
  assert (D : Pow34 (safe_distance tailgater / 10) <> Num 0) by discriminate.
  destruct (C10_prob_left_exceeds_1 tailgater behind_slow_lead conf30
              (Some 0) (Some 20) 10 None None None None _ A B C D)
    as (_ & _ & R & _ & L).
  split; [exact A|]. split; [exact B|]. split; [exact C|].
  split; [exact D|]. split; [exact R|].
  apply (L 0.99 100 100 0.9 None None None None None None).
  - reflexivity.
  - vm_compute; discriminate.
  - vm_compute; reflexivity.
  - reflexivity.
  - left. vm_compute; discriminate.
  - reflexivity.
  - reflexivity.
  - exact I.
  - exact I.
Defined.

(** Whatever the draw below 1, the update moves this car to the left. *)
Lemma tailgater_moves_left_for_every_draw (p : Q) :
  p < 1 ->
  exists s' ev,
    update conf30 behind_slow_lead 0.1 p 100 100 tailgater_before
      = Ok (s', ev) /\
    lane s' = 1%Z /\ lane_changes ev = 1%nat.
Proof.
  intro P.
  destruct (update_returns conf30 behind_slow_lead 0.1 p 100 100
              tailgater_before) as [[s' ev] H].
  - apply Car_init_wf; split; vm_compute; discriminate.
  - intros q n [E|[E|[E|[E|[E|E]]]]]; try discriminate E.
    injection E as <-. vm_compute. discriminate.
  - vm_compute. discriminate.
  - intros f E. injection E as <-. vm_compute. discriminate.
  - exists s', ev. split; [exact H|].
    apply update_lane_stage in H as (s4 & ev2 & L & -> & _ & _ & ->).
    rewrite lane_changes_app, Vehicle_update_no_notify.
    unfold lane_stage in L.
    inv_bind L as pr Hpr. inv_bind L as pl Hpl.
    assert (Epr : pr = 0.9) by (vm_compute in Hpr; congruence).
    assert (Epl : exists b, pl = Pow34 b /\ 1 < b).
    { vm_compute in Hpl. injection Hpl as <-.
      eexists. split; reflexivity. }
    destruct Epl as (b & -> & B). subst pr.
    rewrite left_branch_taken in L.
    + injection L as <- <-. split; reflexivity.
    + apply lt_pyval_above_1; [exact B | exact P].
    + vm_compute. discriminate.
    + vm_compute. reflexivity.
    + vm_compute. reflexivity.
    + left. vm_compute. discriminate.
    + reflexivity.
    + vm_compute. reflexivity.
    + exact I.
    + exact I.
Qed.

(** An update of an automatic car keeps the safe distance at or above the
    extremely safe one when the velocity after the cap is within 1 of the
    front vehicle's. *)
Lemma safe_distance_kept_within_1 conf container dt p now now'
    (s s' : Vehicle) ev :
  wf_profile s ->
  (forall f, front container (capped conf container dt s) = Some f ->
     Qabs (velocity (capped conf container dt s) - velocity f) < 1) ->
  update conf container dt p now now' s = Ok (s', ev) ->
  extremely_safe_distance s' <= safe_distance s'.
Proof.
  intros W F H.
  pose proof (update_frame _ _ _ _ _ _ _ _ _ H) as (P & _).
  destruct (safe_distance_after_update _ _ _ _ _ _ _ _ _ W H)
    as [_ [G|(C & f & Hf & (_ & _ & D) & _ & _ & E)]]; [exact G|].
  specialize (F f Hf).
  destruct (capped_frame conf container dt s) as (Cp & _).
  rewrite Cp in D. rewrite P.
  unfold wf_profile, between in W. rewrite C in W.
  destruct W as (_ & _ & _ & _ & _ & _ & _ & _ & We & (Wd & _) & Wt & _).
  apply Qabs_Qlt_condition in F, D.
  destruct (Qmax_cases (extremely_safe_distance s)
              (velocity (capped conf container dt s) * safe_time s))
    as [[M Q]|[M Q]]; rewrite Q in E; nra.
Qed.

(** Scenario B through the whole update: the position, the velocity and the
    countdown written by the emergency speed change are still there when the
    update returns. *)
Lemma update_scenario_B conf container dt p now now' (s f s' : Vehicle) ev :
  wf_profile s ->
  (forall q n, front container q = Some n -> n = f) ->
  front container s = Some f ->
  too_close dt f s ->
  position f == 5 -> velocity f == 0 -> extremely_safe_distance s == 4 ->
  update conf container dt p now now' s = Ok (s', ev) ->
  position s' == 1.0 /\ velocity s' == 0 /\ emergency s' = fps conf.
Proof.
  intros W U Hf Hc Pf Vf Es H.
  destruct (update_after_correction _ _ _ _ _ _ _ _ _ _ Hf Hc H) as [Hp He].
  split; [rewrite Hp; lra|]. split; [|exact He].
  apply update_velocity in H as [->|(_ & n & Hn & ->)].
  - destruct (capped_frame conf container dt s)
      as (_ & _ & _ & _ & -> & _).
    destruct (Vehicle_update_cases conf container dt s)
      as [(f' & Hf' & _ & ->)|[Hno _]].
    + rewrite Hf in Hf'. injection Hf' as <-. unfold corrected. goal_fields.
      pose proof (wf_desired_velocity s W) as D.
      destruct (Qmin_cases (desired_velocity s) (velocity f))
        as [[A ->]|[A ->]]; lra.
    + exfalso. apply (Hno f Hf). exact Hc.
  - apply U in Hn. subst n. exact Vf.
Qed.

(** ** The emergency speed change through the whole update *)

Lemma wf_AMAX (p : Profile) : wf_profile p -> 1 <= HV_AMAX p.
Proof.
  unfold wf_profile, between. intro H.
  destruct (cls p);
    destruct H as (_ & _ & _ & _ & _ & (H & _) & _); lra.
Qed.

Lemma wf_zone_factors (p : Profile) :
  wf_profile p ->
  2 <= HV_K1 p /\ 1 <= HV_K2 p /\
  (cls p = AutomaticCar -> exists k3, HV_K3 p = Some k3 /\ 1 <= k3).
Proof.
  unfold wf_profile. intro H.
  destruct (cls p).
  - destruct H as (_ & K1 & K2 & _).
    split; [lra|]. split; [lra | discriminate].
  - destruct H as (_ & K1 & K2 & _).
    split; [lra|]. split; [lra | discriminate].
  - destruct H as (_ & K1 & K2 & _ & _ & _ & _ & _ & _ & _ & _ & _
                   & (k3 & E & K3) & _).
    split; [lra|]. split; [lra|]. intros _. exists k3. split; [exact E | lra].
Qed.

(** A vehicle whose gap to the front vehicle is at most its safe distance,
    that is not faster than the front vehicle and whose acceleration is not
    above the front vehicle's is in the braking zone, where neither of the
    first two rules applies: the controller returns [- 0.1]. *)
Lemma calc_acceleration_at_front (k : Vehicle) conf a v d :
  wf_profile k ->
  0 < d -> d <= safe_distance k ->
  velocity k <= v ->
  acceleration k <= a ->
  calc_acceleration k conf (Some a) (Some v) (Some d) = Ok (- 0.1, k).
Proof.
  intros W D0 D V A.
  destruct (wf_zone_factors k W) as (K1 & K2 & K3).
  assert (E1 : Qle_bool (HV_K1 k * safe_distance k) d = false).
  { apply Qle_bool_false. nra. }
  assert (E2 : Qlt_bool (HV_K2 k * safe_distance k) d = false).
  { apply Qlt_bool_false. nra. }
  assert (E3 : Qlt_bool a (acceleration k) = false).
  { apply Qlt_bool_false. exact A. }
  assert (E4 : Qlt_bool v (velocity k) = false).
  { apply Qlt_bool_false. exact V. }
  assert (B : braking_zone k (Some a) (Some v) d = Ok (- 0.1)).
  { unfold braking_zone. rewrite E3, !andb_false_r.
    cbn [need bind]. rewrite E4. reflexivity. }
  unfold calc_acceleration.
  destruct (cls k) eqn:C.
  - unfold HumanVehicle_calc_acceleration.
    rewrite E1, E2, andb_false_r, B. reflexivity.
  - unfold HumanVehicle_calc_acceleration.
    rewrite E1, E2, andb_false_r, B. reflexivity.
  - destruct (K3 eq_refl) as (k3 & Ek3 & Hk3).
    assert (E5 : Qlt_bool (k3 * safe_distance k) d = false).
    { apply Qlt_bool_false. nra. }
    unfold AutomaticCar_calc_acceleration.
    rewrite E1, E2, andb_false_r, Ek3. cbn [need_attr bind]. rewrite E5.
    destruct (Qlt_bool d (HV_K2 k * safe_distance k));
      cbn [andM bind]; rewrite B; reflexivity.
Qed.

(** C4, as stated, fails after [update]: in the scenario of the claim (the
    front vehicle standing at position 5 with acceleration 0, the vehicle at
    position 0 driving at 20 m/s) the emergency speed change is made, and
    the acceleration after the update is -0.1, not the front vehicle's 0:
    the last step of the update computes it anew. *)
Lemma C4_counterexample :
  front behind_parked driving_20 = Some parked_at_5 /\
  Qabs (position parked_at_5 - new_position 0.1 driving_20)
    < 0.99 * extremely_safe_distance driving_20 /\
  exists s' ev,
    update conf30 behind_parked 0.1 0.5 100 100 driving_20 = Ok (s', ev) /\
    acceleration s' == - 0.1 /\
    ~ acceleration s' == acceleration parked_at_5.
Proof.
  split; [reflexivity|]. split; [vm_compute; reflexivity|].
  eexists. eexists. split; [vm_compute; reflexivity|].
  split; [reflexivity|]. vm_compute. discriminate.
Qed.

(** C4, amended: when the front neighbour exists and
    [|front.position - new_position| < 0.99 * extremely_safe_distance], the
    base step [Vehicle.update] writes the front vehicle's velocity and
    acceleration, the position [front.position - extremely_safe_distance]
    and the countdown [fps].  When the whole update returns, the position
    and the countdown are still those.  For a vehicle built by a constructor
    whose front neighbour is the same after the move, the velocity is the
    smaller of [desired_velocity] and the front vehicle's velocity, and the
    acceleration is [- 0.1], computed anew by the braking zone; with the
    front standing at position 5 and the vehicle at position 0 with
    extremely safe distance 4 this is position 1, velocity 0 and countdown
    [fps]. *)
Theorem C4_emergency_correction conf container dt p now now'
    (s f s' : Vehicle) ev :
  front container s = Some f ->
  Qabs (position f - new_position dt s) < 0.99 * extremely_safe_distance s ->
  update conf container dt p now now' s = Ok (s', ev) ->
  let s1 := fst (Vehicle_update conf container dt s) in
  (velocity s1 = velocity f /\ acceleration s1 = acceleration f /\
   position s1 = position f - extremely_safe_distance s /\
   emergency s1 = fps conf) /\
  (position s' = position f - extremely_safe_distance s /\
   emergency s' = fps conf) /\
  (wf_profile s ->
   front container (capped conf container dt s) = Some f ->
   velocity s' = Qmin (desired_velocity s) (velocity f) /\
   acceleration s' == - 0.1 /\
   (position f == 5 -> velocity f == 0 -> position s == 0 ->
    extremely_safe_distance s == 4 ->
    position s' == 1.0 /\ velocity s' == 0 /\ emergency s' = fps conf)).
Proof.
  intros Hf Hclose H s1.
  assert (S1 : s1 = corrected conf f s).
  { subst s1.
    destruct (Vehicle_update_cases conf container dt s)
      as [(f' & Hf' & _ & ->)|[Hno _]].
    - rewrite Hf in Hf'. injection Hf' as <-. reflexivity.
    - exfalso. apply (Hno f Hf). exact Hclose. }
  destruct (update_after_correction _ _ _ _ _ _ _ _ _ _ Hf Hclose H)
    as [Hp He].
  split; [rewrite S1; repeat split|].
  split; [split; assumption|].
  intros W Hf2.
  destruct (capped_frame conf container dt s)
    as (Cprof & _ & Cpos & _ & Cvel & Csd & _).
  fold s1 in Cpos, Cvel.
  assert (Cacc : acceleration (capped conf container dt s) = acceleration f).
  { change (acceleration (capped conf container dt s))
      with (acceleration s1). rewrite S1. reflexivity. }
  assert (Vs1 : velocity s1 = velocity f) by (rewrite S1; reflexivity).
  assert (Ps1 : position s1 = position f - extremely_safe_distance s)
    by (rewrite S1; reflexivity).
  rewrite Vs1 in Cvel. rewrite Ps1 in Cpos.
  pose proof (wf_esd s W) as Esd.
  pose proof (wf_AMAX s W) as Amax.
  destruct (update_inv _ _ _ _ _ _ _ _ _ H)
    as (pr & pl & vlb & vrb & dlf & dlb & drf & drb & s4 & ev2 & acc & s6
        & Hlc & Hca & -> & _).
  rewrite Hf2 in Hca. cbn [option_map] in Hca.
  destruct (lane_change_frame _ _ _ _ _ _ _ _ _ _ _ _ _ _ _ Hlc)
    as (Lprof & _ & Lvel & Lacc & _ & Lsd & _).
  destruct (animate_frame s4) as (Aprof & _ & _ & Avel & Aacc & _ & Asd & _).
  assert (Hk : calc_acceleration (animate s4) conf (Some (acceleration f))
                 (Some (velocity f))
                 (Some (position f - position (capped conf container dt s)))
               = Ok (- 0.1, animate s4)).
  { apply calc_acceleration_at_front.
    - unfold wf_profile. rewrite Aprof, Lprof, Cprof. exact W.
    - rewrite Cpos. lra.
    - rewrite Asd, Lsd, Csd, Cpos.
      pose proof (Q.le_max_l (extremely_safe_distance s)
                    (velocity (capped conf container dt s) * safe_time s)).
      lra.
    - rewrite Avel, Lvel, Cvel. apply Q.le_min_r.
    - rewrite Aacc, Lacc, Cacc. apply Qle_refl. }
  rewrite Hk in Hca. injection Hca as <- <-.
  assert (V : velocity (set_acceleration
                          (Qmin (HV_AMAX (animate s4)) (- 0.1)) (animate s4))
              = Qmin (desired_velocity s) (velocity f)).
  { goal_fields. rewrite Avel, Lvel. exact Cvel. }
  split; [exact V|]. split.
  - goal_fields.
    assert (PA : HV_AMAX (animate s4) = HV_AMAX s).
    { change (HV_AMAX (prof (animate s4)) = HV_AMAX (prof s)).
      rewrite Aprof, Lprof, Cprof. reflexivity. }
    rewrite PA. apply Q.min_r. lra.
  - intros Pf Vf _ Es. split; [rewrite Hp; lra|]. split; [|exact He].
    rewrite V. pose proof (wf_desired_velocity s W) as Dv.
    destruct (Qmin_cases (desired_velocity s) (velocity f))
      as [[_ ->]|[Q1 ->]]; lra.
Qed.

Lemma C4_emergency_correction_witness :
  front behind_parked driving_20 = Some parked_at_5 /\
  Qabs (position parked_at_5 - new_position 0.1 driving_20)
    < 0.99 * extremely_safe_distance driving_20 /\
  exists s' ev,
    update conf30 behind_parked 0.1 0.5 100 100 driving_20 = Ok (s', ev) /\
    position s' == 1.0 /\ velocity s' == 0 /\ emergency s' = 30%Z /\
    acceleration s' == - 0.1.
Proof.
  split; [reflexivity|]. split; [vm_compute; reflexivity|].
  eexists. eexists. split; [vm_compute; reflexivity|].
  destruct (C4_emergency_correction conf30 behind_parked 0.1 0.5 100 100
              driving_20 parked_at_5 _ _ eq_refl eq_refl eq_refl)
    as (_ & _ & K).
  destruct (K driving_20_wf eq_refl) as (_ & A & B).
  destruct B as (P & V & E); try (vm_compute; reflexivity).
  repeat split; assumption.
Defined.

(** * Further properties of the update *)

(** ** Bounds on the acceleration *)

(** What the three constructors have in common. *)
Lemma wf_bounds (p : Profile) :
  wf_profile p ->
  HV_A0 p == 1 /\ 1 <= HV_L p /\ HV_L p <= 20 /\
  1 <= HV_AMAX p /\ HV_AMAX p <= 4 /\
  5 <= HV_BRAKING p /\ HV_BRAKING p <= 9 /\
  18 <= desired_velocity p /\ desired_velocity p <= 35 /\
  1 <= epsilon p /\ epsilon p <= 10.
Proof.
  unfold wf_profile, between. intro H.
  destruct (cls p);
    destruct H as (_ & _ & _ & A0 & L & (A1 & A2) & B & _ & _ & (D1 & D2)
                   & _ & E); try destruct L as (L1 & L2);
    try destruct E as ((E1 & E2) & _); try destruct E as (E1 & E2);
    repeat split; lra.
Qed.

Lemma reach_desired_nonneg (self : Vehicle) num den a :
  wf_profile self -> 0 <= num -> 0 < den ->
  reach_desired self num den = Ok a -> 0 <= a.
Proof.
  intros W N D H. apply wf_bounds in W.
  destruct W as (A0 & L1 & _ & A1 & _).
  unfold reach_desired in H.
  destruct (Qeq_bool _ 0); [injection H as <-; lra|].
  destruct (Qlt_bool _ _); [injection H as <-; lra|].
  inv_bind H as q Hq. injection H as <-.
  unfold pydiv in Hq. destruct (Qeq_bool den 0); [discriminate|].
  injection Hq as <-.
  assert (Q0 : 0 <= num / den).
  { unfold Qdiv. apply Qmult_le_0_compat; [exact N|].
    apply Qlt_le_weak, Qinv_lt_0_compat, D. }
  assert (Q1 : 0 <= num / den * HV_L self) by nra.
  assert (Q2 : 0 <= num / den * HV_L self * HV_AMAX self) by nra.
  destruct (Qmin_cases (HV_AMAX self) (num / den * HV_L self * HV_AMAX self))
    as [[_ ->]|[_ ->]]; lra.
Qed.

Lemma adaptive_zone_lower (self : Vehicle) v a :
  wf_profile self -> 0 <= v ->
  adaptive_zone self (Some v) = Ok a -> - HV_BRAKING self <= a.
Proof.
  intros W V H. pose proof (wf_bounds self W) as (_ & _ & _ & _ & _ & B & _).
  unfold adaptive_zone in H. cbn [need bind] in H.
  destruct (Qlt_bool v (velocity self)) eqn:E.
  - inv_bind H as q Hq. injection H as <-.
    destruct (Qmax_cases (- HV_BRAKING self)
                (q * HV_L self * HV_BRAKING self)) as [[M ->]|[M ->]]; lra.
  - apply Qlt_bool_false in E.
    assert (0 <= a); [|lra].
    apply (reach_desired_nonneg self (v - velocity self) (v + 0.01));
      try assumption; lra.
Qed.

Lemma braking_zone_lower (self : Vehicle) af vf d a :
  wf_profile self ->
  braking_zone self af vf d = Ok a -> - HV_BRAKING self <= a.
Proof.
  intros W H. pose proof (wf_bounds self W) as (_ & _ & _ & _ & _ & B & _).
  unfold braking_zone in H.
  destruct (_ && _); [injection H as <-; lra|].
  inv_bind H as v Hv.
  destruct (Qlt_bool v (velocity self)); [|injection H as <-; lra].
  inv_bind H as q Hq. injection H as <-.
  destruct (Qmax_cases (- HV_BRAKING self) (- (q * d - HV_BRAKING self)))
    as [[M ->]|[M ->]]; lra.
Qed.

(** The controller of cars and trucks never asks for more braking than
    [HV_BRAKING]. *)
Lemma HumanVehicle_calc_acceleration_lower (self : Vehicle) conf af vf df a s' :
  wf_profile self ->
  0 <= velocity self -> velocity self <= desired_velocity self ->
  (forall v, vf = Some v -> 0 <= v) ->
  HumanVehicle_calc_acceleration self conf af vf df = Ok (a, s') ->
  - HV_BRAKING self <= a.
Proof.
  intros W V0 V1 F H.
  pose proof (wf_bounds self W) as (_ & _ & _ & _ & _ & B & _).
  assert (Z1 : forall x, acceleration_zone self = Ok x -> - HV_BRAKING self <= x).
  { intros x Hx. assert (0 <= x); [|lra].
    apply (reach_desired_nonneg self _ _ x W) in Hx; [exact Hx | lra | lra]. }
  unfold HumanVehicle_calc_acceleration in H.
  destruct df as [d|].
  - destruct (Qle_bool _ d).
    + inv_bind H as x Hx. injection H as <- _. apply Z1, Hx.
    + destruct (_ && _).
      * inv_bind H as x Hx. injection H as <- _.
        destruct vf as [v|]; [|discriminate].
        apply (adaptive_zone_lower self v x W); [apply F; reflexivity | exact Hx].
      * inv_bind H as x Hx. injection H as <- _.
        apply (braking_zone_lower self af vf d x W Hx).
  - inv_bind H as x Hx. injection H as <- _. apply Z1, Hx.
Qed.

(** X1: the acceleration stored by an update that returns is at most the
    vehicle's maximum acceleration [HV_AMAX]. *)
Theorem X1_acceleration_at_most_AMAX conf container dt p now now' s s' ev :
  update conf container dt p now now' s = Ok (s', ev) ->
  acceleration s' <= HV_AMAX s.
Proof.
  intro H.
  pose proof (update_frame _ _ _ _ _ _ _ _ _ H) as (P & _).
  apply update_inv in H
    as (pr & pl & vlb & vrb & dlf & dlb & drf & drb & s4 & ev2 & acc & s6
        & _ & _ & -> & _).
  cbn [prof set_acceleration] in P. rewrite <- P. goal_fields.
  destruct (Qmin_cases (HV_AMAX s6) acc) as [[M ->]|[M ->]]; lra.
Qed.

Lemma X1_acceleration_at_most_AMAX_witness :
  exists s' ev,
    update conf30 behind_parked 0.1 0.5 100 100 driving_20 = Ok (s', ev) /\
    acceleration s' <= HV_AMAX driving_20.
Proof.
  do 2 eexists. split; [vm_compute; reflexivity|].
  apply (X1_acceleration_at_most_AMAX conf30 behind_parked 0.1 0.5 100 100
           driving_20 _ _ eq_refl).
Defined.

Lemma human_acceleration_bounds conf container dt p now now'
    (s s' : Vehicle) ev :
  wf_profile s -> cls s <> AutomaticCar ->
  neighbours_nonneg container ->
  update conf container dt p now now' s = Ok (s', ev) ->
  - HV_BRAKING s <= acceleration s' /\ acceleration s' <= HV_AMAX s.
Proof.
  intros W C N H.
  pose proof (update_frame _ _ _ _ _ _ _ _ _ H) as (P & _).
  pose proof (capped_velocity_nonneg conf container dt s W N) as V0.
  destruct (capped_frame conf container dt s) as (Cp & _ & _ & _ & Cv & _).
  apply update_inv in H
    as (pr & pl & vlb & vrb & dlf & dlb & drf & drb & s4 & ev2 & acc & s6
        & Hlc & Hca & -> & _).
  apply lane_change_frame in Hlc as (Lp & _ & Lv & _).
  destruct (animate_frame s4) as (Ap & _ & _ & Av & _).
  cbn [prof set_acceleration] in P.
  assert (Pa : prof (animate s4) = prof s) by congruence.
  assert (Va : velocity (animate s4) = velocity (capped conf container dt s))
    by congruence.
  pose proof (wf_bounds s W) as (_ & _ & _ & A1 & _ & B & _).
  assert (Wa : wf_profile (animate s4)) by (rewrite Pa; exact W).
  assert (V0a : 0 <= velocity (animate s4)) by (rewrite Va; exact V0).
  assert (V1a : velocity (animate s4) <= desired_velocity (animate s4)).
  { rewrite Va, Pa, Cv.
    destruct (Qmin_cases (desired_velocity s)
                (velocity (fst (Vehicle_update conf container dt s))))
      as [[? ->]|[? ->]]; lra. }
  assert (Fa : forall v,
             option_map velocity
               (front container (capped conf container dt s)) = Some v ->
             0 <= v).
  { intros v Hv.
    destruct (front container (capped conf container dt s)) as [f|] eqn:F;
      [|discriminate].
    injection Hv as <-. apply (N (capped conf container dt s) f).
    left. exact F. }
  assert (L : - HV_BRAKING s <= acc).
  { unfold calc_acceleration in Hca. rewrite <- Pa.
    destruct (cls (animate s4)) eqn:E.
    - exact (HumanVehicle_calc_acceleration_lower _ _ _ _ _ _ _
               Wa V0a V1a Fa Hca).
    - exact (HumanVehicle_calc_acceleration_lower _ _ _ _ _ _ _
               Wa V0a V1a Fa Hca).
    - rewrite Pa in E. contradiction. }
  goal_fields. rewrite P.
  destruct (Qmin_cases (HV_AMAX s) acc) as [[M ->]|[M ->]]; split; lra.
Qed.

(** X2: after an update that returns, the acceleration of a car or a truck
    built by its constructor lies between [- HV_BRAKING] and [HV_AMAX],
    provided no neighbour drives backwards. *)
Theorem X2_human_acceleration_bounds conf container dt p now now'
    (s s' : Vehicle) ev :
  wf_profile s -> cls s <> AutomaticCar ->
  neighbours_nonneg container ->
  update conf container dt p now now' s = Ok (s', ev) ->
  - HV_BRAKING s <= acceleration s' /\ acceleration s' <= HV_AMAX s.
Proof.
  apply human_acceleration_bounds.
Qed.

Lemma X2_human_acceleration_bounds_witness :
  exists s' ev,
    update conf30 behind_parked 0.1 0.5 100 100 driving_20 = Ok (s', ev) /\
    - HV_BRAKING driving_20 <= acceleration s' /\
    acceleration s' <= HV_AMAX driving_20.
Proof.
  do 2 eexists. split; [vm_compute; reflexivity|].
  eapply (X2_human_acceleration_bounds conf30 behind_parked 0.1 0.5 100 100
            driving_20).
  - exact driving_20_wf.
  - discriminate.
  - exact behind_parked_nonneg.
  - vm_compute; reflexivity.
Defined.

(** ** Lane and velocity stay in range *)

(** X3: a vehicle in one of the lanes [0 .. nb_lanes - 1] is still in one
    of them after an update that returns. *)
Theorem X3_lane_stays_on_road conf container dt p now now' s s' ev :
  (0 <= lane s < nb_lanes conf)%Z ->
  update conf container dt p now now' s = Ok (s', ev) ->
  (0 <= lane s' < nb_lanes conf)%Z.
Proof.
  intros B H.
  apply update_lane_stage in H as (s4 & ev2 & L & -> & _).
  destruct (capped_frame conf container dt s)
    as (_ & Cl & _ & _ & _ & _ & _ & Cl').
  rewrite <- Cl', <- Cl in B. clear Cl Cl'.
  remember (capped conf container dt s) as c eqn:Ec. clear Ec.
  unfold lane_stage in L. inv_bind L as pr Hpr. inv_bind L as pl Hpl.
  apply lane_change_cases in L
    as [[-> _]|(lim & _ & _ & _ & [(-> & _ & _ & R)|(-> & _ & _ & R)])];
    goal_fields; lia.
Qed.

Lemma X3_lane_stays_on_road_witness :
  (0 <= lane cruising < nb_lanes conf30)%Z /\
  exists s' ev,
    update conf30 free_road 0.1 0.5 100 100 cruising = Ok (s', ev) /\
    (0 <= lane s' < nb_lanes conf30)%Z.
Proof.
  assert (B : (0 <= lane cruising < nb_lanes conf30)%Z) by (vm_compute; intuition discriminate).
  split; [exact B|].
  do 2 eexists. split; [vm_compute; reflexivity|].
  apply (X3_lane_stays_on_road conf30 free_road 0.1 0.5 100 100 cruising
           _ _ B eq_refl).
Defined.

(** X4: after an update that returns the velocity is below
    [desired_velocity + 2]; for a car or a truck it is at most
    [desired_velocity]. *)
Theorem X4_velocity_capped conf container dt p now now' s s' ev :
  update conf container dt p now now' s = Ok (s', ev) ->
  velocity s' < desired_velocity s + 2 /\
  (cls s <> AutomaticCar -> velocity s' <= desired_velocity s).
Proof.
  intro H.
  destruct (capped_frame conf container dt s) as (Cp & _ & _ & _ & Cv & _).
  assert (V : velocity (capped conf container dt s) <= desired_velocity s).
  { rewrite Cv.
    destruct (Qmin_cases (desired_velocity s)
                (velocity (fst (Vehicle_update conf container dt s))))
      as [[? ->]|[? ->]]; lra. }
  apply update_inv in H
    as (pr & pl & vlb & vrb & dlf & dlb & drf & drb & s4 & ev2 & acc & s6
        & Hlc & Hca & -> & _).
  apply lane_change_frame in Hlc as (Lp & _ & Lv & _).
  destruct (animate_frame s4) as (Ap & _ & _ & Av & _).
  apply calc_acceleration_cases in Hca
    as [->|(Hc & d & v & _ & _ & _ & (_ & _ & D) & _ & _ & ->)]; goal_fields.
  - rewrite Av, Lv. split; intros; lra.
  - rewrite snapped_velocity.
    rewrite Ap, Lp, Cp in D, Hc.
    apply Qabs_Qlt_condition in D.
    split; [lra|]. intro C. contradiction.
Qed.

Lemma X4_velocity_capped_witness :
  exists s' ev,
    update conf30 behind_lead_30 0.1 0.5 100 100 new_automatic = Ok (s', ev) /\
    velocity s' < desired_velocity new_automatic + 2.
Proof.
  do 2 eexists. split; [vm_compute; reflexivity|].
  apply (X4_velocity_capped conf30 behind_lead_30 0.1 0.5 100 100
           new_automatic _ _ eq_refl).
Defined.

(** ** What a lane change requires *)

Lemma orM_true (a b : result bool) :
  a ||| b = Ok true -> a = Ok true \/ (a = Ok false /\ b = Ok true).
Proof.
  destruct a as [[|]|e]; simpl; intro H; auto; discriminate.
Qed.

Lemma Qmax_lt (a b c : Q) : Qmax a b < c -> a < c /\ b < c.
Proof.
  destruct (Qmax_cases a b) as [[M ->]|[M ->]]; intro H; split; lra.
Qed.

(** [_enough_room] answers [True] for a neighbour only when the gap to it
    exceeds both its length and [HV_K] times its safe distance. *)
Lemma enough_room_front_inv self container (side : string)
    (q : Container -> Vehicle -> option Vehicle) n :
  (side = "left"%string /\ q = left_front) \/
  (side = "right"%string /\ q = right_front) ->
  _enough_room self container (side, "front"%string) = Ok true ->
  q container self = Some n ->
  length n < position n - position self /\
  HV_K self * safe_distance n < position n - position self.
Proof.
  intros [[-> ->]|[-> ->]] H Hn; unfold _enough_room in H;
    cbn [fst snd String.eqb Ascii.eqb Bool.eqb andb] in H;
    rewrite Hn in H; cbn [option_map need_vehicle bind] in H;
    injection H as H; apply Qlt_bool_true in H; apply Qmax_lt; exact H.
Qed.

Lemma enough_room_back_inv self container (side : string)
    (q : Container -> Vehicle -> option Vehicle) n :
  (side = "left"%string /\ q = left_back) \/
  (side = "right"%string /\ q = right_back) ->
  _enough_room self container (side, "back"%string) = Ok true ->
  q container self = Some n ->
  length n < position self - position n /\
  HV_K self * safe_distance n < position self - position n.
Proof.
  intros [[-> ->]|[-> ->]] H Hn; unfold _enough_room in H;
    cbn [fst snd String.eqb Ascii.eqb Bool.eqb andb] in H;
    rewrite Hn in H; cbn [option_map need_vehicle bind] in H;
    injection H as H; apply Qlt_bool_true in H; apply Qmax_lt; exact H.
Qed.

(** A positive [p_right] is 0.9 and comes with enough room on the right. *)
Lemma prob_right_pos self container conf df vf db vrf drf vrb drb pr :
  prob_right self container conf df vf db vrf drf vrb drb = Ok pr ->
  0 < pr ->
  pr = 0.9 /\
  _enough_room self container ("right", "front")%string = Ok true /\
  _enough_room self container ("right", "back")%string = Ok true.
Proof.
  unfold prob_right. intros H P. inv_bind H as c Hc.
  destruct c; injection H as <-; [|exfalso; revert P; apply Qlt_irrefl].
  apply andM_true in Hc as [Hc B]. apply andM_true in Hc as [_ F].
  repeat split; assumption.
Qed.

(** What the lane-change block has checked when it moves to the right. *)
Lemma lane_change_right_inv self conf p now now' pr pl vlb vrb dlf dlb drf drb
    s' ev :
  lane_change self conf p now now' pr pl vlb vrb dlf dlb drf drb = Ok (s', ev) ->
  lane s' = (lane self + 1)%Z ->
  5.0 / speedup conf < now - last_lane_change self /\ 3 < velocity self /\
  p < pr /\ 3 * safe_distance self < position self /\
  (forall d, drf = Some d -> safe_distance self < d) /\
  (forall d, drb = Some d -> exists v, vrb = Some v /\ safe_distance v < d).
Proof.
  unfold lane_change. intros H L. inv_bind H as lim Hlim.
  assert (E : lim = 5.0 / speedup conf).
  { unfold pydiv in Hlim. destruct (Qeq_bool _ 0); congruence. }
  subst lim.
  destruct (_ && _) eqn:G;
    [|injection H as <- _; exfalso; lia].
  apply andb_true_iff in G as [G1 G2]. qbool.
  inv_bind H as r Hr. destruct r.
  - apply andM_true in Hr as [Hr Rb]. apply andM_true in Hr as [Hr Rf].
    apply andM_true in Hr as [Hr Rp]. apply andM_true in Hr as [Hp _].
    injection Hp as Hp. injection Rp as Rp. qbool.
    repeat split; try assumption.
    + intros d ->. cbn in Rf. injection Rf as Rf. qbool. exact Rf.
    + intros d ->. cbn in Rb. destruct vrb as [v|]; [|discriminate].
      cbn in Rb. injection Rb as Rb. qbool. exists v. split; trivial.
  - inv_bind H as l Hl. destruct l; injection H as <- _;
      exfalso; revert L; goal_fields; lia.
Qed.

(** X5: when an update moves the vehicle one lane to the right and the draw
    is not negative, the cooldown is over, the capped velocity exceeds 3, the
    position exceeds three safe distances, and each neighbour in the right
    lane is farther away than its length, than [HV_K] times its safe
    distance, and than the safe distance of whichever of the two vehicles is
    behind. *)
Theorem X5_right_change_has_room conf container dt p now now' s s' ev :
  0 <= p ->
  update conf container dt p now now' s = Ok (s', ev) ->
  lane s' = (lane s + 1)%Z ->
  let c := capped conf container dt s in
  5.0 / speedup conf < now - last_lane_change s /\ 3 < velocity c /\
  3 * safe_distance c < position c /\
  (forall n, right_front container c = Some n ->
     safe_distance c < position n - position c /\
     length n < position n - position c /\
     HV_K s * safe_distance n < position n - position c) /\
  (forall n, right_back container c = Some n ->
     safe_distance n < position c - position n /\
     length n < position c - position n /\
     HV_K s * safe_distance n < position c - position n).
Proof.
  intros P H L c.
  apply update_lane_stage in H as (s4 & ev2 & Hs & Hl & _).
  destruct (capped_frame conf container dt s)
    as (Cp & Cl & _ & _ & _ & _ & Ct & Cl').
  fold c in Hs, Cp, Cl, Ct.
  rewrite Hl, <- Cl', <- Cl in L. rewrite <- Ct, <- Cp.
  clearbody c. clear Cl Cl' Ct Cp Hl.
  unfold lane_stage in Hs. inv_bind Hs as pr Hpr. inv_bind Hs as pl Hpl.
  apply lane_change_right_inv in Hs as (G1 & G2 & Hp & Hq & Rf & Rb);
    [|exact L].
  apply prob_right_pos in Hpr as (_ & Ef & Eb); [|lra].
  repeat split; try assumption.
  - apply (Rf (position n - position c)). rewrite H. reflexivity.
  - eapply (enough_room_front_inv c container "right" right_front);
      eauto.
  - eapply (enough_room_front_inv c container "right" right_front);
      eauto.
  - destruct (Rb (position c - position n)) as (v & Hv & Hd);
      [rewrite H; reflexivity|].
    rewrite H in Hv. injection Hv as <-. exact Hd.
  - eapply (enough_room_back_inv c container "right" right_back);
      eauto.
  - eapply (enough_room_back_inv c container "right" right_back);
      eauto.
Qed.

Lemma X5_right_change_has_room_witness :
  0 <= 0.5 /\
  exists s' ev,
    update conf30 free_road 0.1 0.5 100 100 cruising = Ok (s', ev) /\
    lane s' = (lane cruising + 1)%Z /\
    3 < velocity (capped conf30 free_road 0.1 cruising) /\
    3 * safe_distance (capped conf30 free_road 0.1 cruising)
      < position (capped conf30 free_road 0.1 cruising).
Proof.
  assert (P : 0 <= 0.5) by (vm_compute; discriminate).
  split; [exact P|].
  do 2 eexists. split; [vm_compute; reflexivity|].
  split; [reflexivity|].
  destruct (X5_right_change_has_room conf30 free_road 0.1 0.5 100 100 cruising
              _ _ P eq_refl eq_refl) as (_ & V & R & _).
  split; [exact V | exact R].
Defined.

(** What [prob_left] has checked when its answer is a power. *)
Lemma prob_left_pow_inv self container conf af vf df dlf vlf dlb vlb b :
  prob_left self container conf af vf df dlf vlf dlb vlb = Ok (Pow34 b) ->
  (exists d, df = Some d /\ ~ d == 0 /\
     d < HV_K1 self * safe_distance self /\ b = safe_distance self / d) /\
  (epsilon self < desired_velocity self - velocity self \/
   exists v, vf = Some v /\ epsilon self < desired_velocity self - v) /\
  _enough_room self container ("left", "front")%string = Ok true /\
  _enough_room self container ("left", "back")%string = Ok true /\
  (forall v, vlf = Some v ->
     velocity self <= v \/
     exists d, dlf = Some d /\ HV_K1 self * safe_distance self <= d) /\
  (forall v, vlb = Some v ->
     v <= velocity self \/
     exists d, dlb = Some d /\ HV_K1 self * safe_distance self <= d).
Proof.
  unfold prob_left. intro H. inv_bind H as c Hc.
  destruct c; [|discriminate].
  apply andM_true in Hc as [Hc Cb]. apply andM_true in Hc as [Hc Cf].
  apply andM_true in Hc as [Hc Eb]. apply andM_true in Hc as [Hc Ef].
  apply andM_true in Hc as [Hc Dv]. apply andM_true in Hc as [Ht Dk].
  injection Ht as Ht.
  destruct df as [d|]; [|discriminate].
  cbn [truthy] in Ht. apply negb_true_iff in Ht.
  cbn [need bind] in Dk, H. injection Dk as Dk. qbool.
  unfold pydiv in H. apply Qeq_bool_false in Ht as Ht'. rewrite Ht' in H.
  cbn [bind] in H. injection H as <-.
  split; [exists d; repeat split; assumption|].
  split.
  { apply orM_true in Dv as [Dv|[_ Dv]].
    - injection Dv as Dv. qbool. left. exact Dv.
    - destruct vf as [v|]; [|discriminate]. cbn in Dv.
      injection Dv as Dv. qbool. right. exists v. split; trivial. }
  split; [exact Ef|]. split; [exact Eb|].
  split.
  - intros v ->. cbn [is_None need bind] in Cf.
    apply orM_true in Cf as [Cf|[_ Cf]]; [discriminate|].
    apply orM_true in Cf as [Cf|[_ Cf]].
    + injection Cf as Cf. qbool. left. exact Cf.
    + destruct dlf as [d'|]; [|discriminate]. cbn in Cf.
      injection Cf as Cf. qbool. right. exists d'. split; trivial.
  - intros v ->. cbn [is_None need bind] in Cb.
    apply orM_true in Cb as [Cb|[_ Cb]]; [discriminate|].
    apply orM_true in Cb as [Cb|[_ Cb]].
    + injection Cb as Cb. qbool. left. exact Cb.
    + destruct dlb as [d'|]; [|discriminate]. cbn in Cb.
      injection Cb as Cb. qbool. right. exists d'. split; trivial.
Qed.

Lemma prob_left_returns_num self container conf af vf df dlf vlf dlb vlb q :
  prob_left self container conf af vf df dlf vlf dlb vlb = Ok (Num q) ->
  q = 0.
Proof.
  unfold prob_left. intro H. inv_bind H as c Hc. destruct c.
  - inv_bind H as d Hd. inv_bind H as x Hx. discriminate.
  - injection H as <-. reflexivity.
Qed.

(** What the lane-change block has checked when it moves to the left. *)
Lemma lane_change_left_inv self conf p now now' pr pl vlb vrb dlf dlb drf drb
    s' ev :
  lane_change self conf p now now' pr pl vlb vrb dlf dlb drf drb = Ok (s', ev) ->
  lane s' = (lane self - 1)%Z ->
  5.0 / speedup conf < now - last_lane_change self /\ 3 < velocity self /\
  lt_pyval p pl = Ok true /\ 3 * safe_distance self < position self /\
  (forall d, dlf = Some d -> safe_distance self < d) /\
  (forall d, dlb = Some d -> exists v, vlb = Some v /\ safe_distance v < d).
Proof.
  unfold lane_change. intros H L. inv_bind H as lim Hlim.
  assert (E : lim = 5.0 / speedup conf).
  { unfold pydiv in Hlim. destruct (Qeq_bool _ 0); congruence. }
  subst lim.
  destruct (_ && _) eqn:G;
    [|injection H as <- _; exfalso; lia].
  apply andb_true_iff in G as [G1 G2]. qbool.
  inv_bind H as r Hr. destruct r;
    [injection H as <- _; exfalso; revert L; goal_fields; lia|].
  inv_bind H as l Hl. destruct l;
    [|injection H as <- _; exfalso; lia].
  apply andM_true in Hl as [Hl Rb]. apply andM_true in Hl as [Hl Rf].
  apply andM_true in Hl as [Hl Rp]. apply andM_true in Hl as [Hp _].
  injection Rp as Rp. qbool.
  repeat split; try assumption.
  - intros d ->. cbn in Rf. injection Rf as Rf. qbool. exact Rf.
  - intros d ->. cbn in Rb. destruct vlb as [v|]; [|discriminate].
    cbn in Rb. injection Rb as Rb. qbool. exists v. split; trivial.
Qed.

(** X6: when an update moves the vehicle one lane to the left and the draw
    is not negative, there is a front vehicle at a gap below
    [HV_K1 * safe_distance], the vehicle or that front vehicle is more than
    [epsilon] below the desired velocity, the position exceeds three safe
    distances, and each neighbour in the left lane is farther away than its
    length, than [HV_K] times its safe distance, and than the safe distance
    of whichever of the two vehicles is behind. *)
Theorem X6_left_change_is_blocked_and_has_room conf container dt p now now'
    s s' ev :
  0 <= p ->
  update conf container dt p now now' s = Ok (s', ev) ->
  lane s' = (lane s - 1)%Z ->
  let c := capped conf container dt s in
  (exists f, front container c = Some f /\
     position f - position c < HV_K1 s * safe_distance c /\
     (epsilon s < desired_velocity s - velocity c \/
      epsilon s < desired_velocity s - velocity f)) /\
  3 * safe_distance c < position c /\
  (forall n, left_front container c = Some n ->
     safe_distance c < position n - position c /\
     length n < position n - position c /\
     HV_K s * safe_distance n < position n - position c) /\
  (forall n, left_back container c = Some n ->
     safe_distance n < position c - position n /\
     length n < position c - position n /\
     HV_K s * safe_distance n < position c - position n).
Proof.
  intros P H L c.
  apply update_lane_stage in H as (s4 & ev2 & Hs & Hl & _).
  destruct (capped_frame conf container dt s)
    as (Cp & Cl & _ & _ & _ & _ & Ct & Cl').
  fold c in Hs, Cp, Cl, Ct.
  rewrite Hl, <- Cl', <- Cl in L. rewrite <- Cp.
  clearbody c. clear Cl Cl' Ct Cp Hl.
  unfold lane_stage in Hs. inv_bind Hs as pr Hpr. inv_bind Hs as pl Hpl.
  apply lane_change_left_inv in Hs as (_ & _ & Hp & Hq & Rf & Rb);
    [|exact L].
  destruct pl as [q|b].
  { exfalso. apply prob_left_returns_num in Hpl. subst q.
    cbn in Hp. injection Hp as Hp. qbool. lra. }
  apply prob_left_pow_inv in Hpl
    as ((d & Hd & _ & Dk & _) & Dv & Ef & Eb & _).
  split.
  { destruct (front container c) as [f|]; [|discriminate].
    cbn [option_map] in Hd, Dv. injection Hd as <-.
    exists f. repeat split; trivial.
    destruct Dv as [Dv|(v & Hv & Dv)]; [left; exact Dv|].
    injection Hv as <-. right. exact Dv. }
  repeat split; try assumption.
  - apply (Rf (position n - position c)). rewrite H. reflexivity.
  - eapply (enough_room_front_inv c container "left" left_front); eauto.
  - eapply (enough_room_front_inv c container "left" left_front); eauto.
  - destruct (Rb (position c - position n)) as (v & Hv & Hd');
      [rewrite H; reflexivity|].
    rewrite H in Hv. injection Hv as <-. exact Hd'.
  - eapply (enough_room_back_inv c container "left" left_back); eauto.
  - eapply (enough_room_back_inv c container "left" left_back); eauto.
Qed.

Lemma X6_left_change_is_blocked_and_has_room_witness :
  0 <= 0.99 /\
  exists s' ev,
    update conf30 behind_slow_lead 0.1 0.99 100 100 tailgater_before
      = Ok (s', ev) /\
    lane s' = (lane tailgater_before - 1)%Z /\
    (exists f,
       front behind_slow_lead
         (capped conf30 behind_slow_lead 0.1 tailgater_before) = Some f /\
       position f
         - position (capped conf30 behind_slow_lead 0.1 tailgater_before)
       < HV_K1 tailgater_before
         * safe_distance (capped conf30 behind_slow_lead 0.1 tailgater_before)).
Proof.
  assert (P : 0 <= 0.99) by (vm_compute; discriminate).
  split; [exact P|].
  do 2 eexists. split; [vm_compute; reflexivity|].
  split; [reflexivity|].
  destruct (X6_left_change_is_blocked_and_has_room conf30 behind_slow_lead
              0.1 0.99 100 100 tailgater_before _ _ P eq_refl eq_refl)
    as ((f & Hf & Hd & _) & _).
  exists f. split; [exact Hf | exact Hd].
Defined.

(** ** Exceptions *)

(** X7: with [conf.speedup] equal to zero every update raises
    [ZeroDivisionError], whatever the vehicle and its neighbours. *)
Theorem X7_zero_speedup_raises conf container dt p now now' s :
  speedup conf == 0 ->
  update conf container dt p now now' s = Raise ZeroDivisionError.
Proof.
  intro Z. unfold update, HumanVehicle_update.
  set (c := capped conf container dt s).
  destruct (prob_right_returns c container conf
              (option_map (fun v => position v - position c)
                 (front container c))
              (option_map velocity (front container c))
              (option_map (fun v => position c - position v)
                 (back container c))
              (option_map velocity (right_back container c))
              (option_map (fun v => position c - position v)
                 (right_back container c))) as [pr ->].
  destruct (prob_left_returns c container conf) as (pl & -> & _).
  cbn [bind]. unfold lane_change, pydiv.
  apply Qeq_bool_iff in Z. rewrite Z. reflexivity.
Qed.

Lemma X7_zero_speedup_raises_witness :
  speedup (mkConf 3 30 0 false) == 0 /\
  update (mkConf 3 30 0 false) free_road 0.1 0.5 100 100 cruising
    = Raise ZeroDivisionError.
Proof.
  split; [reflexivity|].
  apply (X7_zero_speedup_raises (mkConf 3 30 0 false) free_road 0.1 0.5
           100 100 cruising).
  reflexivity.
Defined.

(** X8: an update of a vehicle built by a constructor returns, raising
    nothing, when [conf.speedup] is not zero, no neighbour drives backwards
    and the front vehicle, if any, is not behind the vehicle after its
    move. *)
Theorem X8_update_raises_nothing conf container dt p now now' (s : Vehicle) :
  wf_profile s ->
  neighbours_nonneg container ->
  ~ speedup conf == 0 ->
  (forall f, front container (capped conf container dt s) = Some f ->
     position (capped conf container dt s) <= position f) ->
  exists s' ev, update conf container dt p now now' s = Ok (s', ev).
Proof.
  intros W N S F.
  destruct (update_returns conf container dt p now now' s W N S F)
    as [[s' ev] H].
  exists s', ev. exact H.
Qed.

Lemma X8_update_raises_nothing_witness :
  exists s' ev,
    update conf30 behind_parked 0.1 0.5 100 100 driving_20 = Ok (s', ev).
Proof.
  apply (X8_update_raises_nothing conf30 behind_parked 0.1 0.5 100 100
           driving_20).
  - exact driving_20_wf.
  - exact behind_parked_nonneg.
  - vm_compute; discriminate.
  - intros f E. injection E as <-. vm_compute. discriminate.
Defined.

(** X9: [_enough_room] asked about a location that is none of
    left/right front/back raises [UnboundLocalError]: [d] is [0], not
    [None], and [v] was never bound. *)
Theorem X9_enough_room_unknown_location self container (location : string * string) :
  (fst location <> "left" /\ fst location <> "right")%string \/
  (snd location <> "front" /\ snd location <> "back")%string ->
  _enough_room self container location = Raise UnboundLocalError.
Proof.
  intro H. unfold _enough_room.
  destruct H as [[A B]|[A B]];
    apply String.eqb_neq in A; apply String.eqb_neq in B;
    rewrite ?A, ?B, ?andb_false_r; cbn [andb];
    rewrite ?A, ?B, ?andb_false_r; reflexivity.
Qed.

Lemma X9_enough_room_unknown_location_witness :
  _enough_room cruising free_road ("front", "left")%string
    = Raise UnboundLocalError.
Proof.
  apply (X9_enough_room_unknown_location cruising free_road
           ("front", "left")%string).
  left. split; discriminate.
Defined.

(** ** The controllers close to the front vehicle *)

Lemma braking_zone_second_rule (self : Vehicle) af v d :
  0 < safe_distance self ->
  v < velocity self ->
  front_not_braking_harder self af ->
  braking_zone self af (Some v) d
  = Ok (Qmax (- HV_BRAKING self)
          (- (HV_BRAKING self / safe_distance self * d - HV_BRAKING self))).
Proof.
  intros S V F. unfold braking_zone.
  assert (C : truthy af
              && match af with
                 | Some a => Qlt_bool a (acceleration self)
                 | None => false
                 end = false).
  { destruct af as [a|]; [|reflexivity].
    destruct (F a eq_refl) as [Z|Z].
    - cbn [truthy]. apply Qeq_bool_iff in Z. rewrite Z. reflexivity.
    - apply Qlt_bool_false in Z. rewrite Z. apply andb_false_r. }
  rewrite C, andb_false_r. cbn [need bind].
  apply Qlt_bool_true in V. rewrite V.
  unfold pydiv.
  assert (Z : Qeq_bool (safe_distance self) 0 = false)
    by (apply Qeq_bool_false; lra).
  rewrite Z. reflexivity.
Qed.

(** Closer than the safe distance, every class is in the braking zone. *)
Lemma inside_safe_distance_is_braking_zone (self : Vehicle) conf af vf d :
  wf_profile self -> 0 < safe_distance self -> d < safe_distance self ->
  calc_acceleration self conf af vf (Some d)
  = (a <- braking_zone self af vf d ;; Ok (a, self)).
Proof.
  intros W S D. unfold calc_acceleration, HumanVehicle_calc_acceleration,
    AutomaticCar_calc_acceleration.
  unfold wf_profile in W.
  destruct (cls self);
    destruct W as (_ & K1 & K2 & W).
  - assert (E1 : Qle_bool (HV_K1 self * safe_distance self) d = false)
      by (apply Qle_bool_false; nra).
    assert (E2 : Qlt_bool (HV_K2 self * safe_distance self) d = false)
      by (apply Qlt_bool_false; nra).
    rewrite E1, E2, andb_false_r. reflexivity.
  - assert (E1 : Qle_bool (HV_K1 self * safe_distance self) d = false)
      by (apply Qle_bool_false; nra).
    assert (E2 : Qlt_bool (HV_K2 self * safe_distance self) d = false)
      by (apply Qlt_bool_false; nra).
    rewrite E1, E2, andb_false_r. reflexivity.
  - assert (E1 : Qle_bool (HV_K1 self * safe_distance self) d = false)
      by (apply Qle_bool_false; nra).
    assert (E2 : Qlt_bool (HV_K2 self * safe_distance self) d = false)
      by (apply Qlt_bool_false; nra).
    rewrite E1, E2, andb_false_r.
    destruct W as (_ & _ & _ & _ & _ & _ & _ & _ & _ & (k3 & -> & K3) & _).
    assert (E3 : Qlt_bool (k3 * safe_distance self) d = false)
      by (apply Qlt_bool_false; nra).
    cbn [need_attr bind]. rewrite E3.
    destruct (Qlt_bool d (HV_K2 self * safe_distance self)); reflexivity.
Qed.

(** X10: a vehicle closer to a slower front vehicle than its safe distance
    is told to accelerate: unless the front vehicle is slowing down harder,
    the controller returns [HV_BRAKING * (1 - df / safe_distance)], which is
    positive for [df < safe_distance]. *)
Theorem X10_accelerates_inside_safe_distance (self : Vehicle) conf af v d :
  wf_profile self ->
  0 < safe_distance self -> d < safe_distance self ->
  v < velocity self ->
  front_not_braking_harder self af ->
  exists a,
    calc_acceleration self conf af (Some v) (Some d) = Ok (a, self) /\
    a == HV_BRAKING self * (1 - d / safe_distance self) /\
    0 < a.
Proof.
  intros W S D V F.
  rewrite (inside_safe_distance_is_braking_zone self conf af (Some v) d W S D).
  rewrite (braking_zone_second_rule self af v d S V F). cbn [bind].
  eexists. split; [reflexivity|].
  pose proof (wf_bounds self W) as (_ & _ & _ & _ & _ & B & _).
  set (q := HV_BRAKING self / safe_distance self).
  assert (Q1 : safe_distance self * q == HV_BRAKING self)
    by (apply Qmult_div_r; lra).
  assert (Q2 : safe_distance self * (d / safe_distance self) == d)
    by (apply Qmult_div_r; lra).
  assert (Q3 : q * d == HV_BRAKING self * (d / safe_distance self)).
  { unfold q. field. lra. }
  assert (Q4 : d / safe_distance self < 1).
  { apply Qlt_shift_div_r; lra. }
  destruct (Qmax_cases (- HV_BRAKING self) (- (q * d - HV_BRAKING self)))
    as [[M ->]|[M ->]]; split; nra.
Qed.

Lemma X10_accelerates_inside_safe_distance_witness :
  exists a,
    calc_acceleration tailgater conf30 (Some 0) (Some 10) (Some 9)
      = Ok (a, tailgater) /\
    a == HV_BRAKING tailgater * (1 - 9 / safe_distance tailgater) /\
    0 < a.
Proof.
  apply (X10_accelerates_inside_safe_distance tailgater conf30 (Some 0) 10 9).
  - apply Car_init_wf; split; vm_compute; discriminate.
  - reflexivity.
  - reflexivity.
  - reflexivity.
  - intros a E. injection E as <-. left. reflexivity.
Defined.

(** X11: in the lock-in zone an automatic car at least 1 m/s faster than
    the front vehicle is told to slow down by more than 3.5 m/s^2, and by
    less than 14 m/s^2; the bound [HV_BRAKING] = 9 of the other zones is not
    applied. *)
Theorem X11_lock_in_brakes_hard (self : Vehicle) conf af d v k3 :
  cls self = AutomaticCar ->
  wf_profile self ->
  HV_K3 self = Some k3 ->
  k3 * safe_distance self < d ->
  d < HV_K2 self * safe_distance self ->
  Qabs (v - desired_velocity self) < 2 ->
  velocity self <= desired_velocity self ->
  1 <= velocity self - v ->
  exists a,
    calc_acceleration self conf af (Some v) (Some d) = Ok (a, self) /\
    a == (v - velocity self) / (velocity self + 0.001) * 50 * HV_AMAX self /\
    - 14 < a /\ a < - 3.5.
Proof.
  intros C W K3 A B D V E.
  pose proof W as W'. unfold wf_profile, between in W'. rewrite C in W'.
  destruct W' as (_ & W1 & W2 & _ & _ & (Wa & Wa') & _ & _ & _ & (Wd & Wd')
                  & _ & _ & (k & Wk & Wk3) & (l2 & Wl & Wl2)).
  rewrite K3 in Wk. injection Wk as <-.
  apply Qabs_Qlt_condition in D.
  assert (S : 0 < safe_distance self) by nra.
  unfold calc_acceleration, AutomaticCar_calc_acceleration. rewrite C.
  assert (E1 : Qle_bool (HV_K1 self * safe_distance self) d = false)
    by (apply Qle_bool_false; nra).
  assert (E2 : Qlt_bool (HV_K2 self * safe_distance self) d = false)
    by (apply Qlt_bool_false; lra).
  rewrite E1, E2, andb_false_r, K3.
  assert (D' : Qabs (v - desired_velocity self) < 2)
    by (apply Qabs_Qlt_condition; exact D).
  apply Qlt_bool_true in A, B, D'.
  cbv [need need_attr bind andM]. rewrite B, A, D'.
  unfold lock_in, np_absolute_bool.
  assert (E4 : Qlt_bool (velocity self - v) 1 = false)
    by (apply Qlt_bool_false; exact E).
  rewrite E4. unfold pydiv.
  assert (Z : Qeq_bool (velocity self + 0.001) 0 = false)
    by (apply Qeq_bool_false; lra).
  rewrite Z, Wl. cbn [bind need_attr].
  eexists. split; [reflexivity|].
  set (q := (v - velocity self) / (velocity self + 0.001)).
  assert (Q1 : (velocity self + 0.001) * q == v - velocity self)
    by (apply Qmult_div_r; lra).
  assert (Q2 : q < - (1 # 36)) by nra.
  assert (Q3 : - (2 # 29) < q) by nra.
  assert (Q4 : q * l2 == q * 50) by (rewrite Wl2; reflexivity).
  assert (Q5 : q * l2 * HV_AMAX self < - 3.4) by nra.
  destruct (Qmin_cases (HV_AMAX self) (q * l2 * HV_AMAX self))
    as [[M ->]|[M ->]]; repeat split; nra.
Qed.

Lemma X11_lock_in_brakes_hard_witness :
  exists a,
    calc_acceleration closing_platoon_car conf30 (Some 0) (Some 30.5) (Some 40)
      = Ok (a, closing_platoon_car) /\
    - 14 < a /\ a < - 3.5.
Proof.
  destruct (X11_lock_in_brakes_hard closing_platoon_car conf30 (Some 0) 40
              30.5 1.1) as (a & H & _ & B).
  - reflexivity.
  - apply AutomaticCar_init_wf; split; vm_compute; discriminate.
  - reflexivity.
  - vm_compute; reflexivity.
  - vm_compute; reflexivity.
  - vm_compute; reflexivity.
  - vm_compute; discriminate.
  - vm_compute; discriminate.
  - exists a. split; [exact H | exact B].
Defined.

(** ** The lane animation *)

(** [round(x, 1)] is a whole number of tenths, at most half a tenth away
    from [x]. *)
Lemma round1_spec (x : Q) :
  exists m : Z,
    round1 x = inject_Z m / 10 /\
    x * 10 - 0.5 <= inject_Z m /\ inject_Z m <= x * 10 + 0.5.
Proof.
  unfold round1.
  pose proof (Qfloor_le (x * 10)) as F1.
  pose proof (Qlt_floor (x * 10)) as F2.
  rewrite inject_Z_plus in F2.
  change (inject_Z 1) with 1 in F2.
  set (n := Qfloor (x * 10)) in *.
  destruct (Qlt_bool (x * 10 - inject_Z n) 0.5) eqn:A.
  - exists n. qbool. repeat split; lra.
  - destruct (Qlt_bool 0.5 (x * 10 - inject_Z n)) eqn:B.
    + exists (n + 1)%Z. qbool. rewrite inject_Z_plus.
      change (inject_Z 1) with 1. repeat split; lra.
    + qbool. destruct (Z.even n).
      * exists n. repeat split; lra.
      * exists (n + 1)%Z. rewrite inject_Z_plus.
        change (inject_Z 1) with 1. repeat split; lra.
Qed.

Lemma inject_Z_le_half (m k : Z) :
  inject_Z m < inject_Z k + 0.5 -> inject_Z m <= inject_Z k.
Proof.
  intro H. rewrite <- Zle_Qle.
  assert (L : inject_Z m < inject_Z (k + 1)).
  { rewrite inject_Z_plus. change (inject_Z 1) with 1. lra. }
  rewrite <- Zlt_Qlt in L. lia.
Qed.

Lemma inject_Z_ge_half (m k : Z) :
  inject_Z k - 0.5 < inject_Z m -> inject_Z k <= inject_Z m.
Proof.
  intro H. rewrite <- Zle_Qle.
  assert (L : inject_Z (k - 1) < inject_Z m).
  { replace (k - 1)%Z with (k + -1)%Z by lia.
    rewrite inject_Z_plus. change (inject_Z (-1)) with (- (1)). lra. }
  rewrite <- Zlt_Qlt in L. lia.
Qed.

(** One animation step on a vehicle. *)
Lemma animate_steps (s : Vehicle) :
  let l := inject_Z (lane s) in
  let a := animlane s in
  let a' := animlane (animate s) in
  (Qabs (a - l) <= 0.1 -> a' = l) /\
  (a < l - 0.1 -> a + 0.05 <= a' /\ a' <= l) /\
  (l + 0.1 < a -> l <= a' /\ a' <= a - 0.05).
Proof.
  intros l a a'. subst a'. unfold animate. fold l. fold a.
  destruct (Qabs_cases (a - l)) as [[S E]|[S E]];
    destruct (Qlt_bool 0.1 (Qabs (a - l))) eqn:G; qbool;
    try (destruct (Qlt_bool a l) eqn:C; qbool); goal_fields;
    repeat split; intros; try lra; try reflexivity.
  - destruct (round1_spec (a - 0.1)) as (m & -> & M1 & M2).
    assert (K : inject_Z (10 * lane s) <= inject_Z m).
    { apply inject_Z_ge_half. rewrite inject_Z_mult.
      change (inject_Z 10) with 10. fold l. lra. }
    rewrite inject_Z_mult in K. change (inject_Z 10) with 10 in K.
    fold l in K. apply Qle_shift_div_l; lra.
  - destruct (round1_spec (a - 0.1)) as (m & -> & M1 & M2).
    apply Qle_shift_div_r; lra.
  - destruct (round1_spec (a + 0.1)) as (m & -> & M1 & M2).
    apply Qle_shift_div_l; lra.
  - destruct (round1_spec (a + 0.1)) as (m & -> & M1 & M2).
    assert (K : inject_Z m <= inject_Z (10 * lane s)).
    { apply inject_Z_le_half. rewrite inject_Z_mult.
      change (inject_Z 10) with 10. fold l. lra. }
    rewrite inject_Z_mult in K. change (inject_Z 10) with 10 in K.
    fold l in K. apply Qle_shift_div_r; lra.
Qed.

Lemma capped_animlane conf container dt s :
  animlane (capped conf container dt s) = animlane s.
Proof.
  unfold capped.
  destruct (Vehicle_update_cases conf container dt s)
    as [(f & _ & _ & ->)|[_ ->]]; reflexivity.
Qed.

(** X12: in an update that returns, the animation lane snaps to the new
    lane when it is within 0.1 of it; otherwise it moves towards the lane by
    at least 0.05 and never passes it. *)
Theorem X12_animation_approaches_lane conf container dt p now now' s s' ev :
  update conf container dt p now now' s = Ok (s', ev) ->
  let l := inject_Z (lane s') in
  (Qabs (animlane s - l) <= 0.1 -> animlane s' = l) /\
  (animlane s < l - 0.1 ->
   animlane s + 0.05 <= animlane s' /\ animlane s' <= l) /\
  (l + 0.1 < animlane s ->
   l <= animlane s' /\ animlane s' <= animlane s - 0.05).
Proof.
  intros H l. subst l.
  apply update_lane_stage in H as (s4 & ev2 & L & -> & -> & _).
  unfold lane_stage in L. inv_bind L as pr Hpr. inv_bind L as pl Hpl.
  apply lane_change_frame in L as (_ & _ & _ & _ & _ & _ & A).
  rewrite capped_animlane in A. rewrite <- A.
  apply animate_steps.
Qed.

Lemma X12_animation_approaches_lane_witness :
  exists s' ev,
    update conf30 free_road 0.1 0.5 100 100 cruising = Ok (s', ev) /\
    lane s' = 1%Z /\
    animlane cruising + 0.05 <= animlane s' /\ animlane s' <= 1.
Proof.
  do 2 eexists. split; [vm_compute; reflexivity|].
  split; [reflexivity|].
  destruct (X12_animation_approaches_lane conf30 free_road 0.1 0.5 100 100
              cruising _ _ eq_refl) as (_ & U & _).
  apply U. vm_compute. reflexivity.
Defined.

(** ** What an update leaves alone, and what it reports *)

(** X13: an update that returns changes none of the constants written by
    the constructor: class, sprite, zone factors, [HV_A0], [HV_L],
    [HV_AMAX], [HV_BRAKING], length, extremely safe distance, desired
    velocity, safe time and epsilon. *)
Theorem X13_update_keeps_profile conf container dt p now now' s s' ev :
  update conf container dt p now now' s = Ok (s', ev) ->
  prof s' = prof s.
Proof.
  intro H. apply update_frame in H as (P & _). exact P.
Qed.

Lemma X13_update_keeps_profile_witness :
  exists s' ev,
    update conf30 behind_lead_30 0.1 0.5 100 100 new_automatic = Ok (s', ev) /\
    prof s' = prof new_automatic.
Proof.
  do 2 eexists. split; [vm_compute; reflexivity|].
  apply (X13_update_keeps_profile conf30 behind_lead_30 0.1 0.5 100 100
           new_automatic _ _ eq_refl).
Defined.

Lemma lane_stage_events conf container p now now' c s4 ev2 e :
  lane_stage conf container p now now' c = Ok (s4, ev2) ->
  In e ev2 -> exists l, e = NotifyLaneChange l.
Proof.
  intros L I. unfold lane_stage in L.
  inv_bind L as pr Hpr. inv_bind L as pl Hpl.
  apply lane_change_cases in L
    as [[_ ->]|(lim & _ & _ & _ & [(_ & -> & _)|(_ & -> & _)])].
  - contradiction.
  - destruct I as [<-|[]]. eexists. reflexivity.
  - destruct I as [<-|[]]. eexists. reflexivity.
Qed.

(** X14: an update that returns prints the warning exactly when the
    emergency speed change was made, and plays the sound exactly when it was
    made and [conf.sound] is set. *)
Theorem X14_alerts conf container dt p now now' s s' ev :
  update conf container dt p now now' s = Ok (s', ev) ->
  let corrected_now :=
    exists f, front container s = Some f /\ too_close dt f s in
  (In (Warning (cls s)) ev <-> corrected_now) /\
  (In Scream ev <-> corrected_now /\ sound conf = true).
Proof.
  intros H K. subst K.
  apply update_lane_stage in H as (s4 & ev2 & L & _ & _ & _ & ->).
  assert (N : forall e, In e ev2 -> exists l, e = NotifyLaneChange l)
    by (intros e; apply (lane_stage_events _ _ _ _ _ _ _ _ _ L)).
  destruct (Vehicle_update_cases conf container dt s)
    as [(f & Hf & Hc & ->)|[Hno ->]]; cbn [snd]; split; split.
  - intros _. exists f. split; assumption.
  - intros _. apply in_or_app. left. left. reflexivity.
  - intro I. split; [exists f; split; assumption|].
    apply in_app_or in I as [I|I].
    + destruct (sound conf); [reflexivity|].
      destruct I as [I|[]]. discriminate.
    + apply N in I as [l I]. discriminate.
  - intros [_ S]. apply in_or_app. left. rewrite S. right. left. reflexivity.
  - intro I. apply N in I as [l I]. discriminate.
  - intros (f & Hf & Hc). exfalso. apply (Hno f Hf Hc).
  - intro I. apply N in I as [l I]. discriminate.
  - intros [(f & Hf & Hc) _]. exfalso. apply (Hno f Hf Hc).
Qed.

Lemma X14_alerts_witness :
  exists s' ev,
    update conf30 behind_parked 0.1 0.5 100 100 driving_20 = Ok (s', ev) /\
    In (Warning (cls driving_20)) ev /\ ~ In Scream ev.
Proof.
  do 2 eexists. split; [vm_compute; reflexivity|].
  destruct (X14_alerts conf30 behind_parked 0.1 0.5 100 100 driving_20 _ _
              eq_refl) as [W S].
  split.
  - apply W. exists parked_at_5. split; [reflexivity|].
    vm_compute. reflexivity.
  - intro I. apply S in I as [_ I]. discriminate I.
Defined.

(** X15: the countdown after an update that returns is [conf.fps] when the
    emergency speed change was made, and otherwise one less than before, but
    not below 0. *)
Theorem X15_emergency_countdown conf container dt p now now' s s' ev :
  update conf container dt p now now' s = Ok (s', ev) ->
  ((exists f, front container s = Some f /\ too_close dt f s) ->
   emergency s' = fps conf) /\
  ((forall f, front container s = Some f -> ~ too_close dt f s) ->
   emergency s' = Z.max 0 (emergency s - 1)).
Proof.
  intro H. apply update_frame in H as (_ & _ & ->).
  destruct (Vehicle_update_cases conf container dt s)
    as [(f & Hf & Hc & ->)|[Hno ->]]; split.
  - intros _. reflexivity.
  - intro N. exfalso. apply (N f Hf Hc).
  - intros (f & Hf & Hc). exfalso. apply (Hno f Hf Hc).
  - intros _. reflexivity.
Qed.

Lemma X15_emergency_countdown_witness :
  exists s' ev,
    update conf30 behind_parked 0.1 0.5 100 100 driving_20 = Ok (s', ev) /\
    emergency s' = fps conf30.
Proof.
  do 2 eexists. split; [vm_compute; reflexivity|].
  apply (X15_emergency_countdown conf30 behind_parked 0.1 0.5 100 100
           driving_20 _ _ eq_refl).
  exists parked_at_5. split; [reflexivity | vm_compute; reflexivity].
Defined.

(** ** Free road *)

(** X16: a vehicle built by a constructor that drives at its desired
    velocity with acceleration 0 and has no front neighbour stays in that
    state: after the update the velocity is the desired velocity, the
    acceleration is 0 and the position has advanced by [dt] times the
    velocity. *)
Theorem X16_cruise_is_steady conf container dt p now now' (s : Vehicle) :
  wf_profile s ->
  velocity s == desired_velocity s -> acceleration s == 0 ->
  (forall q, front container q = None) ->
  ~ speedup conf == 0 ->
  exists s' ev,
    update conf container dt p now now' s = Ok (s', ev) /\
    velocity s' == desired_velocity s /\ acceleration s' == 0 /\
    position s' == position s + dt * velocity s.
Proof.
  intros W V A F S.
  pose proof (wf_bounds s W) as (_ & _ & _ & A1 & _ & _ & _ & D & _).
  destruct (capped_frame conf container dt s)
    as (Cp & _ & Cq & _ & Cv & _).
  assert (U : fst (Vehicle_update conf container dt s) = integrated dt s).
  { unfold Vehicle_update. rewrite F. reflexivity. }
  rewrite U in Cv, Cq. unfold integrated in Cv, Cq.
  cbn [velocity position set_emergency set_velocity set_position] in Cv, Cq.
  unfold new_velocity in Cv. unfold new_position in Cq.
  set (c := capped conf container dt s) in *.
  assert (R : velocity c == desired_velocity s).
  { rewrite Cv.
    destruct (Qmax_cases 0 (velocity s + acceleration s * dt))
      as [[M ->]|[M ->]];
      match goal with
      | |- context [Qmin ?a ?b] =>
          destruct (Qmin_cases a b) as [[N ->]|[N ->]]
      end; nra. }
  destruct (update_returns_when conf container dt p now now' s W S)
    as [[s' ev] H].
  { fold c. lra. }
  { intros f Hf. rewrite F in Hf. discriminate. }
  exists s', ev. split; [exact H|].
  pose proof (update_frame _ _ _ _ _ _ _ _ _ H) as (_ & Hp & _).
  rewrite U in Hp. unfold integrated in Hp.
  cbn [position set_emergency set_velocity set_position] in Hp.
  unfold new_position in Hp.
  apply update_inv in H
    as (pr & pl & vlb & vrb & dlf & dlb & drf & drb & s4 & ev2 & acc & s6
        & Hlc & Hca & -> & _).
  fold c in Hlc, Hca. rewrite F in Hca. cbn [option_map] in Hca.
  apply lane_change_frame in Hlc as (Lp & _ & Lv & _).
  destruct (animate_frame s4) as (Ap & _ & _ & Av & _).
  assert (P : prof (animate s4) = prof s) by congruence.
  assert (Ve : velocity (animate s4) = velocity c) by congruence.
  assert (Z : acceleration_zone (animate s4) = Ok 0).
  { unfold acceleration_zone, reach_desired. rewrite Ve, P.
    assert (B : Qeq_bool (desired_velocity s - velocity c) 0 = true)
      by (apply Qeq_bool_iff; lra).
    rewrite B. reflexivity. }
  assert (E : acc = 0 /\ s6 = animate s4).
  { unfold calc_acceleration, HumanVehicle_calc_acceleration,
      AutomaticCar_calc_acceleration in Hca.
    rewrite Z in Hca. cbn [bind] in Hca.
    destruct (cls (animate s4)); injection Hca as <- <-; split; reflexivity. }
  destruct E as [-> ->].
  cbn [velocity acceleration position set_acceleration] in *.
  rewrite P, Ve. rewrite Hp.
  split; [exact R|]. split; [|nra].
  destruct (Qmin_cases (HV_AMAX s) 0) as [[M ->]|[M ->]]; lra.
Qed.

Lemma X16_cruise_is_steady_witness :
  exists s' ev,
    update conf30 free_road 0.1 0.5 100 100 at_desired_velocity = Ok (s', ev) /\
    velocity s' == desired_velocity at_desired_velocity /\
    acceleration s' == 0 /\
    position s' == position at_desired_velocity
                   + 0.1 * velocity at_desired_velocity.
Proof.
  apply (X16_cruise_is_steady conf30 free_road 0.1 0.5 100 100
           at_desired_velocity).
  - apply Car_init_wf; split; vm_compute; discriminate.
  - reflexivity.
  - reflexivity.
  - reflexivity.
  - vm_compute; discriminate.
Defined.

(** X17: a vehicle that is not in the rightmost lane and has nobody ahead
    or behind in the lane to its right moves there whenever the draw is
    below 0.9, the cooldown is over, its capped velocity exceeds 3 and its
    position exceeds three safe distances; the container is told the lane it
    left and the clock is stored. *)
Theorem X17_free_right_lane_is_taken conf container dt p now now' s s' ev :
  update conf container dt p now now' s = Ok (s', ev) ->
  let c := capped conf container dt s in
  right_front container c = None -> right_back container c = None ->
  p < 0.9 ->
  5.0 / speedup conf < now - last_lane_change s ->
  3 < velocity c ->
  (lane s + 1 < nb_lanes conf)%Z ->
  3 * safe_distance c < position c ->
  lane s' = (lane s + 1)%Z /\ last_lane_change s' = now' /\
  In (NotifyLaneChange (lane s)) ev.
Proof.
  intros H c Hrf Hrb P G1 G2 B Q.
  apply update_lane_stage in H as (s4 & ev2 & L & -> & _ & -> & ->).
  destruct (capped_frame conf container dt s)
    as (_ & Cl & _ & _ & _ & _ & Ct & Cl').
  fold c in L, Cl, Ct.
  rewrite <- Cl', <- Cl in B |- *. rewrite <- Ct in G1.
  clearbody c. clear Cl Cl' Ct.
  unfold lane_stage in L. rewrite Hrf, Hrb in L. cbn [option_map] in L.
  inv_bind L as pr Hpr.
  assert (E : pr = 0.9).
  { unfold prob_right, _enough_room in Hpr.
    cbn [fst snd String.eqb Ascii.eqb Bool.eqb andb] in Hpr.
    rewrite Hrf, Hrb in Hpr. cbn in Hpr. congruence. }
  subst pr. inv_bind L as pl Hpl.
  unfold lane_change in L. inv_bind L as lim Hlim.
  assert (E : lim = 5.0 / speedup conf).
  { unfold pydiv in Hlim. destruct (Qeq_bool _ 0); congruence. }
  subst lim.
  apply Qlt_bool_true in P, G1, G2, Q. apply Z.ltb_lt in B.
  rewrite G1, G2, P, B, Q in L. cbn in L. injection L as <- <-.
  goal_fields. repeat split.
  apply in_or_app. right. left. f_equal. lia.
Qed.

Lemma X17_free_right_lane_is_taken_witness :
  exists s' ev,
    update conf30 free_road 0.1 0.5 100 100 cruising = Ok (s', ev) /\
    lane s' = (lane cruising + 1)%Z /\ last_lane_change s' = 100 /\
    In (NotifyLaneChange (lane cruising)) ev.
Proof.
  do 2 eexists. split; [vm_compute; reflexivity|].
  apply (X17_free_right_lane_is_taken conf30 free_road 0.1 0.5 100 100
           cruising _ _ eq_refl).
  - reflexivity.
  - reflexivity.
  - vm_compute; reflexivity.
  - vm_compute; reflexivity.
  - vm_compute; reflexivity.
  - vm_compute; reflexivity.
  - vm_compute; reflexivity.
Defined.

(** ** Ordering of vehicles *)

(** X18: [__lt__] orders vehicles by position alone: it is irreflexive and
    transitive, two vehicles neither of which is below the other are at the
    same position, and lane and velocity play no part. *)
Theorem X18_lt_orders_by_position :
  (forall a, __lt__ a a = false) /\
  (forall a b c, __lt__ a b = true -> __lt__ b c = true -> __lt__ a c = true) /\
  (forall a b, __lt__ a b = false -> __lt__ b a = false ->
     position a == position b) /\
  (forall a b l v,
     __lt__ (set_lane l (set_velocity v a)) b = __lt__ a b).
Proof.
  unfold __lt__. repeat split.
  - intro a. apply Qlt_bool_false. lra.
  - intros a b c H1 H2. qbool. apply Qlt_bool_true. lra.
  - intros a b H1 H2. qbool. lra.
Qed.

(** * Properties of the event handlers *)

(** ** The slow zone *)

Lemma slow_zone_cases (h : SlowZoneEvHandler.t) dt (v : Vehicle) :
  (SlowZoneEvHandler.enabled h = true /\
   SlowZoneEvHandler._start h < position v /\
   position v < SlowZoneEvHandler._stop h /\
   SlowZoneEvHandler._max_velocity h < velocity v /\
   SlowZoneEvHandler._acc h < acceleration v /\
   SlowZoneEvHandler.after_vehicle_update h dt v
   = set_acceleration (SlowZoneEvHandler._acc h) v) \/
  (~ (SlowZoneEvHandler.enabled h = true /\
      SlowZoneEvHandler._start h < position v /\
      position v < SlowZoneEvHandler._stop h /\
      SlowZoneEvHandler._max_velocity h < velocity v /\
      SlowZoneEvHandler._acc h < acceleration v) /\
   SlowZoneEvHandler.after_vehicle_update h dt v = v).
Proof.
  unfold SlowZoneEvHandler.after_vehicle_update.
  destruct (SlowZoneEvHandler.enabled h);
    destruct (Qlt_bool (SlowZoneEvHandler._start h) (position v)) eqn:A;
    destruct (Qlt_bool (position v) (SlowZoneEvHandler._stop h)) eqn:B;
    destruct (Qlt_bool (SlowZoneEvHandler._max_velocity h) (velocity v)) eqn:C;
    destruct (Qlt_bool (SlowZoneEvHandler._acc h) (acceleration v)) eqn:D;
    cbn [andb]; qbool;
    first [ left; repeat split; assumption
          | right; split; [intros (E & A' & B' & C' & D'); try discriminate; lra
                          | reflexivity] ].
Qed.

(** X19: [SlowZoneEvHandler.after_vehicle_update] changes nothing but the
    acceleration and never raises it; an enabled handler leaves a vehicle
    that is strictly inside the zone and faster than the zone's maximum
    velocity with an acceleration of at most [_acc]; outside the zone, on
    its two borders, or with the handler disabled the vehicle is untouched;
    a second call changes nothing more. *)
Theorem X19_slow_zone_effect (h : SlowZoneEvHandler.t) dt dt' (v : Vehicle) :
  let v' := SlowZoneEvHandler.after_vehicle_update h dt v in
  v' = set_acceleration (acceleration v') v /\
  acceleration v' <= acceleration v /\
  (SlowZoneEvHandler.enabled h = true ->
   SlowZoneEvHandler._start h < position v ->
   position v < SlowZoneEvHandler._stop h ->
   SlowZoneEvHandler._max_velocity h < velocity v ->
   acceleration v' <= SlowZoneEvHandler._acc h) /\
  (SlowZoneEvHandler.enabled h = false \/
   position v <= SlowZoneEvHandler._start h \/
   SlowZoneEvHandler._stop h <= position v -> v' = v) /\
  SlowZoneEvHandler.after_vehicle_update h dt' v' = v'.
Proof.
  intro v'. subst v'.
  destruct (slow_zone_cases h dt v) as [(E & A & B & C & D & ->)|[N ->]].
  - goal_fields. repeat split; intros; try lra.
    + destruct H as [H|[H|H]]; [congruence | lra | lra].
    + destruct (slow_zone_cases h dt'
                  (set_acceleration (SlowZoneEvHandler._acc h) v))
        as [(_ & _ & _ & _ & D' & _)|[_ ->]]; [|reflexivity].
      exfalso. revert D'. goal_fields. apply Qlt_irrefl.
  - repeat split; intros; try lra.
    + destruct v; reflexivity.
    + destruct (Qlt_le_dec (SlowZoneEvHandler._acc h) (acceleration v))
        as [D|D]; [|exact D].
      exfalso. apply N. repeat split; assumption.
    + destruct (slow_zone_cases h dt' v) as [(E & A & B & C & D & _)|[_ ->]];
        [|reflexivity].
      exfalso. apply N. repeat split; assumption.
Qed.

(** X20: the slow zone as built by its constructor ([_acc = -3]) never asks
    a car or a truck for more than its own braking limit: after an update
    that returns and the handler's call, the acceleration is still between
    [- HV_BRAKING] and [HV_AMAX]. *)
Theorem X20_slow_zone_within_braking_limit conf container dt p now now'
    (s s' : Vehicle) ev start stop max_velocity dt' :
  wf_profile s -> cls s <> AutomaticCar ->
  neighbours_nonneg container ->
  update conf container dt p now now' s = Ok (s', ev) ->
  let h := SlowZoneEvHandler.__init__ start stop max_velocity in
  let v' := SlowZoneEvHandler.after_vehicle_update h dt' s' in
  - HV_BRAKING s <= acceleration v' /\ acceleration v' <= HV_AMAX s.
Proof.
  intros W C N H h v'. subst v'.
  pose proof (wf_bounds s W) as (_ & _ & _ & A1 & _ & B & _).
  destruct (human_acceleration_bounds _ _ _ _ _ _ _ _ _ W C N H) as [L U].
  destruct (slow_zone_cases h dt' s') as [(_ & _ & _ & _ & _ & ->)|[_ ->]].
  - goal_fields. cbn. split; lra.
  - split; assumption.
Qed.

Lemma X20_slow_zone_within_braking_limit_witness :
  exists s' ev,
    update conf30 free_road 0.1 0.5 100 100 cruising = Ok (s', ev) /\
    - HV_BRAKING cruising
      <= acceleration
           (SlowZoneEvHandler.after_vehicle_update
              (SlowZoneEvHandler.__init__ 100 300 10) 0.1 s') /\
    acceleration
      (SlowZoneEvHandler.after_vehicle_update
         (SlowZoneEvHandler.__init__ 100 300 10) 0.1 s')
    <= HV_AMAX cruising.
Proof.
  do 2 eexists. split; [vm_compute; reflexivity|].
  eapply (X20_slow_zone_within_braking_limit conf30 free_road 0.1 0.5 100 100
            cruising).
  - apply Car_init_wf; split; vm_compute; discriminate.
  - discriminate.
  - intros q n [E|[E|[E|[E|[E|E]]]]]; discriminate E.
  - vm_compute; reflexivity.
Defined.

Lemma slow_zone_run (hs : list hook) :
  forall h : SlowZoneEvHandler.t,
    SlowZoneEvHandler.enabled h = true ->
    let h' := fold_left SlowZoneEvHandler.handle hs h in
    SlowZoneEvHandler.enabled h' = true /\
    SlowZoneEvHandler.simTimeList h'
    = SlowZoneEvHandler.simTimeList h ++ step_times hs /\
    SlowZoneEvHandler.enableList h'
    = SlowZoneEvHandler.enableList h
      ++ repeat 1%Z (List.length (step_times hs)).
Proof.
  induction hs as [|hk hs IH]; intros h E; cbn [fold_left].
  - cbn. rewrite !app_nil_r. repeat split. exact E.
  - destruct hk; cbn [SlowZoneEvHandler.handle];
      try (apply IH; exact E).
    destruct (IH (SlowZoneEvHandler.after_time_step h dt sim_time) E)
      as (E' & S & L).
    split; [exact E'|]. rewrite S, L. cbn. rewrite E.
    rewrite <- !app_assoc. split; reflexivity.
Qed.

(** X21: after any run of calls on a slow zone handler as built by its
    constructor, [simTimeList] holds the times of the [after_time_step]
    calls in order and [enableList] holds one [1] for each of them: the two
    lists have the same length. *)
Theorem X21_slow_zone_lists (start stop max_velocity : Q) (hs : list hook) :
  let h' := fold_left SlowZoneEvHandler.handle hs
              (SlowZoneEvHandler.__init__ start stop max_velocity) in
  SlowZoneEvHandler.simTimeList h' = step_times hs /\
  SlowZoneEvHandler.enableList h' = repeat 1%Z (List.length (step_times hs)) /\
  List.length (SlowZoneEvHandler.simTimeList h')
  = List.length (SlowZoneEvHandler.enableList h').
Proof.
  intro h'. subst h'.
  destruct (slow_zone_run hs
              (SlowZoneEvHandler.__init__ start stop max_velocity) eq_refl)
    as (_ & S & L).
  rewrite S, L. cbn. rewrite repeat_length. repeat split.
Qed.

Lemma run_app {T : Type} (handle : T -> hook -> result T) (hs1 hs2 : list hook) :
  forall self : T,
    run handle self (hs1 ++ hs2)
    = (s' <- run handle self hs1 ;; run handle s' hs2).
Proof.
  induction hs1 as [|h hs1 IH]; intro self; cbn [run app bind].
  - reflexivity.
  - destruct (handle self h) as [s'|e]; cbn [bind]; [apply IH | reflexivity].
Qed.

Lemma pydiv_by_positive (x : Q) (n : Z) :
  (0 < n)%Z -> pydiv x (inject_Z n) = Ok (x / inject_Z n).
Proof.
  intro H. unfold pydiv.
  destruct (Qeq_bool (inject_Z n) 0) eqn:E; [|reflexivity].
  apply Qeq_bool_iff in E. unfold Qeq, inject_Z in E. cbn in E. lia.
Qed.

Lemma average_speed_step (h : AverageSpeedHandler.t) (hk : hook) :
  (0 <= AverageSpeedHandler.numberOfVehicles h)%Z ->
  (AverageSpeedHandler.updatecount h = 0
   \/ AverageSpeedHandler.updatecount h = 1)%Z ->
  List.length (AverageSpeedHandler.averageSpeedList h)
  = List.length (AverageSpeedHandler.simTimeList h) ->
  exists h',
    AverageSpeedHandler.handle h hk = Ok h' /\
    (0 <= AverageSpeedHandler.numberOfVehicles h')%Z /\
    (AverageSpeedHandler.updatecount h' = 0
     \/ AverageSpeedHandler.updatecount h' = 1)%Z /\
    List.length (AverageSpeedHandler.averageSpeedList h')
    = List.length (AverageSpeedHandler.simTimeList h') /\
    (2 * Z.of_nat (List.length (AverageSpeedHandler.averageSpeedList h'))
     + AverageSpeedHandler.updatecount h'
     <= 2 * Z.of_nat (List.length (AverageSpeedHandler.averageSpeedList h))
        + AverageSpeedHandler.updatecount h
        + Z.of_nat (List.length (step_times [hk])))%Z.
Proof.
  intros N U L.
  destruct hk; cbn [AverageSpeedHandler.handle step_times flat_map app
                      List.length];
    try (exists h; repeat split; try assumption; lia).
  - unfold AverageSpeedHandler.after_time_step.
    destruct (1 <? AverageSpeedHandler.updatecount h + 1)%Z eqn:E1.
    + destruct (0 <? AverageSpeedHandler.numberOfVehicles h)%Z eqn:E2.
      * apply Z.ltb_lt in E2. rewrite (pydiv_by_positive _ _ E2).
        cbn [bind]. eexists. split; [reflexivity|].
        cbn [AverageSpeedHandler.numberOfVehicles
               AverageSpeedHandler.updatecount
               AverageSpeedHandler.averageSpeedList
               AverageSpeedHandler.simTimeList].
        rewrite !length_app. cbn [List.length].
        apply Z.ltb_lt in E1. repeat split; lia.
      * eexists. split; [reflexivity|].
        cbn [AverageSpeedHandler.numberOfVehicles
               AverageSpeedHandler.updatecount
               AverageSpeedHandler.averageSpeedList
               AverageSpeedHandler.simTimeList].
        apply Z.ltb_lt in E1. repeat split; try assumption; lia.
    + eexists. split; [reflexivity|].
      cbn [AverageSpeedHandler.numberOfVehicles
             AverageSpeedHandler.updatecount
             AverageSpeedHandler.averageSpeedList
             AverageSpeedHandler.simTimeList].
      apply Z.ltb_ge in E1. repeat split; try assumption; lia.
  - eexists. split; [reflexivity|].
    cbn [AverageSpeedHandler.after_vehicle_update
           AverageSpeedHandler.numberOfVehicles
           AverageSpeedHandler.updatecount
           AverageSpeedHandler.averageSpeedList
           AverageSpeedHandler.simTimeList].
    repeat split; try assumption; lia.
Qed.

Lemma average_speed_run (hs : list hook) :
  forall h : AverageSpeedHandler.t,
    (0 <= AverageSpeedHandler.numberOfVehicles h)%Z ->
    (AverageSpeedHandler.updatecount h = 0
     \/ AverageSpeedHandler.updatecount h = 1)%Z ->
    List.length (AverageSpeedHandler.averageSpeedList h)
    = List.length (AverageSpeedHandler.simTimeList h) ->
    exists h',
      run AverageSpeedHandler.handle h hs = Ok h' /\
      (0 <= AverageSpeedHandler.numberOfVehicles h')%Z /\
      (AverageSpeedHandler.updatecount h' = 0
       \/ AverageSpeedHandler.updatecount h' = 1)%Z /\
      List.length (AverageSpeedHandler.averageSpeedList h')
      = List.length (AverageSpeedHandler.simTimeList h') /\
      (2 * Z.of_nat (List.length (AverageSpeedHandler.averageSpeedList h'))
       + AverageSpeedHandler.updatecount h'
       <= 2 * Z.of_nat (List.length (AverageSpeedHandler.averageSpeedList h))
          + AverageSpeedHandler.updatecount h
          + Z.of_nat (List.length (step_times hs)))%Z.
Proof.
  induction hs as [|hk hs IH]; intros h N U L.
  - exists h. cbn. repeat split; try assumption; lia.
  - destruct (average_speed_step h hk N U L) as (h1 & E1 & N1 & U1 & L1 & B1).
    destruct (IH h1 N1 U1 L1) as (h' & E' & N' & U' & L' & B').
    exists h'. cbn [run]. rewrite E1. cbn [bind].
    split; [exact E'|]. repeat split; try assumption.
    change (hk :: hs) with ([hk] ++ hs).
    unfold step_times in *. rewrite flat_map_app, length_app. lia.
Qed.

(** X22: a run of any calls on a fresh [AverageSpeedHandler] raises nothing
    (the division is guarded by [numberOfVehicles > 0]); it records as many
    averages as times, and at most one average per two time steps. *)
Theorem X22_average_speed_run (hs : list hook) :
  exists h',
    run AverageSpeedHandler.handle AverageSpeedHandler.__init__ hs = Ok h' /\
    List.length (AverageSpeedHandler.averageSpeedList h')
    = List.length (AverageSpeedHandler.simTimeList h') /\
    (2 * List.length (AverageSpeedHandler.averageSpeedList h')
     <= List.length (step_times hs))%nat.
Proof.
  destruct (average_speed_run hs AverageSpeedHandler.__init__
              (Z.le_refl 0) (or_introl eq_refl) eq_refl)
    as (h' & E & N & U & L & B).
  exists h'. split; [exact E|]. split; [exact L|].
  change (AverageSpeedHandler.averageSpeedList AverageSpeedHandler.__init__)
    with (@nil Q) in B.
  change (AverageSpeedHandler.updatecount AverageSpeedHandler.__init__)
    with 0%Z in B.
  cbn [List.length] in B. lia.
Qed.

Lemma average_speed_updates (dt : Q) (vs : list Vehicle) :
  forall h : AverageSpeedHandler.t,
  exists h',
    run AverageSpeedHandler.handle h
      (map (AfterVehicleUpdate dt) vs) = Ok h' /\
    AverageSpeedHandler.averageSpeed h'
    == AverageSpeedHandler.averageSpeed h + velocity_sum vs /\
    AverageSpeedHandler.numberOfVehicles h'
    = (AverageSpeedHandler.numberOfVehicles h
       + Z.of_nat (List.length vs))%Z /\
    AverageSpeedHandler.averageSpeedList h'
    = AverageSpeedHandler.averageSpeedList h /\
    AverageSpeedHandler.simTimeList h' = AverageSpeedHandler.simTimeList h /\
    AverageSpeedHandler.updatecount h' = AverageSpeedHandler.updatecount h.
Proof.
  induction vs as [|v vs IH]; intro h.
  - exists h. cbn [map run velocity_sum fold_right List.length].
    repeat split; try reflexivity; [lra | lia].
  - destruct (IH (AverageSpeedHandler.after_vehicle_update h dt v))
      as (h' & E & A & N & L1 & L2 & U).
    exists h'. cbn [map run AverageSpeedHandler.handle bind].
    split; [exact E|].
    cbn [AverageSpeedHandler.after_vehicle_update
           AverageSpeedHandler.averageSpeed
           AverageSpeedHandler.numberOfVehicles
           AverageSpeedHandler.averageSpeedList
           AverageSpeedHandler.simTimeList
           AverageSpeedHandler.updatecount] in *.
    repeat split; try assumption.
    + rewrite A. cbn [velocity_sum fold_right].
      fold (velocity_sum vs). lra.
    + rewrite N. cbn [List.length]. lia.
Qed.

(** X23: the handler records on every second time step only, and the value
    it records is the mean velocity over the vehicle updates of both steps:
    after the updates [vs], a time step at [t1], the updates [ws] and a time
    step at [t2], a fresh handler holds one average, the sum of the
    velocities of [vs ++ ws] divided by their number, at time [t2], and its
    sum, its number of vehicles and its step count are back at 0. *)
Theorem X23_average_over_two_steps (dt t1 t2 : Q) (vs ws : list Vehicle) :
  vs ++ ws <> [] ->
  exists h' x,
    run AverageSpeedHandler.handle AverageSpeedHandler.__init__
      (map (AfterVehicleUpdate dt) vs ++ AfterTimeStep dt t1
         :: map (AfterVehicleUpdate dt) ws ++ [AfterTimeStep dt t2])
    = Ok h' /\
    AverageSpeedHandler.averageSpeedList h' = [x] /\
    x == velocity_sum (vs ++ ws) / inject_Z (Z.of_nat (List.length (vs ++ ws))) /\
    AverageSpeedHandler.simTimeList h' = [t2] /\
    AverageSpeedHandler.averageSpeed h' = 0 /\
    AverageSpeedHandler.numberOfVehicles h' = 0%Z /\
    AverageSpeedHandler.updatecount h' = 0%Z.
Proof.
  intro NE.
  destruct (average_speed_updates dt vs AverageSpeedHandler.__init__)
    as (h1 & E1 & A1 & N1 & L1 & S1 & U1).
  cbn in A1, N1, L1, S1, U1.
  set (h2 := AverageSpeedHandler.mk (AverageSpeedHandler.averageSpeed h1)
               (AverageSpeedHandler.numberOfVehicles h1)
               (AverageSpeedHandler.averageSpeedList h1)
               (AverageSpeedHandler.simTimeList h1) 1).
  destruct (average_speed_updates dt ws h2)
    as (h3 & E3 & A3 & N3 & L3 & S3 & U3).
  cbn in A3, N3, L3, S3, U3.
  assert (P : (0 < AverageSpeedHandler.numberOfVehicles h3)%Z).
  { rewrite N3, N1. destruct vs; destruct ws; cbn [List.length]; try lia.
    exfalso. apply NE. reflexivity. }
  rewrite run_app, E1. cbn [bind run AverageSpeedHandler.handle].
  unfold AverageSpeedHandler.after_time_step at 1.
  rewrite U1. cbn [Z.add Z.ltb Z.compare Pos.compare Pos.compare_cont].
  cbn [bind]. fold h2.
  rewrite run_app, E3. cbn [bind run AverageSpeedHandler.handle].
  unfold AverageSpeedHandler.after_time_step.
  rewrite U3. cbn [Z.add Z.ltb Z.compare Pos.compare Pos.compare_cont
                     Pos.add Pos.succ].
  apply Z.ltb_lt in P as P'. rewrite P'.
  rewrite (pydiv_by_positive _ _ P). cbn [bind].
  do 2 eexists. split; [reflexivity|].
  cbn [AverageSpeedHandler.averageSpeedList AverageSpeedHandler.simTimeList
         AverageSpeedHandler.averageSpeed
         AverageSpeedHandler.numberOfVehicles AverageSpeedHandler.updatecount].
  rewrite L3, L1, S3, S1. cbn [app].
  split; [reflexivity|]. split; [|repeat split].
  rewrite A3, A1, N3, N1, length_app, Nat2Z.inj_add.
  assert (V : velocity_sum (vs ++ ws) == velocity_sum vs + velocity_sum ws).
  { clear. induction vs as [|v vs IH]; cbn [app velocity_sum fold_right].
    - fold (velocity_sum ws). lra.
    - fold (velocity_sum (vs ++ ws)) (velocity_sum vs). rewrite IH. lra. }
  rewrite V. cbn [Z.add]. 
  apply Qdiv_comp; [lra | reflexivity].
Qed.

Lemma X23_average_over_two_steps_witness :
  [cruising] ++ [driving_20] <> [] /\
  exists h' x,
    run AverageSpeedHandler.handle AverageSpeedHandler.__init__
      (map (AfterVehicleUpdate 0.1) [cruising] ++ AfterTimeStep 0.1 0.1
         :: map (AfterVehicleUpdate 0.1) [driving_20]
            ++ [AfterTimeStep 0.1 0.2])
    = Ok h' /\
    AverageSpeedHandler.averageSpeedList h' = [x] /\
    x == velocity_sum ([cruising] ++ [driving_20])
         / inject_Z (Z.of_nat (List.length ([cruising] ++ [driving_20]))) /\
    AverageSpeedHandler.simTimeList h' = [0.2] /\
    AverageSpeedHandler.averageSpeed h' = 0 /\
    AverageSpeedHandler.numberOfVehicles h' = 0%Z /\
    AverageSpeedHandler.updatecount h' = 0%Z.
Proof.
  split; [discriminate|].
  apply (X23_average_over_two_steps 0.1 0.1 0.2 [cruising] [driving_20]).
  discriminate.
Defined.

Lemma Zsum_app (l1 l2 : list Z) : Zsum (l1 ++ l2) = (Zsum l1 + Zsum l2)%Z.
Proof.
  induction l1 as [|x l1 IH]; cbn [app Zsum fold_right].
  - reflexivity.
  - fold (Zsum (l1 ++ l2)) (Zsum l1). lia.
Qed.

Lemma last_cons {A : Type} (x d : A) (l : list A) :
  last (x :: l) d = last l x.
Proof.
  revert x d. induction l as [|y l IH]; intros x d; [reflexivity|].
  change (last (x :: y :: l) d) with (last (y :: l) d).
  rewrite !IH. reflexivity.
Qed.

Lemma vehicle_count_run (hs : list hook) :
  forall h : VehicleCountHandler.t,
    let h' := fold_left VehicleCountHandler.handle hs h in
    (Zsum (VehicleCountHandler.counts h') + VehicleCountHandler.count h'
     = Zsum (VehicleCountHandler.counts h) + VehicleCountHandler.count h
       + Z.of_nat (List.length (updates_begun hs)))%Z /\
    List.length (VehicleCountHandler.counts h')
    = (List.length (VehicleCountHandler.counts h)
       + List.length (step_times hs))%nat /\
    VehicleCountHandler.max_time h'
    = last (step_times hs) (VehicleCountHandler.max_time h).
Proof.
  induction hs as [|hk hs IH]; intro h; cbn [fold_left].
  - cbn. repeat split; lia.
  - destruct (IH (VehicleCountHandler.handle h hk)) as (S & L & M).
    cbv zeta. rewrite S, L, M.
    change (hk :: hs) with ([hk] ++ hs).
    unfold updates_begun, step_times. rewrite !flat_map_app, !length_app.
    destruct hk;
      cbn [VehicleCountHandler.handle VehicleCountHandler.before_vehicle_update
             VehicleCountHandler.after_time_step VehicleCountHandler.counts
             VehicleCountHandler.count VehicleCountHandler.max_time
             flat_map app List.length];
      try (repeat split; lia).
    rewrite Zsum_app, length_app. cbn [Zsum fold_right List.length].
    repeat split; try lia.
    symmetry. apply last_cons.
Qed.

(** X24: a fresh [VehicleCountHandler] loses no vehicle update: after any
    run of calls, the recorded counts and the running count add up to the
    number of [before_vehicle_update] calls, there is one recorded count per
    time step, and [max_time] is the time of the last time step. *)
Theorem X24_vehicle_count_conservation (hs : list hook) :
  let h' := fold_left VehicleCountHandler.handle hs
              VehicleCountHandler.__init__ in
  (Zsum (VehicleCountHandler.counts h') + VehicleCountHandler.count h'
   = Z.of_nat (List.length (updates_begun hs)))%Z /\
  List.length (VehicleCountHandler.counts h') = List.length (step_times hs) /\
  VehicleCountHandler.max_time h' = last (step_times hs) 0.
Proof.
  destruct (vehicle_count_run hs VehicleCountHandler.__init__) as (S & L & M).
  cbv zeta. rewrite S, L, M. cbn. repeat split.
Qed.

Lemma Qfloor_nonneg (q : Q) : 0 <= q -> (0 <= Qfloor q)%Z.
Proof.
  intro H. change 0%Z with (Qfloor 0). apply Qfloor_resp_le. exact H.
Qed.

Lemma through_put_step (T : Q) (h : ThroughPutHandler.t) (hk : hook) :
  ThroughPutHandler.interval h = 15 ->
  Forall (fun t => t <= T) (step_times [hk]) ->
  (Z.of_nat (List.length (ThroughPutHandler.nb_vehicles_list h))
   <= Qfloor (T / 15))%Z ->
  exists h',
    ThroughPutHandler.handle h hk = Ok h' /\
    ThroughPutHandler.interval h' = 15 /\
    (Zsum (ThroughPutHandler.nb_vehicles_list h')
     + ThroughPutHandler.nb_vehicles h'
     = Zsum (ThroughPutHandler.nb_vehicles_list h)
       + ThroughPutHandler.nb_vehicles h
       + Z.of_nat (List.length (despawned [hk])))%Z /\
    (Z.of_nat (List.length (ThroughPutHandler.nb_vehicles_list h'))
     <= Qfloor (T / 15))%Z.
Proof.
  intros I F B.
  destruct hk; cbn [ThroughPutHandler.handle despawned flat_map app
                      List.length];
    try (exists h; repeat split; try assumption; lia).
  - unfold ThroughPutHandler.after_time_step. rewrite I.
    change (pydiv sim_time 15) with (Ok (sim_time / 15)). cbn [bind].
    destruct (Z.of_nat (List.length (ThroughPutHandler.nb_vehicles_list h))
              <? Qfloor (sim_time / 15))%Z eqn:E.
    + eexists. split; [reflexivity|].
      cbn [ThroughPutHandler.interval ThroughPutHandler.nb_vehicles_list
             ThroughPutHandler.nb_vehicles].
      rewrite Zsum_app, length_app. cbn [Zsum fold_right List.length].
      split; [reflexivity|]. split; [lia|].
      apply Z.ltb_lt in E.
      cbn [step_times flat_map app] in F. inversion F as [|? ? Ft _]; subst.
      assert (Qfloor (sim_time / 15) <= Qfloor (T / 15))%Z.
      { apply Qfloor_resp_le. unfold Qdiv.
        apply Qmult_le_compat_r; [exact Ft | discriminate]. }
      lia.
    + exists h. repeat split; try assumption; lia.
  - eexists. split; [reflexivity|].
    cbn [ThroughPutHandler.before_vehicle_despawn ThroughPutHandler.interval
           ThroughPutHandler.nb_vehicles_list ThroughPutHandler.nb_vehicles].
    repeat split; try assumption; lia.
Qed.

Lemma through_put_run (T : Q) (hs : list hook) :
  forall h : ThroughPutHandler.t,
    ThroughPutHandler.interval h = 15 ->
    Forall (fun t => t <= T) (step_times hs) ->
    (Z.of_nat (List.length (ThroughPutHandler.nb_vehicles_list h))
     <= Qfloor (T / 15))%Z ->
    exists h',
      run ThroughPutHandler.handle h hs = Ok h' /\
      (Zsum (ThroughPutHandler.nb_vehicles_list h')
       + ThroughPutHandler.nb_vehicles h'
       = Zsum (ThroughPutHandler.nb_vehicles_list h)
         + ThroughPutHandler.nb_vehicles h
         + Z.of_nat (List.length (despawned hs)))%Z /\
      (Z.of_nat (List.length (ThroughPutHandler.nb_vehicles_list h'))
       <= Qfloor (T / 15))%Z.
Proof.
  induction hs as [|hk hs IH]; intros h I F B.
  - exists h. cbn. repeat split; try assumption; lia.
  - change (hk :: hs) with ([hk] ++ hs) in F.
    unfold step_times in F. rewrite flat_map_app in F.
    apply Forall_app in F as [F1 F2].
    destruct (through_put_step T h hk I F1 B) as (h1 & E1 & I1 & S1 & B1).
    destruct (IH h1 I1 F2 B1) as (h' & E' & S' & B').
    exists h'. cbn [run]. rewrite E1. cbn [bind].
    split; [exact E'|]. split; [|exact B'].
    rewrite S', S1. change (hk :: hs) with ([hk] ++ hs).
    unfold despawned. rewrite flat_map_app, length_app. lia.
Qed.

(** X25: a run of any calls on a fresh [ThroughPutHandler] whose time steps
    are at times up to [T] raises nothing; the recorded numbers and the
    running number add up to the number of despawned vehicles, and there is
    at most one recorded number per full interval of 15 seconds in [T]. *)
Theorem X25_through_put_conservation (T : Q) (hs : list hook) :
  0 <= T ->
  Forall (fun t => t <= T) (step_times hs) ->
  exists h',
    run ThroughPutHandler.handle ThroughPutHandler.__init__ hs = Ok h' /\
    (Zsum (ThroughPutHandler.nb_vehicles_list h')
     + ThroughPutHandler.nb_vehicles h'
     = Z.of_nat (List.length (despawned hs)))%Z /\
    (Z.of_nat (List.length (ThroughPutHandler.nb_vehicles_list h'))
     <= Qfloor (T / 15))%Z.
Proof.
  intros T0 F.
  assert (B : (0 <= Qfloor (T / 15))%Z).
  { apply Qfloor_nonneg. unfold Qdiv.
    apply Qmult_le_0_compat; [exact T0 | discriminate]. }
  destruct (through_put_run T hs ThroughPutHandler.__init__ eq_refl F B)
    as (h' & E & S & L).
  exists h'. split; [exact E|]. split; [|exact L].
  rewrite S. cbn. lia.
Qed.

Lemma X25_through_put_conservation_witness :
  exists h',
    run ThroughPutHandler.handle ThroughPutHandler.__init__
      [BeforeVehicleDespawn cruising 14; AfterTimeStep 0.1 15;
       BeforeVehicleDespawn driving_20 16; AfterTimeStep 0.1 16] = Ok h' /\
    (Zsum (ThroughPutHandler.nb_vehicles_list h')
     + ThroughPutHandler.nb_vehicles h'
     = Z.of_nat (List.length
         (despawned
            [BeforeVehicleDespawn cruising 14; AfterTimeStep 0.1 15;
             BeforeVehicleDespawn driving_20 16; AfterTimeStep 0.1 16])))%Z /\
    (Z.of_nat (List.length (ThroughPutHandler.nb_vehicles_list h'))
     <= Qfloor (16 / 15))%Z.
Proof.
  apply (X25_through_put_conservation 16).
  - discriminate.
  - repeat constructor; discriminate.
Defined.

(** ** The travel times *)

Lemma getitem_setitem (d : TravelTimeHandler.t) (k k' : nat) (p : Q * Q) :
  TravelTimeHandler.getitem (TravelTimeHandler.setitem d k p) k'
  = if Nat.eqb k' k then Some p else TravelTimeHandler.getitem d k'.
Proof.
  induction d as [|[k0 p0] d IH];
    cbn [TravelTimeHandler.setitem TravelTimeHandler.getitem].
  - destruct (Nat.eqb k' k); reflexivity.
  - destruct (Nat.eqb k k0) eqn:E0;
      cbn [TravelTimeHandler.getitem].
    + apply Nat.eqb_eq in E0. subst k0.
      destruct (Nat.eqb k' k); reflexivity.
    + rewrite IH. destruct (Nat.eqb k' k) eqn:E1; [|reflexivity].
      apply Nat.eqb_eq in E1. subst k'. rewrite E0. reflexivity.
Qed.

Lemma handle_getitem (d d' : TravelTimeHandler.t) (c : TravelTimeHandler.call)
    (k : nat) :
  TravelTimeHandler.handle d c = TravelTimeHandler.Done d' ->
  k <> TravelTimeHandler.vehicle_of c ->
  TravelTimeHandler.getitem d' k = TravelTimeHandler.getitem d k.
Proof.
  intros H NE. apply Nat.eqb_neq in NE.
  destruct c as [k0 t0|k0 t0];
    cbn [TravelTimeHandler.handle TravelTimeHandler.vehicle_of] in *.
  - injection H as <-. unfold TravelTimeHandler.after_vehicle_spawn.
    rewrite getitem_setitem, NE. reflexivity.
  - unfold TravelTimeHandler.before_vehicle_despawn in H.
    destruct (TravelTimeHandler.getitem d k0) as [p|]; [|discriminate].
    injection H as <-. rewrite getitem_setitem, NE. reflexivity.
Qed.

Lemma handle_keeps_keys (d d' : TravelTimeHandler.t)
    (c : TravelTimeHandler.call) :
  TravelTimeHandler.handle d c = TravelTimeHandler.Done d' ->
  TravelTimeHandler.getitem d' (TravelTimeHandler.vehicle_of c) <> None.
Proof.
  intro H.
  destruct c as [k0 t0|k0 t0];
    cbn [TravelTimeHandler.handle TravelTimeHandler.vehicle_of] in *.
  - injection H as <-. unfold TravelTimeHandler.after_vehicle_spawn.
    rewrite getitem_setitem, Nat.eqb_refl. discriminate.
  - unfold TravelTimeHandler.before_vehicle_despawn in H.
    destruct (TravelTimeHandler.getitem d k0) as [p|]; [|discriminate].
    injection H as <-. rewrite getitem_setitem, Nat.eqb_refl. discriminate.
Qed.

Lemma calls_getitem (cs : list TravelTimeHandler.call) (k : nat) :
  forall d d' : TravelTimeHandler.t,
    TravelTimeHandler.calls d cs = TravelTimeHandler.Done d' ->
    ~ In k (map TravelTimeHandler.vehicle_of cs) ->
    TravelTimeHandler.getitem d' k = TravelTimeHandler.getitem d k.
Proof.
  induction cs as [|c cs IH]; intros d d' H NI;
    cbn [TravelTimeHandler.calls map] in *.
  - injection H as <-. reflexivity.
  - destruct (TravelTimeHandler.handle d c) as [d1|] eqn:E; [|discriminate].
    rewrite (IH d1 d' H); [|intro; apply NI; right; assumption].
    apply (handle_getitem _ _ _ _ E). intro; apply NI; left; congruence.
Qed.

Lemma calls_raise_inv (cs : list TravelTimeHandler.call) :
  forall d : TravelTimeHandler.t,
    TravelTimeHandler.calls d cs = TravelTimeHandler.KeyError ->
    exists cs1 k t cs2,
      cs = cs1 ++ TravelTimeHandler.Despawn k t :: cs2 /\
      ~ In k (map TravelTimeHandler.vehicle_of cs1) /\
      TravelTimeHandler.getitem d k = None.
Proof.
  induction cs as [|c cs IH]; intros d H; cbn [TravelTimeHandler.calls] in H.
  - discriminate.
  - destruct (TravelTimeHandler.handle d c) as [d1|] eqn:E.
    + destruct (IH d1 H) as (cs1 & k & t & cs2 & -> & NI & G).
      assert (NE : k <> TravelTimeHandler.vehicle_of c).
      { intros ->. apply (handle_keeps_keys _ _ _ E). exact G. }
      exists (c :: cs1), k, t, cs2. split; [reflexivity|]. split.
      * cbn [map]. intros [F|F]; [apply NE; congruence | exact (NI F)].
      * rewrite <- (handle_getitem _ _ _ _ E NE). exact G.
    + destruct c as [k0 t0|k0 t0]; cbn [TravelTimeHandler.handle] in E;
        [discriminate|].
      unfold TravelTimeHandler.before_vehicle_despawn in E.
      destruct (TravelTimeHandler.getitem d k0) as [p|] eqn:G;
        [discriminate|].
      exists [], k0, t0, cs. repeat split; [intros []|exact G].
Qed.

Lemma calls_raise (cs1 cs2 : list TravelTimeHandler.call) (k : nat) (t : Q) :
  forall d : TravelTimeHandler.t,
    TravelTimeHandler.getitem d k = None ->
    ~ In k (map TravelTimeHandler.vehicle_of cs1) ->
    TravelTimeHandler.calls d (cs1 ++ TravelTimeHandler.Despawn k t :: cs2)
    = TravelTimeHandler.KeyError.
Proof.
  induction cs1 as [|c cs1 IH]; intros d G NI;
    cbn [app TravelTimeHandler.calls map] in *.
  - cbn [TravelTimeHandler.handle].
    unfold TravelTimeHandler.before_vehicle_despawn. rewrite G. reflexivity.
  - destruct (TravelTimeHandler.handle d c) as [d1|] eqn:E; [|reflexivity].
    apply IH; [|intro; apply NI; right; assumption].
    rewrite (handle_getitem _ _ _ _ E); [exact G|].
    intro; apply NI; left; congruence.
Qed.

(** X26: a [TravelTimeHandler] that starts empty ends in a [KeyError]
    exactly when some vehicle is despawned with no earlier call on it, that
    is a vehicle the handler never saw spawn. *)
Theorem X26_despawn_of_unseen_vehicle (cs : list TravelTimeHandler.call) :
  TravelTimeHandler.calls TravelTimeHandler.__init__ cs
  = TravelTimeHandler.KeyError
  <-> exists cs1 k t cs2,
        cs = cs1 ++ TravelTimeHandler.Despawn k t :: cs2 /\
        ~ In k (map TravelTimeHandler.vehicle_of cs1).
Proof.
  split.
  - intro H. destruct (calls_raise_inv cs _ H) as (cs1 & k & t & cs2 & E & NI & _).
    exists cs1, k, t, cs2. split; assumption.
  - intros (cs1 & k & t & cs2 & -> & NI).
    apply calls_raise; [reflexivity | exact NI].
Qed.

(** X27: spawn and despawn are a round trip: when a vehicle spawns at [t0],
    and the calls that follow are on other vehicles, its despawn at [t1]
    raises nothing and leaves the entry [(t0, t1 - t0)], whatever the
    handler held before; the entries of the other vehicles are kept. *)
Theorem X27_travel_time_round_trip (d d1 : TravelTimeHandler.t)
    (cs : list TravelTimeHandler.call) (k : nat) (t0 t1 : Q) :
  ~ In k (map TravelTimeHandler.vehicle_of cs) ->
  TravelTimeHandler.calls (TravelTimeHandler.after_vehicle_spawn d k t0) cs
  = TravelTimeHandler.Done d1 ->
  exists d2,
    TravelTimeHandler.before_vehicle_despawn d1 k t1
    = TravelTimeHandler.Done d2 /\
    TravelTimeHandler.getitem d2 k = Some (t0, t1 - t0) /\
    forall k', k' <> k ->
      TravelTimeHandler.getitem d2 k' = TravelTimeHandler.getitem d1 k'.
Proof.
  intros NI H.
  pose proof (calls_getitem cs k _ _ H NI) as G.
  unfold TravelTimeHandler.after_vehicle_spawn in G.
  rewrite getitem_setitem, Nat.eqb_refl in G.
  unfold TravelTimeHandler.before_vehicle_despawn. rewrite G.
  eexists. split; [reflexivity|]. split.
  - rewrite getitem_setitem, Nat.eqb_refl. reflexivity.
  - intros k' NE. apply Nat.eqb_neq in NE.
    rewrite getitem_setitem, NE. reflexivity.
Qed.

Lemma X27_travel_time_round_trip_witness :
  exists d2,
    TravelTimeHandler.before_vehicle_despawn
      [(1%nat, (3, 0)); (2%nat, (5, 0))] 1 40
    = TravelTimeHandler.Done d2 /\
    TravelTimeHandler.getitem d2 1 = Some (3, 40 - 3) /\
    forall k', k' <> 1%nat ->
      TravelTimeHandler.getitem d2 k'
      = TravelTimeHandler.getitem [(1%nat, (3, 0)); (2%nat, (5, 0))] k'.
Proof.
  apply (X27_travel_time_round_trip TravelTimeHandler.__init__
           [(1%nat, (3, 0)); (2%nat, (5, 0))]
           [TravelTimeHandler.Spawn 2 5] 1%nat 3 40).
  - cbn. intros [F|[]]. discriminate F.
  - reflexivity.
Defined.

Lemma setitem_keys (d : TravelTimeHandler.t) (k : nat) (p : Q * Q) :
  (TravelTimeHandler.getitem d k <> None ->
   map fst (TravelTimeHandler.setitem d k p) = map fst d) /\
  (TravelTimeHandler.getitem d k = None ->
   map fst (TravelTimeHandler.setitem d k p) = map fst d ++ [k]).
Proof.
  induction d as [|[k0 p0] d [IH1 IH2]];
    cbn [TravelTimeHandler.setitem TravelTimeHandler.getitem map app fst].
  - split; [intro H; contradiction H|]; reflexivity.
  - destruct (Nat.eqb k k0) eqn:E; cbn [map fst].
    + split; [reflexivity | discriminate].
    + split; intro H; [rewrite IH1 | rewrite IH2]; auto.
Qed.

Lemma getitem_None (d : TravelTimeHandler.t) (k : nat) :
  TravelTimeHandler.getitem d k = None <-> ~ In k (map fst d).
Proof.
  induction d as [|[k0 p0] d IH]; cbn [TravelTimeHandler.getitem map fst In].
  - split; [intros _ [] | reflexivity].
  - destruct (Nat.eqb k k0) eqn:E.
    + apply Nat.eqb_eq in E. split; [discriminate|].
      intro H. exfalso. apply H. left. congruence.
    + apply Nat.eqb_neq in E. rewrite IH. split.
      * intros H [F|F]; [apply E; congruence | exact (H F)].
      * intros H F. apply H. right. exact F.
Qed.

Lemma setitem_NoDup (d : TravelTimeHandler.t) (k : nat) (p : Q * Q) :
  NoDup (map fst d) -> NoDup (map fst (TravelTimeHandler.setitem d k p)).
Proof.
  intro N. destruct (setitem_keys d k p) as [K1 K2].
  destruct (TravelTimeHandler.getitem d k) as [q|] eqn:G.
  - rewrite K1; [exact N | discriminate].
  - rewrite (K2 eq_refl). apply NoDup_app; [exact N | |].
    + repeat constructor. intros [].
    + intros x Hx [E|[]]. subst x. apply (proj1 (getitem_None d k) G Hx).
Qed.

Lemma calls_NoDup (cs : list TravelTimeHandler.call) :
  forall d d' : TravelTimeHandler.t,
    NoDup (map fst d) ->
    TravelTimeHandler.calls d cs = TravelTimeHandler.Done d' ->
    NoDup (map fst d').
Proof.
  induction cs as [|c cs IH]; intros d d' N H;
    cbn [TravelTimeHandler.calls] in H.
  - injection H as <-. exact N.
  - destruct (TravelTimeHandler.handle d c) as [d1|] eqn:E; [|discriminate].
    apply (IH d1 d'); [|exact H].
    destruct c as [k0 t0|k0 t0]; cbn [TravelTimeHandler.handle] in E.
    + injection E as <-. apply setitem_NoDup, N.
    + unfold TravelTimeHandler.before_vehicle_despawn in E.
      destruct (TravelTimeHandler.getitem d k0); [|discriminate].
      injection E as <-. apply setitem_NoDup, N.
Qed.

Lemma plot_lists_spec (d : TravelTimeHandler.t) :
  NoDup (map fst d) ->
  List.length (fst (TravelTimeHandler.plot_lists d))
  = List.length (snd (TravelTimeHandler.plot_lists d)) /\
  forall t0 tt : Q,
    In (t0, tt) (combine (fst (TravelTimeHandler.plot_lists d))
                   (snd (TravelTimeHandler.plot_lists d)))
    <-> exists k, TravelTimeHandler.getitem d k = Some (t0, tt) /\ ~ tt == 0.
Proof.
  induction d as [|[k0 [a b]] d IH]; intro N;
    cbn [TravelTimeHandler.plot_lists TravelTimeHandler.getitem map fst snd].
  - split; [reflexivity|]. intros t0 tt. cbn. split; [intros []|].
    intros (k & F & _). discriminate F.
  - cbn [map fst] in N. inversion N as [|? ? NI N']; subst.
    destruct (IH N') as [L I].
    destruct (TravelTimeHandler.plot_lists d) as [times travel_times].
    cbn [fst snd] in *.
    assert (Step : forall t0 tt,
               (exists k, (if Nat.eqb k k0 then Some (a, b)
                           else TravelTimeHandler.getitem d k) = Some (t0, tt)
                          /\ ~ tt == 0)
               <-> ((a, b) = (t0, tt) /\ ~ b == 0)
                   \/ exists k, TravelTimeHandler.getitem d k = Some (t0, tt)
                                /\ ~ tt == 0).
    { intros t0 tt. split.
      - intros (k & G & Z). destruct (Nat.eqb k k0) eqn:E.
        + left. injection G as <- <-. split; [reflexivity | exact Z].
        + right. exists k. split; assumption.
      - intros [[E Z]|(k & G & Z)].
        + exists k0. rewrite Nat.eqb_refl. injection E as <- <-.
          split; [reflexivity | exact Z].
        + exists k. destruct (Nat.eqb k k0) eqn:E; [|split; assumption].
          apply Nat.eqb_eq in E. subst k. exfalso.
          apply (proj2 (getitem_None d k0)) in NI. congruence. }
    destruct (Qeq_bool b 0) eqn:B; cbn [negb fst snd combine List.length In].
    + split; [exact L|]. intros t0 tt. rewrite Step, I.
      apply Qeq_bool_iff in B. split; [auto | intros [[_ F]|H]; tauto].
    + split; [rewrite L; reflexivity|]. intros t0 tt. rewrite Step, I.
      assert (B' : ~ b == 0).
      { intro F. apply Qeq_bool_iff in F. congruence. }
      tauto.
Qed.

(** X28: what [plot] draws.  For a handler that started empty and whose
    calls raised nothing, the loop of [plot] builds two lists of the same
    length that pair the spawn time and the travel time of exactly the
    vehicles whose recorded travel time is not zero: a vehicle still on the
    road, or despawned at the very time it spawned, is left out. *)
Theorem X28_plot_lists (cs : list TravelTimeHandler.call)
    (d : TravelTimeHandler.t) :
  TravelTimeHandler.calls TravelTimeHandler.__init__ cs
  = TravelTimeHandler.Done d ->
  List.length (fst (TravelTimeHandler.plot_lists d))
  = List.length (snd (TravelTimeHandler.plot_lists d)) /\
  forall t0 tt : Q,
    In (t0, tt) (combine (fst (TravelTimeHandler.plot_lists d))
                   (snd (TravelTimeHandler.plot_lists d)))
    <-> exists k, TravelTimeHandler.getitem d k = Some (t0, tt) /\ ~ tt == 0.
Proof.
  intro H. apply plot_lists_spec.
  apply (calls_NoDup cs TravelTimeHandler.__init__ d); [constructor | exact H].
Qed.

Lemma X28_plot_lists_witness :
  List.length (fst (TravelTimeHandler.plot_lists
                      [(1%nat, (3, 40 - 3)); (2%nat, (5, 0))]))
  = List.length (snd (TravelTimeHandler.plot_lists
                        [(1%nat, (3, 40 - 3)); (2%nat, (5, 0))])) /\
  forall t0 tt : Q,
    In (t0, tt)
      (combine (fst (TravelTimeHandler.plot_lists
                       [(1%nat, (3, 40 - 3)); (2%nat, (5, 0))]))
         (snd (TravelTimeHandler.plot_lists
                 [(1%nat, (3, 40 - 3)); (2%nat, (5, 0))])))
    <-> exists k,
          TravelTimeHandler.getitem [(1%nat, (3, 40 - 3)); (2%nat, (5, 0))] k
          = Some (t0, tt) /\ ~ tt == 0.
Proof.
  apply (X28_plot_lists
           [TravelTimeHandler.Spawn 1 3; TravelTimeHandler.Spawn 2 5;
            TravelTimeHandler.Despawn 1 40]).
  reflexivity.
Defined.
